(** * blender-export.py: a model of the swimmer export script

    The script drives the scripting interface of a 3D host application
    (the [bpy] module).  The host is modelled as an explicit state, the
    record [Host]: the object collection, the data-block collections the
    script touches ([bpy.data.meshes], [bpy.data.armatures],
    [bpy.data.actions]), the selection and the active object of the context,
    the lines printed so far, the operator calls issued so far and the files
    written so far.  Every Python function of the script is a computation in
    the monad [Py], which threads the host state and carries the exceptions
    Python can raise ([sys.exit], a failed attribute or key lookup, a failed
    operator).

    Python object identity is modelled by natural-number identifiers; a new
    object or data block receives an identifier above every identifier the
    collections hold ([fresh]).  What the encoders of the host compute is
    not part of the script: an imported file is given by its content (a list of
    [FbxNode]), an exported file by a snapshot of the scene and the export
    settings, and the effect of applying a modifier on the polygon count by
    the function [apply_polygons], a parameter of the development.

    The session the model describes is the one a batch run starts in: the
    host is in object mode and every object of the scene is visible and
    selectable, so that [select_all] reaches all of them; a file gives
    every mesh node mesh data of its own; and the output path can be
    written.  The collections are lists in the order of creation.  The
    host keeps its collections in an order of its own, so the properties
    of the scenes an import leaves or a run exports are stated up to the
    order of the objects. *)

From Stdlib Require Import List String Ascii ZArith QArith Lia Bool Arith PeanoNat.
From Stdlib Require Import Permutation.
Import ListNotations.
Local Open Scope string_scope.
Local Open Scope list_scope.
Local Open Scope nat_scope.

Set Implicit Arguments.

(** ** Data model *)

(** A modifier of a mesh object: [modifier.name], [modifier.type] and, for a
    decimate modifier, [modifier.ratio]. *)
Record Modifier := mkModifier {
  md_name : string;
  md_type : string;
  md_ratio : Q
}.

(** A strip of an animation track, as created by
    [track.strips.new(name, start, action)]. *)
Record NlaStrip := mkStrip {
  st_name : string;
  st_start : Z;
  st_action : nat
}.

Record NlaTrack := mkTrack {
  tr_name : string;
  tr_mute : bool;
  tr_strips : list NlaStrip
}.

(** [obj.animation_data]: the bound action and the track stack. *)
Record AnimData := mkAnimData {
  ad_action : option nat;
  ad_tracks : list NlaTrack
}.

Record Object := mkObject {
  ob_id : nat;
  ob_name : string;
  ob_type : string;
  ob_parent : option nat;
  ob_data : option nat;
  ob_anim : option AnimData;
  ob_modifiers : list Modifier
}.

(** Data blocks.  [users] of a block is the number of references the scene
    holds to it plus [*_other_users], the references this model does not
    track (a fake user, a reference from another data block). *)
Record MeshData := mkMesh {
  me_id : nat;
  me_polygons : Z;
  me_other_users : nat
}.

Record ArmatureData := mkArmature {
  ar_id : nat;
  ar_other_users : nat
}.

Record Action := mkAction {
  ac_id : nat;
  ac_name : string;
  ac_frames : nat;
  ac_other_users : nat
}.

(** The keyword arguments of [bpy.ops.export_scene.gltf]. *)
Record ExportSettings := mkSettings {
  export_format : string;
  export_animations : bool;
  export_skins : bool;
  export_morph : bool;
  export_lights : bool;
  export_cameras : bool;
  export_extras : bool;
  export_draco_mesh_compression_enable : bool;
  export_draco_mesh_compression_level : Z;
  export_image_format : string
}.

(** An exported file: the settings and the scene the exporter was given. *)
Record Asset := mkAsset {
  as_settings : ExportSettings;
  as_objects : list Object;
  as_meshes : list MeshData;
  as_armatures : list ArmatureData;
  as_actions : list Action
}.

(** The operator calls of the script, [bpy.ops.*]. *)
Inductive Call :=
| CallSelectAll (action : string)
| CallDelete (use_global : bool)
| CallImportFbx (filepath : string)
| CallModifierApply (ob : nat) (modifier : string)
| CallModifierAdd (ob : nat) (type : string)
| CallExportGltf (filepath : string).

Record Host := mkHost {
  objects : list Object;
  selected : list nat;
  active : option nat;
  meshes : list MeshData;
  armatures : list ArmatureData;
  actions : list Action;
  stdout : list string;
  calls : list Call;
  written : list (string * Asset)
}.

(** The content of an FBX file, as far as the script looks at it. *)
Inductive FbxAnim :=
| NoAnimData
| NoAction
| Bound (name : string) (frames : nat).

Record FbxNode := mkNode {
  fn_name : string;
  fn_type : string;
  fn_parent : option nat;
  fn_polygons : Z;
  fn_modifiers : list Modifier;
  fn_anim : FbxAnim
}.

(** ** The monad of the script *)

Inductive exn :=
| SystemExit (code : Z)
| AttributeError
| KeyError
| ReferenceError
| RuntimeError.

Inductive Res (A : Type) :=
| Ok (a : A) (s : Host)
| Raise (e : exn) (s : Host).

Arguments Raise {A} e s.

Definition Py (A : Type) := Host -> Res A.

Definition ret {A} (a : A) : Py A := fun s => Ok a s.

Definition bind {A B} (m : Py A) (k : A -> Py B) : Py B :=
  fun s => match m s with
           | Ok a s' => k a s'
           | Raise e s' => Raise e s'
           end.

Definition raise {A} (e : exn) : Py A := fun s => Raise e s.

Definition gets {A} (f : Host -> A) : Py A := fun s => Ok (f s) s.

Definition modify (f : Host -> Host) : Py unit := fun s => Ok tt (f s).

Declare Scope py_scope.
Delimit Scope py_scope with py.
Notation "x <- m ;; k" := (bind m (fun x => k))
  (at level 61, m at next level, right associativity) : py_scope.
Notation "m ;; k" := (bind m (fun _ => k))
  (at level 61, right associativity) : py_scope.
Local Open Scope py_scope.

(** [a == b] on Python strings. *)
Notation "a ==s b" := (String.eqb a b) (at level 70, no associativity).

(** [a + b] on Python strings. *)
Notation "a +s b" := (String.append a b) (at level 60, right associativity).

(** [for x in xs: body(x)] over a list fixed before the loop starts. *)
Fixpoint for_each {A} (xs : list A) (body : A -> Py unit) : Py unit :=
  match xs with
  | [] => ret tt
  | x :: rest => body x ;; for_each rest body
  end.

(** The final state of a run, and its exit status: 0 when the script runs
    to its end, the argument of [sys.exit] when it is called.  The status
    after another uncaught exception is the host's business. *)
Definition final {A} (r : Res A) : Host :=
  match r with Ok _ s => s | Raise _ s => s end.

Definition exit_status {A} (r : Res A) : option Z :=
  match r with
  | Ok _ _ => Some 0%Z
  | Raise (SystemExit c) _ => Some c
  | Raise _ _ => None
  end.

(** ** State updates *)

Definition set_objects (f : list Object -> list Object) (s : Host) : Host :=
  mkHost (f (objects s)) (selected s) (active s) (meshes s) (armatures s)
         (actions s) (stdout s) (calls s) (written s).

Definition set_selected (f : list nat -> list nat) (s : Host) : Host :=
  mkHost (objects s) (f (selected s)) (active s) (meshes s) (armatures s)
         (actions s) (stdout s) (calls s) (written s).

Definition set_active (a : option nat) (s : Host) : Host :=
  mkHost (objects s) (selected s) a (meshes s) (armatures s)
         (actions s) (stdout s) (calls s) (written s).

Definition set_meshes (f : list MeshData -> list MeshData) (s : Host) : Host :=
  mkHost (objects s) (selected s) (active s) (f (meshes s)) (armatures s)
         (actions s) (stdout s) (calls s) (written s).

Definition set_armatures (f : list ArmatureData -> list ArmatureData) (s : Host) : Host :=
  mkHost (objects s) (selected s) (active s) (meshes s) (f (armatures s))
         (actions s) (stdout s) (calls s) (written s).

Definition set_actions (f : list Action -> list Action) (s : Host) : Host :=
  mkHost (objects s) (selected s) (active s) (meshes s) (armatures s)
         (f (actions s)) (stdout s) (calls s) (written s).

Definition add_stdout (line : string) (s : Host) : Host :=
  mkHost (objects s) (selected s) (active s) (meshes s) (armatures s)
         (actions s) (stdout s ++ [line]) (calls s) (written s).

Definition add_call (c : Call) (s : Host) : Host :=
  mkHost (objects s) (selected s) (active s) (meshes s) (armatures s)
         (actions s) (stdout s) (calls s ++ [c]) (written s).

Definition set_written (f : list (string * Asset) -> list (string * Asset))
    (s : Host) : Host :=
  mkHost (objects s) (selected s) (active s) (meshes s) (armatures s)
         (actions s) (stdout s) (calls s) (f (written s)).

(** [print(line)] *)
Definition print (line : string) : Py unit := modify (add_stdout line).

(** Looking an object up through a reference the script holds.  The host
    raises [ReferenceError] when the object behind it has been removed. *)
Definition get_obj (id : nat) (s : Host) : option Object :=
  find (fun o => ob_id o =? id) (objects s).

Definition deref (id : nat) : Py Object :=
  fun s => match get_obj id s with
           | Some o => Ok o s
           | None => Raise ReferenceError s
           end.

(** An assignment through a reference changes the block the reference
    points to: the first block of the collection that answers to it. *)
Fixpoint upd_first {A} (p : A -> bool) (f : A -> A) (l : list A) : list A :=
  match l with
  | [] => []
  | x :: r => if p x then f x :: r else x :: upd_first p f r
  end.

Definition upd_obj (id : nat) (f : Object -> Object) (s : Host) : Host :=
  set_objects (upd_first (fun o => ob_id o =? id) f) s.

Definition with_name (n : string) (o : Object) : Object :=
  mkObject (ob_id o) n (ob_type o) (ob_parent o) (ob_data o) (ob_anim o)
           (ob_modifiers o).

Definition with_parent (p : option nat) (o : Object) : Object :=
  mkObject (ob_id o) (ob_name o) (ob_type o) p (ob_data o) (ob_anim o)
           (ob_modifiers o).

Definition with_anim (a : option AnimData) (o : Object) : Object :=
  mkObject (ob_id o) (ob_name o) (ob_type o) (ob_parent o) (ob_data o) a
           (ob_modifiers o).

Definition with_modifiers (m : list Modifier) (o : Object) : Object :=
  mkObject (ob_id o) (ob_name o) (ob_type o) (ob_parent o) (ob_data o)
           (ob_anim o) m.

(** [bpy.context.selected_objects] *)
Definition selected_objects (s : Host) : list Object :=
  flat_map (fun i => match get_obj i s with Some o => [o] | None => [] end)
           (selected s).

(** A fresh identity: above every identifier the collections hold. *)
Definition opt_id (r : option nat) : list nat :=
  match r with Some i => [i] | None => [] end.

Definition anim_ids (a : option AnimData) : list nat :=
  match a with
  | Some ad => opt_id (ad_action ad)
               ++ map st_action (flat_map tr_strips (ad_tracks ad))
  | None => []
  end.

Definition object_ids (o : Object) : list nat :=
  ob_id o :: opt_id (ob_parent o) ++ opt_id (ob_data o) ++ anim_ids (ob_anim o).

Definition all_ids (s : Host) : list nat :=
  flat_map object_ids (objects s) ++ map me_id (meshes s)
  ++ map ar_id (armatures s) ++ map ac_id (actions s).

Definition fresh (s : Host) : nat := S (list_max (all_ids s)).

(** [block.users] for the three kinds of data block. *)
Definition refs_data (d : nat) (s : Host) : nat :=
  List.length (filter (fun o => match ob_data o with
                           | Some d' => d' =? d
                           | None => false
                           end) (objects s)).

Definition anim_refs (a : nat) (ad : AnimData) : nat :=
  (match ad_action ad with Some a' => if a' =? a then 1 else 0 | None => 0 end)
  + List.length (filter (fun st => st_action st =? a)
                   (flat_map tr_strips (ad_tracks ad))).

Definition refs_action (a : nat) (s : Host) : nat :=
  list_sum (map (fun o => match ob_anim o with
                          | Some ad => anim_refs a ad
                          | None => 0
                          end) (objects s)).

Definition mesh_users (s : Host) (b : MeshData) : nat :=
  refs_data (me_id b) s + me_other_users b.

Definition armature_users (s : Host) (b : ArmatureData) : nat :=
  refs_data (ar_id b) s + ar_other_users b.

Definition action_users (s : Host) (b : Action) : nat :=
  refs_action (ac_id b) s + ac_other_users b.

(** ** The host operations the script calls *)

Definition is_type (t : string) (o : Object) : bool := ob_type o ==s t.

Definition clear_parent (id : nat) (o : Object) : Object :=
  match ob_parent o with
  | Some p => if p =? id then with_parent None o else o
  | None => o
  end.

(** The host forgets an object: it leaves the object collection, the
    selection and the active slot, and its children lose their parent. *)
Definition remove_obj (id : nat) (s : Host) : Host :=
  set_active (match active s with
              | Some a => if a =? id then None else Some a
              | None => None
              end)
    (set_selected (filter (fun i => negb (i =? id)))
       (set_objects (fun l => map (clear_parent id)
                                  (filter (fun o => negb (ob_id o =? id)) l)) s)).

(** [bpy.data.objects.remove(obj, do_unlink=True)] *)
Definition objects_remove (id : nat) : Py unit :=
  _ <- deref id ;;
  modify (remove_obj id).

(** [bpy.ops.object.select_all(action=...)]; the script only uses
    ['SELECT'].  Every object of the scene is taken to be visible and
    selectable. *)
Definition select_all (action : string) : Py unit :=
  modify (add_call (CallSelectAll action)) ;;
  if action ==s "SELECT" then
    modify (fun s => set_selected (fun _ => map ob_id (objects s)) s)
  else if action ==s "DESELECT" then
    modify (set_selected (fun _ => []))
  else ret tt.

Definition remove_all (ids : list nat) (s : Host) : Host :=
  fold_left (fun s' i => remove_obj i s') ids s.

(** [bpy.ops.object.delete(use_global=False)]: every selected object is
    deleted. *)
Definition object_delete (use_global : bool) : Py unit :=
  modify (add_call (CallDelete use_global)) ;;
  modify (fun s => remove_all (selected s) s).

(** Removing the blocks of a collection that have no user.  Removing a
    block does not change the users of another block of its collection, so
    the loop over the collection is a filter. *)
Definition remove_orphan_meshes : Py unit :=
  modify (fun s => set_meshes (filter (fun b => negb (mesh_users s b =? 0))) s).

Definition remove_orphan_armatures : Py unit :=
  modify (fun s =>
    set_armatures (filter (fun b => negb (armature_users s b =? 0))) s).

Definition remove_orphan_actions : Py unit :=
  modify (fun s =>
    set_actions (filter (fun b => negb (action_users s b =? 0))) s).

Definition indexed {A} (l : list A) : list (nat * A) :=
  combine (seq 0 (List.length l)) l.

(** What the importer creates for the [i]-th node of a file when the first
    free identifier is [base]: the object, its data block and its action
    take the identifiers [base + 3 * i], [+ 1] and [+ 2].  The importer
    sets the fake user of every action it creates, which is the one user
    such an action has besides the objects that play it; a mesh or an
    armature block has no user but its object. *)
Definition node_object (base : nat) (p : nat * FbxNode) : Object :=
  let (i, n) := p in
  mkObject (base + 3 * i) (fn_name n) (fn_type n)
    (option_map (fun j => base + 3 * j) (fn_parent n))
    (if (fn_type n ==s "MESH") || (fn_type n ==s "ARMATURE")
     then Some (base + 3 * i + 1) else None)
    (match fn_anim n with
     | NoAnimData => None
     | NoAction => Some (mkAnimData None [])
     | Bound _ _ => Some (mkAnimData (Some (base + 3 * i + 2)) [])
     end)
    (fn_modifiers n).

Definition node_meshes (base : nat) (p : nat * FbxNode) : list MeshData :=
  let (i, n) := p in
  if fn_type n ==s "MESH" then [mkMesh (base + 3 * i + 1) (fn_polygons n) 0]
  else [].

Definition node_armatures (base : nat) (p : nat * FbxNode) : list ArmatureData :=
  let (i, n) := p in
  if fn_type n ==s "ARMATURE" then [mkArmature (base + 3 * i + 1) 0] else [].

Definition node_actions (base : nat) (p : nat * FbxNode) : list Action :=
  let (i, n) := p in
  match fn_anim n with
  | Bound name frames => [mkAction (base + 3 * i + 2) name frames 1]
  | _ => []
  end.

Definition loaded_ids (base : nat) (idx : list (nat * FbxNode)) : list nat :=
  map (fun p => base + 3 * fst p) idx.

Definition load_nodes (nodes : list FbxNode) (s : Host) : Host :=
  let base := fresh s in
  mkHost (objects s ++ map (node_object base) (indexed nodes))
         (loaded_ids base (indexed nodes))
         (active s)
         (meshes s ++ flat_map (node_meshes base) (indexed nodes))
         (armatures s ++ flat_map (node_armatures base) (indexed nodes))
         (actions s ++ flat_map (node_actions base) (indexed nodes))
         (stdout s) (calls s) (written s).

(** [action.copy()]: a new block with the content of the original.  (The
    host gives the copy a name derived from the original's; the script
    overwrites it in its next statement.) *)
Definition action_copy (a : nat) : Py nat :=
  fun s => match find (fun b => ac_id b =? a) (actions s) with
           | None => Raise ReferenceError s
           | Some b =>
               let id := fresh s in
               Ok id (set_actions
                        (fun l => l ++ [mkAction id (ac_name b) (ac_frames b) 0]) s)
           end.

(** [action.name = name] *)
Definition set_action_name (a : nat) (name : string) : Py unit :=
  modify (set_actions (upd_first (fun b => ac_id b =? a) (fun b =>
    mkAction (ac_id b) name (ac_frames b) (ac_other_users b)))).

(** [obj.name = name] *)
Definition set_name (id : nat) (name : string) : Py unit :=
  _ <- deref id ;;
  modify (upd_obj id (with_name name)).

(** [obj.animation_data_create()] *)
Definition animation_data_create (id : nat) : Py unit :=
  o <- deref id ;;
  match ob_anim o with
  | Some _ => ret tt
  | None => modify (upd_obj id (with_anim (Some (mkAnimData None []))))
  end.

(** [obj.animation_data.nla_tracks.new()]: the new track goes on top of the
    stack; the handle returned is its position.  [obj.animation_data] is
    [None] on an object without animation data, and the attribute access
    fails. *)
Definition nla_tracks_new (id : nat) : Py nat :=
  o <- deref id ;;
  match ob_anim o with
  | None => raise AttributeError
  | Some ad =>
      modify (upd_obj id (with_anim (Some
        (mkAnimData (ad_action ad)
                    (ad_tracks ad ++ [mkTrack "NlaTrack" false []]))))) ;;
      ret (List.length (ad_tracks ad))
  end.

Fixpoint upd_nth {A} (n : nat) (f : A -> A) (l : list A) : list A :=
  match l, n with
  | [], _ => []
  | x :: r, 0 => f x :: r
  | x :: r, S n' => x :: upd_nth n' f r
  end.

(** An assignment through a track handle. *)
Definition on_track (id track : nat) (f : NlaTrack -> NlaTrack) : Py unit :=
  o <- deref id ;;
  match ob_anim o with
  | None => raise AttributeError
  | Some ad =>
      if track <? List.length (ad_tracks ad) then
        modify (upd_obj id (with_anim (Some
          (mkAnimData (ad_action ad) (upd_nth track f (ad_tracks ad))))))
      else raise ReferenceError
  end.

(** [track.name = name] *)
Definition set_track_name (id track : nat) (name : string) : Py unit :=
  on_track id track (fun t => mkTrack name (tr_mute t) (tr_strips t)).

(** [track.strips.new(name, start, action)] *)
Definition strips_new (id track : nat) (name : string) (start : Z)
    (action : nat) : Py unit :=
  on_track id track (fun t =>
    mkTrack (tr_name t) (tr_mute t) (tr_strips t ++ [mkStrip name start action])).

(** [track.mute = b] *)
Definition set_track_mute (id track : nat) (b : bool) : Py unit :=
  on_track id track (fun t => mkTrack (tr_name t) b (tr_strips t)).

(** [obj.select_set(b)] *)
Definition select_set (id : nat) (b : bool) : Py unit :=
  modify (set_selected (fun l =>
    if b then (if existsb (Nat.eqb id) l then l else l ++ [id])
    else filter (fun i => negb (i =? id)) l)).

Fixpoint remove_named (name : string) (l : list Modifier) : list Modifier :=
  match l with
  | [] => []
  | m :: r => if md_name m ==s name then r else m :: remove_named name r
  end.

Definition find_modifier (name : string) (l : list Modifier) : option Modifier :=
  find (fun m => md_name m ==s name) l.

Definition find_mesh (d : nat) (s : Host) : option MeshData :=
  find (fun b => me_id b =? d) (meshes s).

Definition upd_mesh (d : nat) (f : MeshData -> MeshData) (s : Host) : Host :=
  set_meshes (upd_first (fun b => me_id b =? d) f) s.

Definition with_polygons (n : Z) (b : MeshData) : MeshData :=
  mkMesh (me_id b) n (me_other_users b).

(** The name the host gives a new modifier: the default name of its type,
    with a numeric suffix when that name is taken in the stack (the first
    suffix is modelled). *)
Definition default_name (type : string) : string :=
  if type ==s "DECIMATE" then "Decimate" else type.

Definition unique_name (base : string) (names : list string) : string :=
  if existsb (String.eqb base) names then base +s ".001" else base.

(** [len(obj.data.polygons)] *)
Definition polygons (id : nat) : Py Z :=
  o <- deref id ;;
  match ob_data o with
  | None => raise AttributeError
  | Some d =>
      fun s => match find_mesh d s with
               | Some b => Ok (me_polygons b) s
               | None => Raise ReferenceError s
               end
  end.

(** [obj.modifiers[name].ratio = q]: the lookup by name fails with
    [KeyError] when no modifier has the name, and the assignment with
    [AttributeError] when the modifier found is not a decimate modifier. *)
Definition set_ratio (id : nat) (name : string) (q : Q) : Py unit :=
  o <- deref id ;;
  match find_modifier name (ob_modifiers o) with
  | None => raise KeyError
  | Some m =>
      if md_type m ==s "DECIMATE" then
        modify (upd_obj id (fun o' => with_modifiers
          (upd_first (fun m' => md_name m' ==s name)
                     (fun m' => mkModifier (md_name m') (md_type m') q)
                     (ob_modifiers o')) o'))
      else raise AttributeError
  end.

(** ** The script *)

(** Configuration: [OUTPUT_FILE] and [ANIMATIONS].  A Python dict iterates
    in insertion order, so [ANIMATIONS.items()] is this list. *)
Definition OUTPUT_FILE : string := "swimmer.glb".

Definition ANIMATIONS : list (string * string) :=
  [ ("swim_freestyle", "Swimming");
    ("swim_breaststroke", "Breaststroke");
    ("swim_backstroke", "Backstroke");
    ("swim_butterfly", "Butterfly");
    ("swim_dive", "Diving");
    ("swim_turn_flip", "FlipTurn");
    ("swim_turn_open", "OpenTurn") ].

(** [os.path.join(dir, name)] for a directory that is not the root. *)
Definition path_join (dir name : string) : string := dir +s "/" +s name.

(** [sys.exit(code)] *)
Definition sys_exit {A} (code : Z) : Py A := raise (SystemExit code).

(** [if c: body] *)
Definition when (c : bool) (body : Py unit) : Py unit :=
  if c then body else ret tt.

Definition gltf_settings : ExportSettings :=
  mkSettings "GLB" true true false false false true true 6%Z "WEBP".

Section Script.

(** The files of the disk: [fbx path] is the content of the FBX file at
    [path], [None] when there is no such file. *)
Variable fbx : string -> option (list FbxNode).

(** The polygon count of a mesh after the host has applied a modifier to
    it. *)
Variable apply_polygons : Modifier -> Z -> Z.

(** The directory of the script,
    [os.path.dirname(os.path.abspath(__file__))]. *)
Variable script_dir : string.

(** [os.path.exists(path)] *)
Definition path_exists (path : string) : bool :=
  match fbx path with Some _ => true | None => false end.

(** [bpy.ops.import_scene.fbx(filepath=...)]: the importer deselects
    everything, creates the objects of the file and leaves them selected. *)
Definition import_scene_fbx (filepath : string) : Py unit :=
  modify (add_call (CallImportFbx filepath)) ;;
  match fbx filepath with
  | None => raise RuntimeError
  | Some nodes => modify (load_nodes nodes)
  end.

(** [bpy.ops.object.modifier_apply(modifier=name)] on the active object:
    the modifier is baked into the mesh data and leaves the stack.  The
    host refuses mesh data that has another user; the meshes an import
    creates have none, and what is proved of other scenes assumes it
    ([sole_user]). *)
Definition modifier_apply (name : string) : Py unit :=
  a <- gets active ;;
  match a with
  | None => raise RuntimeError
  | Some id =>
      modify (add_call (CallModifierApply id name)) ;;
      o <- deref id ;;
      match find_modifier name (ob_modifiers o), ob_data o with
      | Some m, Some d =>
          fun s => match find_mesh d s with
                   | Some b =>
                       Ok tt (upd_obj id (fun o' => with_modifiers
                                (remove_named name (ob_modifiers o')) o')
                              (upd_mesh d (with_polygons
                                 (apply_polygons m (me_polygons b))) s))
                   | None => Raise RuntimeError s
                   end
      | _, _ => raise RuntimeError
      end
  end.

(** [bpy.ops.object.modifier_add(type=...)] on the active object. *)
Definition modifier_add (type : string) : Py unit :=
  a <- gets active ;;
  match a with
  | None => raise RuntimeError
  | Some id =>
      modify (add_call (CallModifierAdd id type)) ;;
      _ <- deref id ;;
      modify (upd_obj id (fun o => with_modifiers
        (ob_modifiers o ++
           [mkModifier (unique_name (default_name type)
                                    (map md_name (ob_modifiers o)))
                       type 1%Q]) o))
  end.

(** [clear_scene()], lines 43-57. *)
Definition clear_scene : Py unit :=
  select_all "SELECT" ;;
  object_delete false ;;
  remove_orphan_meshes ;;
  remove_orphan_armatures ;;
  remove_orphan_actions.

(** [import_fbx(filepath)], lines 60-76: the first armature among the
    selected objects, or [None]. *)
Definition import_fbx (filepath : string) : Py (option nat) :=
  import_scene_fbx filepath ;;
  sel <- gets selected_objects ;;
  ret (option_map ob_id (find (is_type "ARMATURE") sel)).

(** Lines 103-117 of [extract_animation]: the branch taken when the
    imported armature has animation data with an action. *)
Definition attach_action (a : nat) (action_name : string)
    (target_armature : nat) : Py unit :=
  action <- action_copy a ;;
  set_action_name action action_name ;;
  tgt <- deref target_armature ;;
  when (match ob_anim tgt with None => true | Some _ => false end)
       (animation_data_create target_armature) ;;
  track <- nla_tracks_new target_armature ;;
  set_track_name target_armature track action_name ;;
  strips_new target_armature track action_name 0%Z action ;;
  set_track_mute target_armature track true ;;
  print ("Added animation: " +s action_name).

(** [extract_animation(fbx_path, action_name, target_armature)],
    lines 79-121. *)
Definition extract_animation (fbx_path action_name : string)
    (target_armature : nat) : Py unit :=
  import_scene_fbx fbx_path ;;
  sel <- gets selected_objects ;;
  match find (is_type "ARMATURE") sel with
  | None => print ("Warning: No armature found in " +s fbx_path)
  | Some imported_armature =>
      match ob_anim imported_armature with
      | Some (mkAnimData (Some a) _) =>
          attach_action a action_name target_armature
      | _ => ret tt
      end ;;
      sel' <- gets selected_objects ;;
      for_each sel' (fun obj => objects_remove (ob_id obj))
  end.

(** The body of the loop over the meshes, lines 135-149 of
    [optimize_model]. *)
Definition optimize_mesh (mesh : nat) : Py unit :=
  modify (set_active (Some mesh)) ;;
  select_set mesh true ;;
  o <- deref mesh ;;
  for_each (ob_modifiers o) (fun modifier =>
    when (negb (md_type modifier ==s "ARMATURE"))
         (modifier_apply (md_name modifier))) ;;
  n <- polygons mesh ;;
  when (10000 <? n)%Z
       (modifier_add "DECIMATE" ;;
        set_ratio mesh "Decimate" (1 # 2)%Q ;;
        modifier_apply "Decimate") ;;
  select_set mesh false.

Definition is_child_mesh (armature : nat) (obj : Object) : bool :=
  match ob_parent obj with
  | Some p => p =? armature
  | None => false
  end && (ob_type obj ==s "MESH").

(** [optimize_model(armature)], lines 124-149. *)
Definition optimize_model (armature : nat) : Py unit :=
  objs <- gets objects ;;
  let meshes := filter (is_child_mesh armature) objs in
  for_each meshes (fun mesh => optimize_mesh (ob_id mesh)).

(** [bpy.ops.export_scene.gltf(filepath=..., ...)]: the whole scene goes to
    the file, which replaces a file already there.  The path is taken to
    be one the host can write to. *)
Definition export_scene_gltf (filepath : string) (settings : ExportSettings)
    : Py unit :=
  modify (add_call (CallExportGltf filepath)) ;;
  modify (fun s => set_written (fun w =>
    (filepath, mkAsset settings (objects s) (meshes s) (armatures s)
                       (actions s))
    :: filter (fun p => negb (fst p ==s filepath)) w) s).

(** [export_glb(filepath)], lines 152-172. *)
Definition export_glb (filepath : string) : Py unit :=
  export_scene_gltf filepath gltf_settings ;;
  print ("Exported: " +s filepath).

(** The body of the loop over [ANIMATIONS.items()], lines 201-206. *)
Definition import_entry (armature : nat) (entry : string * string) : Py unit :=
  let (filename, action_name) := entry in
  let fbx_path := path_join script_dir (filename +s ".fbx") in
  if path_exists fbx_path then
    print ("Importing animation: " +s filename) ;;
    extract_animation fbx_path action_name armature
  else
    print ("Skipping (not found): " +s filename).

(** Lines 196-217 of [main]: what runs once the armature of the character
    is at hand. *)
Definition main_with (armature : nat) : Py unit :=
  set_name armature "Swimmer" ;;
  for_each ANIMATIONS (import_entry armature) ;;
  print "Optimizing model..." ;;
  optimize_model armature ;;
  let output_path := path_join script_dir OUTPUT_FILE in
  print ("Exporting to: " +s output_path) ;;
  export_glb output_path ;;
  print "Done!".

(** [main()], lines 175-217. *)
Definition main : Py unit :=
  clear_scene ;;
  let character_path := path_join script_dir "character.fbx" in
  when (negb (path_exists character_path))
       (print ("Error: Character file not found: " +s character_path) ;;
        print "Please download a character from Mixamo as 'character.fbx'" ;;
        sys_exit 1%Z) ;;
  print ("Importing character: " +s character_path) ;;
  armature <- import_fbx character_path ;;
  match armature with
  | None =>
      print "Error: No armature found in character file" ;;
      sys_exit 1%Z
  | Some arm => main_with arm
  end.

End Script.

(** ** Vocabulary of the statements *)

(** The animation data of the target once a track named [name] holding the
    action [copy] has been attached: the bound action is kept and the new
    track, muted, with its single strip at frame 0, is on top of the
    stack. *)
Definition anim_or_empty (o : Object) : AnimData :=
  match ob_anim o with
  | Some ad => ad
  | None => mkAnimData None []
  end.

Definition attached_track (name : string) (copy : nat) : NlaTrack :=
  mkTrack name true [mkStrip name 0%Z copy].

Definition attached_anim (o : Object) (name : string) (copy : nat) : AnimData :=
  mkAnimData (ad_action (anim_or_empty o))
             (ad_tracks (anim_or_empty o) ++ [attached_track name copy]).

Definition add_calls (cs : list Call) (s : Host) : Host :=
  mkHost (objects s) (selected s) (active s) (meshes s) (armatures s)
         (actions s) (stdout s) (calls s ++ cs) (written s).

Definition is_armature_modifier (m : Modifier) : bool :=
  md_type m ==s "ARMATURE".

(** The modifiers the optimize phase applies: those not of the armature
    type, in stack order. *)
Definition applied_modifiers (mods : list Modifier) : list Modifier :=
  filter (fun m => negb (is_armature_modifier m)) mods.

(** The modifiers the optimize phase leaves on the stack. *)
Definition kept_modifiers (mods : list Modifier) : list Modifier :=
  filter is_armature_modifier mods.

(** The decimate modifier once its ratio is set. *)
Definition decimate_half : Modifier := mkModifier "Decimate" "DECIMATE" (1 # 2).

Section Optimized.

Variable apply_polygons : Modifier -> Z -> Z.

(** The polygon count once the modifiers of [applied_modifiers] are baked
    in, which is the count the threshold is compared with. *)
Definition baked_polygons (mods : list Modifier) (p : Z) : Z :=
  fold_left (fun p' m => apply_polygons m p') (applied_modifiers mods) p.

Definition decimated (mods : list Modifier) (p : Z) : bool :=
  (10000 <? baked_polygons mods p)%Z.

Definition optimized_polygons (mods : list Modifier) (p : Z) : Z :=
  if decimated mods p
  then apply_polygons decimate_half (baked_polygons mods p)
  else baked_polygons mods p.

(** The operator calls of the optimize phase for one mesh. *)
Definition optimize_calls (id : nat) (mods : list Modifier) (p : Z) : list Call :=
  map (fun m => CallModifierApply id (md_name m)) (applied_modifiers mods)
  ++ if decimated mods p
     then [CallModifierAdd id "DECIMATE"; CallModifierApply id "Decimate"]
     else [].

End Optimized.

(** A modifier stack as the host keeps it: no two modifiers share a name. *)
Definition stack_ok (mods : list Modifier) : Prop :=
  NoDup (map md_name mods).

(** No armature modifier of the stack goes by the default name of a
    decimate modifier. *)
Definition decimate_free (mods : list Modifier) : Prop :=
  forall m, In m mods -> is_armature_modifier m = true -> md_name m <> "Decimate".

(** The scene while the optimize phase works on the mesh object [o], known
    as [id], whose data block is [b], known as [d]: the stack of [o] is
    [mods], the polygon count of [b] is [p], and the calls [cs] have been
    issued since the scene was [s0]. *)
Definition during (id d : nat) (o : Object) (b : MeshData) (s0 : Host)
    (mods : list Modifier) (p : Z) (cs : list Call) : Host :=
  upd_obj id (fun _ => with_modifiers mods o)
    (upd_mesh d (fun _ => with_polygons p b) (add_calls cs s0)).

(** [len(o.data.polygons)] in the scene [s], as a plain function. *)
Definition mesh_polygons (s : Host) (o : Object) : Z :=
  match ob_data o with
  | Some d => match find_mesh d s with
              | Some b => me_polygons b
              | None => 0%Z
              end
  | None => 0%Z
  end.

(** A mesh object once the optimize phase has dealt with it. *)
Definition optimized (o : Object) : Object :=
  with_modifiers (kept_modifiers (ob_modifiers o)) o.

(** A mesh object the optimize phase can work on: its stack is well formed
    and its data block is in the mesh collection. *)
Definition mesh_ready (s : Host) (o : Object) : Prop :=
  stack_ok (ob_modifiers o) /\ decimate_free (ob_modifiers o) /\
  exists d b, ob_data o = Some d /\ find_mesh d s = Some b.

(** Every track of every object of the scene is muted. *)
Definition all_muted (objs : list Object) : Prop :=
  forall o ad t,
    In o objs -> ob_anim o = Some ad -> In t (ad_tracks ad) -> tr_mute t = true.

(** A node of a file whose modifier stack the optimize phase can work on. *)
Definition node_ok (n : FbxNode) : Prop :=
  stack_ok (fn_modifiers n) /\ decimate_free (fn_modifiers n).

(** The scene between two animation entries, for the target [tgt]: the
    objects are distinct, the meshes below the target are ready for the
    optimize phase and keep the data block they were imported with, which
    has no user but them, and every track is muted. *)
Definition child_ok (s : Host) (o : Object) : Prop :=
  mesh_ready s o /\ ob_data o = Some (ob_id o + 1) /\
  forall b, find_mesh (ob_id o + 1) s = Some b -> me_other_users b = 0.

Definition scene_ok (tgt : nat) (s : Host) : Prop :=
  NoDup (map ob_id (objects s)) /\
  (forall o, In o (objects s) -> is_child_mesh tgt o = true -> child_ok s o) /\
  all_muted (objects s).

Section Report.

Variable fbx : string -> option (list FbxNode).
Variable script_dir : string.

(** What one entry of [ANIMATIONS] prints. *)
Definition entry_lines (entry : string * string) : list string :=
  let (filename, action_name) := entry in
  let fbx_path := path_join script_dir (filename +s ".fbx") in
  match fbx fbx_path with
  | None => ["Skipping (not found): " +s filename]
  | Some nodes =>
      ("Importing animation: " +s filename) ::
      match find (fun n => fn_type n ==s "ARMATURE") nodes with
      | None => ["Warning: No armature found in " +s fbx_path]
      | Some n =>
          match fn_anim n with
          | Bound _ _ => ["Added animation: " +s action_name]
          | _ => []
          end
      end
  end.

(** The operator calls of one entry. *)
Definition entry_calls (entry : string * string) : list Call :=
  let fbx_path := path_join script_dir (fst entry +s ".fbx") in
  match fbx fbx_path with
  | None => []
  | Some _ => [CallImportFbx fbx_path]
  end.

(** The action an entry duplicates: the name and the frames of the action
    bound to the first armature of its file; [None] when the file is not
    there, has no armature, or its first armature has no action. *)
Definition bound_action (entry : string * string) : option (string * nat) :=
  match fbx (path_join script_dir (fst entry +s ".fbx")) with
  | None => None
  | Some nodes =>
      match find (fun n => fn_type n ==s "ARMATURE") nodes with
      | Some n =>
          match fn_anim n with
          | Bound name frames => Some (name, frames)
          | _ => None
          end
      | None => None
      end
  end.

(** The entries that end in a new track. *)
Definition attaches (entry : string * string) : bool :=
  match bound_action entry with Some _ => true | None => false end.

Definition attached (entries : list (string * string)) : list (string * string) :=
  filter attaches entries.

(** A track as the script creates it for an entry: named after the entry,
    muted, with one strip at frame 0, also named after the entry.  The
    action of the strip is a block [copy] of the action collection that
    carries the name of the entry and the frames of the action [orig] that
    came bound in the file, which is still in the collection under its own
    name. *)
Definition is_attached_track (actions : list Action) (entry : string * string)
    (t : NlaTrack) : Prop :=
  exists copy orig name frames,
    bound_action entry = Some (name, frames) /\
    (exists users, In (mkAction orig name frames users) actions) /\
    In (mkAction copy (snd entry) frames 0) actions /\
    orig <> copy /\
    t = mkTrack (snd entry) true [mkStrip (snd entry) 0%Z copy].

End Report.

(** ** Two runs side by side *)

(** The part of the host the script works on: everything but the active
    object, the printed lines, the calls and the files. *)
Definition scene_of (s : Host)
    : list Object * list nat * list MeshData * list ArmatureData * list Action :=
  (objects s, selected s, meshes s, armatures s, actions s).

Definition same_scene (s z : Host) : Prop := scene_of s = scene_of z.

Definition same_context (s z : Host) : Prop :=
  scene_of s = scene_of z /\ active s = active z.

(** Two results agree: both are normal with the same value, or both are
    the same exception, and the final hosts are related. *)
Definition agree {A} (rel : Host -> Host -> Prop) (r1 r2 : Res A) : Prop :=
  match r1, r2 with
  | Ok a s, Ok b z => a = b /\ rel s z
  | Raise e s, Raise e' z => e = e' /\ rel s z
  | _, _ => False
  end.

(** A computation that takes related hosts to results that agree. *)
Definition respects {A} (rel : Host -> Host -> Prop) (m : Py A) : Prop :=
  forall s z, rel s z -> agree rel (m s) (m z).

(** The file of the given path among the files written. *)
Definition exported (path : string) (s : Host) : option Asset :=
  option_map snd (find (fun p => fst p ==s path) (written s)).

(** ** The blocks a run leaves to the next one *)

(** The blocks of a collection that a user outside the scene keeps: a fake
    user, a reference from another data block. *)
Definition held_meshes (l : list MeshData) : list MeshData :=
  filter (fun b => negb (me_other_users b =? 0)) l.

Definition held_armatures (l : list ArmatureData) : list ArmatureData :=
  filter (fun b => negb (ar_other_users b =? 0)) l.

Definition held_actions (l : list Action) : list Action :=
  filter (fun b => negb (ac_other_users b =? 0)) l.

(** [s'] comes from [s] by steps that neither remove nor change a mesh or
    an armature block kept by a user outside the scene, and that leave the
    actions as they are and put the actions [new] after them. *)
Definition grows_by (new : list Action) (s s' : Host) : Prop :=
  held_meshes (meshes s') = held_meshes (meshes s) /\
  held_armatures (armatures s') = held_armatures (armatures s) /\
  actions s' = actions s ++ new.

(** The actions the importer creates for a file: one for every node that
    has an action bound. *)
Definition is_bound (n : FbxNode) : bool :=
  match fn_anim n with Bound _ _ => true | _ => false end.

Definition bound_actions (nodes : list FbxNode) : nat :=
  List.length (filter is_bound nodes).


(** ** What the animation files leave in the scene *)

Section Leaks.

Variable fbx : string -> option (list FbxNode).
Variable script_dir : string.

(** The nodes whose objects an entry of [ANIMATIONS] leaves in the scene:
    all the nodes of its file when the file is there and holds no
    armature, none otherwise. *)
Definition leaked (entry : string * string) : list FbxNode :=
  match fbx (path_join script_dir (fst entry +s ".fbx")) with
  | None => []
  | Some nodes =>
      match find (fun n => fn_type n ==s "ARMATURE") nodes with
      | None => nodes
      | Some _ => []
      end
  end.

(** The actions the importer creates for an entry of [ANIMATIONS]: those
    of its file, when the file is there. *)
Definition entry_imports (entry : string * string) : nat :=
  match fbx (path_join script_dir (fst entry +s ".fbx")) with
  | None => 0
  | Some nodes => bound_actions nodes
  end.

(** The actions the importer creates in a whole run, for a character
    file that holds [nodes]. *)
Definition run_imports (nodes : list FbxNode) : nat :=
  bound_actions nodes + list_sum (map entry_imports ANIMATIONS).

End Leaks.

(** ** What a computation leaves alone *)

(** A computation that writes no file and does not call [sys.exit],
    however it ends. *)
Definition quiet {A} (m : Py A) : Prop :=
  forall s,
    written (final (m s)) = written s /\
    forall c s', m s <> Raise (SystemExit c) s'.

(** A computation that leaves the objects of the scene where they are in
    the collection, each with its type, however it ends. *)
Definition keeps_types {A} (m : Py A) : Prop :=
  forall s, map ob_type (objects (final (m s))) = map ob_type (objects s).

(** A computation that writes nothing unless it runs to its end, and then
    has replaced the file of the given path by an export of the scene it
    ends in; when it stops on an exception, that is not [sys.exit]. *)
Definition exports_last (path : string) {A} (m : Py A) : Prop :=
  forall s,
    match m s with
    | Ok _ s' =>
        written s'
        = (path, mkAsset gltf_settings (objects s') (meshes s') (armatures s')
                         (actions s'))
          :: filter (fun p => negb (fst p ==s path)) (written s)
    | Raise e s' => written s' = written s /\ forall c, e <> SystemExit c
    end.

(** ** A small disk *)

Module Sample.

Definition dir : string := "/models".

(** A character: an armature without animation data and a mesh below it
    with an armature modifier and a subdivision modifier. *)
Definition armature : FbxNode :=
  mkNode "Armature" "ARMATURE" None 0%Z [] NoAnimData.

Definition character : list FbxNode :=
  [ armature;
    mkNode "Body" "MESH" (Some 0) 4000%Z
      [ mkModifier "Armature" "ARMATURE" 1%Q;
        mkModifier "Subdivision" "SUBSURF" 1%Q ] NoAnimData ].

(** An animation file as it should be: an armature with an action, and the
    mesh that came with it. *)
Definition swimming : FbxNode :=
  mkNode "Armature" "ARMATURE" None 0%Z [] (Bound "mixamo.com" 30).

Definition freestyle : list FbxNode :=
  [ swimming;
    mkNode "Body" "MESH" (Some 0) 4000%Z
      [ mkModifier "Armature" "ARMATURE" 1%Q ] NoAnimData ].

(** An animation file whose armature has animation data but no action. *)
Definition still : FbxNode :=
  mkNode "Armature" "ARMATURE" None 0%Z [] NoAction.

Definition dive : list FbxNode := [ still ].

(** An animation file without an armature. *)
Definition flip : list FbxNode :=
  [ mkNode "Cube" "MESH" None 6%Z [] NoAnimData ].

Definition disk (path : string) : option (list FbxNode) :=
  if path ==s "/models/character.fbx" then Some character
  else if path ==s "/models/swim_freestyle.fbx" then Some freestyle
  else if path ==s "/models/swim_dive.fbx" then Some dive
  else if path ==s "/models/swim_turn_flip.fbx" then Some flip
  else None.

(** A disk without files, and a disk whose character file has no
    armature. *)
Definition no_disk (path : string) : option (list FbxNode) := None.

Definition cube_disk (path : string) : option (list FbxNode) :=
  if path ==s "/models/character.fbx" then Some flip else None.

(** A host that quadruples the polygons on a subdivision and halves them
    on a decimation. *)
Definition apply_polygons (m : Modifier) (n : Z) : Z :=
  if md_type m ==s "DECIMATE" then (n / 2)%Z else (n * 4)%Z.

(** A session that has just started, and a session that holds an action
    kept alive by a user of its own. *)
Definition empty : Host := mkHost [] [] None [] [] [] [] [] [].

Definition leftover : Host :=
  mkHost [] [] None [] [] [mkAction 1 "Idle" 12 1] [] [] [].

(** The scene once the character is in: the armature is object 1, the mesh
    object 4 with data block 5. *)
Definition loaded : Host :=
  Eval vm_compute in final (import_fbx disk "/models/character.fbx" empty).

Definition target : Object :=
  mkObject 1 "Armature" "ARMATURE" None (Some 2) None [].

(** The scene once the freestyle file has given its track to the
    armature, the armature as it is then, and its animation data. *)
Definition swum : Host :=
  Eval vm_compute in
    final (extract_animation disk "/models/swim_freestyle.fbx" "Swimming" 1
             loaded).

Definition swimmer : Object :=
  Eval vm_compute in
    match get_obj 1 swum with Some o => o | None => target end.

Definition swimmer_anim : AnimData :=
  Eval vm_compute in anim_or_empty swimmer.






End Sample.

(** * Properties *)

Unset Implicit Arguments.

#[local] Arguments Nat.mul : simpl never.
#[local] Arguments Nat.add : simpl never.
#[local] Arguments String.append : simpl never.

(** ** Lists *)

Lemma map_fst_indexed {A} (l : list A) : map fst (indexed l) = seq 0 (List.length l).
Proof.
  unfold indexed. generalize 0.
  induction l as [|x l IH]; intros k; simpl; [reflexivity|].
  now rewrite IH.
Qed.

Lemma map_snd_indexed {A} (l : list A) : map snd (indexed l) = l.
Proof.
  unfold indexed. generalize 0.
  induction l as [|x l IH]; intros k; simpl; [reflexivity|].
  now rewrite IH.
Qed.

Lemma find_app_none {A} (p : A -> bool) (l1 l2 : list A) :
  find p l1 = None -> find p (l1 ++ l2) = find p l2.
Proof.
  induction l1 as [|x l1 IH]; simpl; [reflexivity|].
  destruct (p x); [discriminate|exact IH].
Qed.

Lemma find_app_some {A} (p : A -> bool) (l1 l2 : list A) x :
  find p l1 = Some x -> find p (l1 ++ l2) = Some x.
Proof.
  induction l1 as [|y l1 IH]; simpl; [discriminate|].
  destruct (p y); [trivial|exact IH].
Qed.

Lemma find_none_iff {A} (p : A -> bool) (l : list A) :
  (forall x, In x l -> p x = false) -> find p l = None.
Proof.
  induction l as [|x l IH]; simpl; intros H; [reflexivity|].
  rewrite (H x (or_introl eq_refl)). apply IH. intros y Hy. apply H. now right.
Qed.

Lemma list_max_bound (l : list nat) x : In x l -> x < S (list_max l).
Proof.
  intros H.
  assert (Hle : list_max l <= list_max l) by lia.
  rewrite list_max_le, Forall_forall in Hle.
  specialize (Hle x H). lia.
Qed.

(** ** Identifiers *)

Lemma fresh_object s o : In o (objects s) -> ob_id o < fresh s.
Proof.
  intros H. apply list_max_bound. unfold all_ids.
  apply in_or_app. left. apply in_flat_map. exists o. split; [exact H|].
  now left.
Qed.

Lemma fresh_parent s o p :
  In o (objects s) -> ob_parent o = Some p -> p < fresh s.
Proof.
  intros H Hp. apply list_max_bound. unfold all_ids.
  apply in_or_app. left. apply in_flat_map. exists o. split; [exact H|].
  unfold object_ids. rewrite Hp. simpl. right. now left.
Qed.

Lemma fresh_action s a : In a (actions s) -> ac_id a < fresh s.
Proof.
  intros H. apply list_max_bound. unfold all_ids.
  apply in_or_app. right. apply in_or_app. right. apply in_or_app. right.
  now apply in_map.
Qed.

Lemma fresh_mesh s b : In b (meshes s) -> me_id b < fresh s.
Proof.
  intros H. apply list_max_bound. unfold all_ids.
  apply in_or_app. right. apply in_or_app. left. now apply in_map.
Qed.

Lemma get_obj_in s id o : get_obj id s = Some o -> In o (objects s) /\ ob_id o = id.
Proof.
  unfold get_obj. intros H. apply find_some in H. destruct H as [H1 H2].
  split; [exact H1|]. now apply Nat.eqb_eq.
Qed.

Lemma get_obj_fresh s id o : get_obj id s = Some o -> id < fresh s.
Proof.
  intros H. apply get_obj_in in H. destruct H as [H <-]. now apply fresh_object.
Qed.

(** ** Removing objects *)

Lemma clear_parent_id id o : ob_id (clear_parent id o) = ob_id o.
Proof.
  unfold clear_parent. destruct (ob_parent o) as [p|]; [|reflexivity].
  destruct (p =? id); reflexivity.
Qed.

Lemma remove_all_frame ids s :
  meshes (remove_all ids s) = meshes s /\
  armatures (remove_all ids s) = armatures s /\
  actions (remove_all ids s) = actions s /\
  stdout (remove_all ids s) = stdout s /\
  calls (remove_all ids s) = calls s /\
  written (remove_all ids s) = written s.
Proof.
  revert s. induction ids as [|i ids IH]; intros s; simpl.
  - repeat split.
  - destruct (IH (remove_obj i s)) as (H1 & H2 & H3 & H4 & H5 & H6).
    unfold remove_all in *. simpl.
    rewrite H1, H2, H3, H4, H5, H6. repeat split.
Qed.

Lemma remove_all_objects ids s o :
  In o (objects (remove_all ids s)) ->
  ~ In (ob_id o) ids /\ In (ob_id o) (map ob_id (objects s)).
Proof.
  revert s. induction ids as [|i ids IH]; intros s; simpl.
  - intros H. split; [tauto|]. now apply in_map.
  - intros H. apply IH in H. destruct H as [H1 H2].
    simpl in H2. rewrite map_map in H2. apply in_map_iff in H2.
    destruct H2 as (o' & E & Hin). rewrite clear_parent_id in E.
    apply filter_In in Hin. destruct Hin as [Hin Hne].
    apply negb_true_iff, Nat.eqb_neq in Hne.
    split.
    + intros [->|Hi]; [congruence|tauto].
    + rewrite <- E. now apply in_map.
Qed.

Lemma remove_all_selected ids s i :
  In i (selected (remove_all ids s)) -> ~ In i ids /\ In i (selected s).
Proof.
  revert s. induction ids as [|j ids IH]; intros s; simpl.
  - tauto.
  - intros H. apply IH in H. destruct H as [H1 H2]. simpl in H2.
    apply filter_In in H2. destruct H2 as [H2 Hne].
    apply negb_true_iff, Nat.eqb_neq in Hne.
    split; [|exact H2]. intros [->|Hi]; [congruence|tauto].
Qed.

Lemma nil_of_no_member {A} (l : list A) : (forall x, ~ In x l) -> l = [].
Proof.
  destruct l as [|x l]; [reflexivity|]. intros H. destruct (H x). now left.
Qed.

(** ** The reset phase *)

(** In the session modelled [clear_scene] returns; it leaves no object and
    no selection, keeps exactly the blocks that have a user once the
    objects are gone, prints nothing and writes nothing. *)
Lemma clear_scene_spec s :
  exists s',
    clear_scene s = Ok tt s' /\
    objects s' = [] /\
    selected s' = [] /\
    stdout s' = stdout s /\
    calls s' = calls s ++ [CallSelectAll "SELECT"; CallDelete false] /\
    written s' = written s /\
    meshes s' = filter (fun b => negb (me_other_users b =? 0)) (meshes s) /\
    armatures s' = filter (fun b => negb (ar_other_users b =? 0)) (armatures s) /\
    actions s' = filter (fun b => negb (ac_other_users b =? 0)) (actions s).
Proof.
  unfold clear_scene, select_all, object_delete, remove_orphan_meshes,
    remove_orphan_armatures, remove_orphan_actions, bind, modify.
  cbn [String.eqb Ascii.eqb Bool.eqb].
  eexists. split; [reflexivity|].
  set (s1 := add_call (CallDelete false) _).
  assert (Hobj : objects (remove_all (selected s1) s1) = []).
  { apply nil_of_no_member. intros o Ho.
    apply remove_all_objects in Ho. destruct Ho as [H1 H2].
    apply H1. exact H2. }
  assert (Hsel : selected (remove_all (selected s1) s1) = []).
  { apply nil_of_no_member. intros i Hi.
    apply remove_all_selected in Hi. tauto. }
  destruct (remove_all_frame (selected s1) s1) as (H1 & H2 & H3 & H4 & H5 & H6).
  unfold mesh_users, armature_users, action_users, refs_data, refs_action.
  cbn [objects selected stdout calls written meshes armatures actions
       set_meshes set_armatures set_actions].
  rewrite Hobj, Hsel, H1, H2, H3, H4, H5, H6.
  subst s1. cbn. rewrite <- app_assoc.
  repeat split.
Qed.

(** ** Importing a file *)

Lemma indexed_NoDup {A} (l : list A) : NoDup (map fst (indexed l)).
Proof. rewrite map_fst_indexed. apply seq_NoDup. Qed.

Lemma find_indexed {A} (q : A -> bool) (l : list A) :
  option_map snd (find (fun p => q (snd p)) (indexed l)) = find q l.
Proof.
  unfold indexed. generalize 0.
  induction l as [|x l IH]; intros k; simpl; [reflexivity|].
  destruct (q x); [reflexivity|apply IH].
Qed.

Lemma node_object_id base p : ob_id (node_object base p) = base + 3 * fst p.
Proof. destruct p; reflexivity. Qed.

Lemma node_object_type base p : ob_type (node_object base p) = fn_type (snd p).
Proof. destruct p; reflexivity. Qed.

Lemma find_node_object base (l : list (nat * FbxNode)) p :
  NoDup (map fst l) -> In p l ->
  find (fun o => ob_id o =? base + 3 * fst p) (map (node_object base) l)
  = Some (node_object base p).
Proof.
  induction l as [|a l IH]; simpl; intros Hnd Hin; [contradiction|].
  inversion Hnd as [|? ? Hnotin Hnd']; subst.
  rewrite node_object_id.
  destruct Hin as [->|Hin].
  - now rewrite Nat.eqb_refl.
  - destruct (Nat.eqb_spec (base + 3 * fst a) (base + 3 * fst p)) as [E|_].
    + exfalso. apply Hnotin. replace (fst a) with (fst p) by lia.
      now apply in_map.
    + now apply IH.
Qed.

Lemma find_node_action base (l : list (nat * FbxNode)) i n name frames :
  NoDup (map fst l) -> In (i, n) l -> fn_anim n = Bound name frames ->
  find (fun b => ac_id b =? base + 3 * i + 2) (flat_map (node_actions base) l)
  = Some (mkAction (base + 3 * i + 2) name frames 1).
Proof.
  induction l as [|[j m] l IH]; simpl; intros Hnd Hin Ha; [contradiction|].
  inversion Hnd as [|? ? Hnotin Hnd']; subst.
  destruct Hin as [E|Hin].
  - inversion E; subst. rewrite Ha. simpl. now rewrite Nat.eqb_refl.
  - assert (Hne : j <> i).
    { intros ->. apply Hnotin. change i with (fst (i, n)). now apply in_map. }
    destruct (fn_anim m); simpl; try now apply IH.
    destruct (Nat.eqb_spec (base + 3 * j + 2) (base + 3 * i + 2)) as [E|_];
      [lia|now apply IH].
Qed.

Lemma get_obj_loaded nodes s p :
  In p (indexed nodes) ->
  get_obj (fresh s + 3 * fst p) (load_nodes nodes s)
  = Some (node_object (fresh s) p).
Proof.
  intros Hin. unfold get_obj, load_nodes. cbn [objects].
  rewrite find_app_none.
  - apply find_node_object; [apply indexed_NoDup|exact Hin].
  - apply find_none_iff. intros o Ho. apply fresh_object in Ho.
    apply Nat.eqb_neq. lia.
Qed.

Lemma get_obj_load_old nodes s id o :
  get_obj id s = Some o -> get_obj id (load_nodes nodes s) = Some o.
Proof.
  intros H. unfold get_obj, load_nodes. cbn [objects].
  now apply find_app_some.
Qed.

Lemma selected_objects_loaded nodes s :
  selected_objects (load_nodes nodes s)
  = map (node_object (fresh s)) (indexed nodes).
Proof.
  unfold selected_objects.
  change (selected (load_nodes nodes s))
    with (map (fun p => fresh s + 3 * fst p) (indexed nodes)).
  assert (H : forall l, incl l (indexed nodes) ->
    flat_map (fun i => match get_obj i (load_nodes nodes s) with
                       | Some o => [o] | None => [] end)
             (map (fun p => fresh s + 3 * fst p) l)
    = map (node_object (fresh s)) l).
  { induction l as [|p l IH]; simpl; intros Hl; [reflexivity|].
    rewrite get_obj_loaded by (apply Hl; now left).
    simpl. f_equal. apply IH. intros x Hx. apply Hl. now right. }
  apply H, incl_refl.
Qed.

Lemma find_type_loaded base t (l : list (nat * FbxNode)) :
  find (is_type t) (map (node_object base) l)
  = option_map (node_object base) (find (fun p => fn_type (snd p) ==s t) l).
Proof.
  induction l as [|p l IH]; simpl; [reflexivity|].
  unfold is_type at 1. rewrite node_object_type.
  destruct (fn_type (snd p) ==s t); [reflexivity|exact IH].
Qed.

(** The first node of a file with the given type. *)
Lemma first_of_type t nodes n :
  find (fun m => fn_type m ==s t) nodes = Some n ->
  exists i, find (fun p => fn_type (snd p) ==s t) (indexed nodes) = Some (i, n)
            /\ In (i, n) (indexed nodes).
Proof.
  intros H.
  pose proof (find_indexed (fun m => fn_type m ==s t) nodes) as E.
  rewrite H in E.
  destruct (find (fun p => fn_type (snd p) ==s t) (indexed nodes))
    as [[i m]|] eqn:F; [|discriminate].
  simpl in E. inversion E; subst. exists i. split; [reflexivity|].
  now apply find_some in F.
Qed.

Lemma none_of_type t nodes :
  find (fun m => fn_type m ==s t) nodes = None ->
  find (fun p => fn_type (snd p) ==s t) (indexed nodes) = None.
Proof.
  intros H.
  pose proof (find_indexed (fun m => fn_type m ==s t) nodes) as E.
  rewrite H in E.
  now destruct (find (fun p => fn_type (snd p) ==s t) (indexed nodes)).
Qed.

(** ** The run *)

Section Run.

#[local] Set Default Proof Using "Type".

Variable fbx : string -> option (list FbxNode).
Variable apply_polygons : Modifier -> Z -> Z.
Variable script_dir : string.

Local Abbreviation run_main := (main fbx apply_polygons script_dir).
Local Abbreviation character_path := (path_join script_dir "character.fbx").

Ltac run := unfold bind, modify, gets, ret, raise, print, when, sys_exit.

(** [import_fbx] on a file that is there: the objects of the file are
    loaded and the result is the first armature among them. *)
Lemma import_fbx_spec path nodes s :
  fbx path = Some nodes ->
  let s1 := load_nodes nodes (add_call (CallImportFbx path) s) in
  import_fbx fbx path s
  = Ok (option_map (fun p => fresh s + 3 * fst p)
          (find (fun p => fn_type (snd p) ==s "ARMATURE") (indexed nodes))) s1.
Proof.
  intros Hf s1. unfold import_fbx, import_scene_fbx. run. rewrite Hf.
  fold s1. unfold s1 at 1. rewrite selected_objects_loaded, find_type_loaded.
  change (fresh (add_call (CallImportFbx path) s)) with (fresh s).
  destruct (find _ (indexed nodes)) as [p|]; simpl; [|reflexivity].
  now rewrite node_object_id.
Qed.

(** C1. If [character.fbx] is absent, or present without an object of type
    ['ARMATURE'], the run ends in [sys.exit(1)]: the exit status is 1, no
    file is written, and nothing of the later phases has happened: the
    only operator calls are those of the reset (and the import of the
    character file when it is there), and the only lines printed are the
    error report. *)
Theorem main_exits_without_character s :
  fbx character_path = None \/
  (exists nodes, fbx character_path = Some nodes /\
                 find (fun n => fn_type n ==s "ARMATURE") nodes = None) ->
  exit_status (run_main s) = Some 1%Z /\
  written (final (run_main s)) = written s /\
  stdout (final (run_main s))
  = stdout s ++
    match fbx character_path with
    | None => ["Error: Character file not found: " +s character_path;
               "Please download a character from Mixamo as 'character.fbx'"]
    | Some _ => ["Importing character: " +s character_path;
                 "Error: No armature found in character file"]
    end /\
  calls (final (run_main s))
  = calls s ++ [CallSelectAll "SELECT"; CallDelete false] ++
    match fbx character_path with
    | None => []
    | Some _ => [CallImportFbx character_path]
    end.
Proof.
  intros H.
  destruct (clear_scene_spec s)
    as (s1 & Hc & Hobj & Hsel & Hout & Hcalls & Hwr & _).
  destruct H as [Habs|(nodes & Hpres & Hnone)].
  - assert (E : run_main s = Raise (SystemExit 1%Z)
       (add_stdout "Please download a character from Mixamo as 'character.fbx'"
          (add_stdout ("Error: Character file not found: " +s character_path)
             s1))).
    { unfold main. unfold bind at 1. rewrite Hc.
      unfold bind at 1. unfold path_exists. rewrite Habs. reflexivity. }
    rewrite E, Habs. cbn [exit_status final written stdout calls add_stdout].
    rewrite Hwr, Hout, Hcalls, <- !app_assoc, app_nil_r. repeat split.
  - pose proof (import_fbx_spec _ _
                  (add_stdout ("Importing character: " +s character_path) s1)
                  Hpres) as Hi.
    cbv zeta in Hi. rewrite (none_of_type _ _ Hnone) in Hi.
    assert (E : run_main s = Raise (SystemExit 1%Z)
       (add_stdout "Error: No armature found in character file"
          (load_nodes nodes (add_call (CallImportFbx character_path)
             (add_stdout ("Importing character: " +s character_path) s1))))).
    { unfold main. unfold bind at 1. rewrite Hc.
      unfold bind at 1. unfold path_exists. rewrite Hpres.
      cbn [negb when ret]. unfold bind at 1. unfold print at 1.
      unfold modify at 1. unfold bind at 1. rewrite Hi. reflexivity. }
    rewrite E, Hpres.
    cbn [exit_status final written stdout calls add_stdout add_call load_nodes].
    rewrite Hwr, Hout, Hcalls, <- !app_assoc. repeat split.
Qed.

(** ** Updating an object *)

Lemma deref_ok id s o : get_obj id s = Some o -> deref id s = Ok o s.
Proof. unfold deref. now intros ->. Qed.

Lemma upd_first_none {A} (p : A -> bool) f (l : list A) :
  (forall x, In x l -> p x = false) -> upd_first p f l = l.
Proof.
  induction l as [|x l IH]; simpl; intros H; [reflexivity|].
  rewrite (H x (or_introl eq_refl)). f_equal. apply IH.
  intros y Hy. apply H. now right.
Qed.

Lemma upd_first_app_none {A} (p : A -> bool) f (l1 l2 : list A) :
  (forall x, In x l1 -> p x = false) ->
  upd_first p f (l1 ++ l2) = l1 ++ upd_first p f l2.
Proof.
  induction l1 as [|x l1 IH]; simpl; intros H; [reflexivity|].
  rewrite (H x (or_introl eq_refl)). f_equal. apply IH.
  intros y Hy. apply H. now right.
Qed.

Lemma upd_first_app_some {A} (p : A -> bool) f (l1 l2 : list A) x :
  find p l1 = Some x -> upd_first p f (l1 ++ l2) = upd_first p f l1 ++ l2.
Proof.
  induction l1 as [|y l1 IH]; simpl; [discriminate|].
  destruct (p y); [reflexivity|]. intros H. now rewrite IH.
Qed.

Lemma upd_first_find {A} (p : A -> bool) f (l : list A) x :
  (forall y, p (f y) = p y) ->
  find p l = Some x -> find p (upd_first p f l) = Some (f x).
Proof.
  intros Hf. induction l as [|y l IH]; simpl; [discriminate|].
  destruct (p y) eqn:E; simpl.
  - intros H. inversion H; subst. now rewrite Hf, E.
  - rewrite E. exact IH.
Qed.

Lemma upd_first_find_other {A} (p q : A -> bool) f (l : list A) :
  (forall y, q (f y) = q y) -> (forall y, p y = true -> q y = false) ->
  find q (upd_first p f l) = find q l.
Proof.
  intros Hf Hpq. induction l as [|y l IH]; simpl; [reflexivity|].
  destruct (p y) eqn:E; simpl.
  - now rewrite Hf, (Hpq y E).
  - destruct (q y); [reflexivity|exact IH].
Qed.

Lemma upd_first_twice {A} (p : A -> bool) f g (l : list A) :
  (forall y, p (g y) = p y) ->
  upd_first p f (upd_first p g l) = upd_first p (fun y => f (g y)) l.
Proof.
  intros Hg. induction l as [|y l IH]; simpl; [reflexivity|].
  destruct (p y) eqn:E; simpl.
  - now rewrite Hg, E.
  - now rewrite E, IH.
Qed.

Lemma upd_first_const {A} (p : A -> bool) f (l : list A) x :
  find p l = Some x -> upd_first p f l = upd_first p (fun _ => f x) l.
Proof.
  induction l as [|y l IH]; simpl; [discriminate|].
  destruct (p y).
  - intros H. now inversion H.
  - intros H. now rewrite IH.
Qed.

Lemma upd_first_same {A} (p : A -> bool) (l : list A) x :
  find p l = Some x -> upd_first p (fun _ => x) l = l.
Proof.
  induction l as [|y l IH]; simpl; [discriminate|].
  destruct (p y).
  - intros H. now inversion H.
  - intros H. now rewrite IH.
Qed.

Lemma map_upd_first {A B} (h : A -> B) (p : A -> bool) f (l : list A) :
  (forall y, h (f y) = h y) -> map h (upd_first p f l) = map h l.
Proof.
  intros Hf. induction l as [|y l IH]; simpl; [reflexivity|].
  destruct (p y); simpl; [now rewrite Hf|now rewrite IH].
Qed.

Lemma get_obj_upd_same id f s o :
  (forall x, ob_id (f x) = ob_id x) ->
  get_obj id s = Some o -> get_obj id (upd_obj id f s) = Some (f o).
Proof.
  intros Hf. unfold get_obj, upd_obj. cbn [objects set_objects].
  apply upd_first_find. intros y. now rewrite Hf.
Qed.

Lemma get_obj_upd_other id id' f s :
  (forall x, ob_id (f x) = ob_id x) -> id' <> id ->
  get_obj id' (upd_obj id f s) = get_obj id' s.
Proof.
  intros Hf Hne. unfold get_obj, upd_obj. cbn [objects set_objects].
  apply upd_first_find_other.
  - intros y. now rewrite Hf.
  - intros y Hy. apply Nat.eqb_eq in Hy. apply Nat.eqb_neq. congruence.
Qed.

Lemma upd_obj_twice id f g s :
  (forall x, ob_id (g x) = ob_id x) ->
  upd_obj id f (upd_obj id g s) = upd_obj id (fun o => f (g o)) s.
Proof.
  intros Hg. unfold upd_obj, set_objects. cbn [objects selected active meshes
    armatures actions stdout calls written]. f_equal.
  apply upd_first_twice. intros y. now rewrite Hg.
Qed.

Lemma upd_anim_twice id a1 a2 s :
  upd_obj id (with_anim a2) (upd_obj id (with_anim a1) s)
  = upd_obj id (with_anim a2) s.
Proof. now rewrite upd_obj_twice. Qed.

Lemma upd_nth_last {A} (f : A -> A) (l : list A) x :
  upd_nth (List.length l) f (l ++ [x]) = l ++ [f x].
Proof. induction l as [|y l IH]; simpl; [reflexivity|]. now rewrite IH. Qed.

Lemma nla_tracks_new_spec id s o ad :
  get_obj id s = Some o -> ob_anim o = Some ad ->
  nla_tracks_new id s
  = Ok (List.length (ad_tracks ad))
       (upd_obj id (with_anim (Some
          (mkAnimData (ad_action ad)
                      (ad_tracks ad ++ [mkTrack "NlaTrack" false []])))) s).
Proof.
  intros Hg Ha. unfold nla_tracks_new, bind. rewrite (deref_ok _ _ _ Hg), Ha.
  reflexivity.
Qed.

Lemma on_track_spec id k f s o ad :
  get_obj id s = Some o -> ob_anim o = Some ad ->
  k < List.length (ad_tracks ad) ->
  on_track id k f s
  = Ok tt (upd_obj id (with_anim (Some
             (mkAnimData (ad_action ad) (upd_nth k f (ad_tracks ad))))) s).
Proof.
  intros Hg Ha Hk. unfold on_track, bind. rewrite (deref_ok _ _ _ Hg), Ha.
  apply Nat.ltb_lt in Hk. rewrite Hk. reflexivity.
Qed.

(** Stacking a track on an object that has animation data: the four
    statements of lines 112-115. *)
Lemma stack_track {A} id name action (k : Py A) s o ad :
  get_obj id s = Some o -> ob_anim o = Some ad ->
  (track <- nla_tracks_new id ;;
   set_track_name id track name ;;
   strips_new id track name 0%Z action ;;
   set_track_mute id track true ;;
   k) s
  = k (upd_obj id (with_anim (Some
         (mkAnimData (ad_action ad)
                     (ad_tracks ad ++ [attached_track name action])))) s).
Proof.
  intros Hg Ha.
  assert (Hlen : forall x : NlaTrack,
            List.length (ad_tracks ad) < List.length (ad_tracks ad ++ [x])).
  { intros x. rewrite length_app. simpl. lia. }
  unfold bind at 1. rewrite (nla_tracks_new_spec _ _ _ _ Hg Ha).
  unfold bind at 1. unfold set_track_name.
  erewrite on_track_spec;
    [|apply get_obj_upd_same; [reflexivity|exact Hg]|reflexivity|apply Hlen].
  rewrite upd_anim_twice.
  unfold bind at 1. unfold strips_new.
  erewrite on_track_spec;
    [|apply get_obj_upd_same; [reflexivity|exact Hg]|reflexivity|].
  2:{ cbn [ad_tracks]. rewrite upd_nth_last. apply Hlen. }
  rewrite upd_anim_twice.
  unfold bind at 1. unfold set_track_mute.
  erewrite on_track_spec;
    [|apply get_obj_upd_same; [reflexivity|exact Hg]|reflexivity|].
  2:{ cbn [ad_tracks]. rewrite !upd_nth_last. apply Hlen. }
  rewrite upd_anim_twice.
  cbn [ad_tracks ad_action]. rewrite !upd_nth_last. reflexivity.
Qed.

Lemma rename_new_action s name nm fr :
  set_actions (upd_first (fun b => ac_id b =? fresh s) (fun b =>
      mkAction (ac_id b) name (ac_frames b) (ac_other_users b)))
    (set_actions (fun l => l ++ [mkAction (fresh s) nm fr 0]) s)
  = set_actions (fun l => l ++ [mkAction (fresh s) name fr 0]) s.
Proof.
  unfold set_actions. cbn [objects selected active meshes armatures actions
    stdout calls written]. f_equal.
  rewrite upd_first_app_none.
  - cbn [upd_first ac_id ac_frames ac_other_users].
    now rewrite Nat.eqb_refl.
  - intros b Hb. apply fresh_action in Hb. apply Nat.eqb_neq. lia.
Qed.

(** Lines 103-117: what [attach_action] does to the host. *)
Lemma attach_action_spec a name tgt s b t :
  find (fun b => ac_id b =? a) (actions s) = Some b ->
  get_obj tgt s = Some t ->
  attach_action a name tgt s
  = Ok tt (add_stdout ("Added animation: " +s name)
            (upd_obj tgt (with_anim (Some (attached_anim t name (fresh s))))
               (set_actions
                  (fun l => l ++ [mkAction (fresh s) name (ac_frames b) 0]) s))).
Proof.
  intros Hb Ht. unfold attach_action.
  unfold bind at 1. unfold action_copy. rewrite Hb.
  unfold bind at 1. unfold set_action_name, modify.
  rewrite rename_new_action.
  set (s2 := set_actions _ s).
  assert (Ht2 : get_obj tgt s2 = Some t) by exact Ht.
  unfold bind at 1. rewrite (deref_ok _ _ _ Ht2).
  unfold attached_anim, anim_or_empty.
  destruct (ob_anim t) as [ad|] eqn:Ha.
  - cbn [when]. unfold bind at 1, ret at 1.
    rewrite (stack_track _ _ _ _ _ _ _ Ht2 Ha). reflexivity.
  - cbn [when]. unfold bind at 1. unfold animation_data_create.
    unfold bind at 1. rewrite (deref_ok _ _ _ Ht2), Ha. unfold modify.
    cbv beta iota.
    erewrite stack_track;
      [|apply get_obj_upd_same; [reflexivity|exact Ht2]|reflexivity].
    rewrite upd_anim_twice. reflexivity.
Qed.

(** ** Removing what an import has brought *)

Lemma get_obj_present id s :
  In id (map ob_id (objects s)) -> exists o, get_obj id s = Some o.
Proof.
  unfold get_obj. intros H. apply in_map_iff in H. destruct H as (o & E & Ho).
  destruct (find (fun x => ob_id x =? id) (objects s)) as [x|] eqn:F.
  - now exists x.
  - apply find_none with (x := o) in F; [|exact Ho].
    apply Nat.eqb_neq in F. contradiction.
Qed.

Lemma remove_obj_ids id s :
  map ob_id (objects (remove_obj id s))
  = filter (fun i => negb (i =? id)) (map ob_id (objects s)).
Proof.
  unfold remove_obj. cbn [objects set_active set_selected set_objects].
  induction (objects s) as [|o l IH]; simpl; [reflexivity|].
  destruct (ob_id o =? id); simpl; [exact IH|].
  now rewrite clear_parent_id, IH.
Qed.

Lemma remove_loop (l : list Object) s :
  NoDup (map ob_id l) -> incl (map ob_id l) (map ob_id (objects s)) ->
  for_each l (fun obj => objects_remove (ob_id obj)) s
  = Ok tt (remove_all (map ob_id l) s).
Proof.
  revert s. induction l as [|o l IH]; intros s Hnd Hin; [reflexivity|].
  simpl in Hnd. inversion Hnd as [|? ? Hnotin Hnd']; subst.
  destruct (get_obj_present (ob_id o) s) as [x Hx].
  { apply Hin. now left. }
  cbn [for_each]. unfold bind at 1. unfold objects_remove at 1.
  unfold bind at 1. rewrite (deref_ok _ _ _ Hx). unfold modify.
  rewrite IH; [reflexivity|exact Hnd'|].
  intros i Hi. rewrite remove_obj_ids. apply filter_In. split.
  - apply Hin. now right.
  - apply negb_true_iff, Nat.eqb_neq. intros ->. contradiction.
Qed.

Lemma clear_parent_other id o :
  (forall p, ob_parent o = Some p -> p <> id) -> clear_parent id o = o.
Proof.
  unfold clear_parent. intros H. destruct (ob_parent o) as [p|]; [|reflexivity].
  specialize (H p eq_refl). apply Nat.eqb_neq in H. now rewrite H.
Qed.

(** Removing the objects [ids] from a scene made of [old] objects, which
    neither are nor hang below one of [ids], and of objects that all are
    among [ids], leaves [old]. *)
Lemma remove_all_split ids : forall s old new,
  objects s = old ++ new ->
  (forall o, In o old ->
     ~ In (ob_id o) ids /\ forall p, ob_parent o = Some p -> ~ In p ids) ->
  (forall o, In o new -> In (ob_id o) ids) ->
  objects (remove_all ids s) = old.
Proof.
  induction ids as [|i ids IH]; intros s old new Hs Hold Hnew.
  - simpl. rewrite Hs. rewrite (nil_of_no_member new); [apply app_nil_r|].
    intros o Ho. exact (Hnew o Ho).
  - cbn [remove_all fold_left].
    apply (IH (remove_obj i s) old
             (map (clear_parent i) (filter (fun o => negb (ob_id o =? i)) new))).
    + unfold remove_obj. cbn [objects set_active set_selected set_objects].
      rewrite Hs, filter_app, map_app. f_equal.
      rewrite <- (map_id old) at 2.
      transitivity (map (clear_parent i) old).
      * f_equal. apply forallb_filter_id. apply forallb_forall. intros o Ho.
        apply negb_true_iff, Nat.eqb_neq. intros E.
        destruct (Hold o Ho) as [H _]. apply H. now left.
      * apply map_ext_in. intros o Ho. apply clear_parent_other.
        intros p Hp ->. destruct (Hold o Ho) as [_ H]. apply (H i Hp). now left.
    + intros o Ho. destruct (Hold o Ho) as [H1 H2]. split.
      * intros H. apply H1. now right.
      * intros p Hp H. apply (H2 p Hp). now right.
    + intros o Ho. apply in_map_iff in Ho. destruct Ho as (x & <- & Hx).
      apply filter_In in Hx. destruct Hx as [Hx Hne].
      apply negb_true_iff, Nat.eqb_neq in Hne. rewrite clear_parent_id.
      destruct (Hnew x Hx) as [E|H]; [congruence|exact H].
Qed.

Lemma remove_all_selected_nil s :
  selected (remove_all (selected s) s) = [].
Proof.
  apply nil_of_no_member. intros i Hi. apply remove_all_selected in Hi.
  destruct Hi as [H1 H2]. exact (H1 H2).
Qed.

Lemma loaded_ids_objects base idx :
  map ob_id (map (node_object base) idx) = loaded_ids base idx.
Proof.
  unfold loaded_ids. rewrite map_map. apply map_ext. intros p.
  apply node_object_id.
Qed.

Lemma loaded_ids_NoDup base idx :
  NoDup (map fst idx) -> NoDup (loaded_ids base idx).
Proof.
  unfold loaded_ids. induction idx as [|p idx IH]; simpl; intros H.
  - constructor.
  - inversion H as [|? ? Hnotin Hnd]; subst. constructor; [|now apply IH].
    intros Hin. apply in_map_iff in Hin. destruct Hin as (q & E & Hq).
    apply Hnotin. replace (fst p) with (fst q) by lia. now apply in_map.
Qed.

Lemma loaded_ids_ge base idx i : In i (loaded_ids base idx) -> base <= i.
Proof.
  unfold loaded_ids. intros H. apply in_map_iff in H.
  destruct H as (p & <- & _). lia.
Qed.

(** In a scene made of older objects and of the objects of an import, all
    selected, the selected objects are the imported ones, and removing them
    one by one leaves the older objects. *)
Lemma imported_selected base idx s old :
  NoDup (map fst idx) ->
  objects s = old ++ map (node_object base) idx ->
  selected s = loaded_ids base idx ->
  (forall o, In o old -> ob_id o < base) ->
  selected_objects s = map (node_object base) idx.
Proof.
  intros Hnd Hobj Hsel Hold. unfold selected_objects. rewrite Hsel.
  assert (H : forall l, incl l idx ->
    flat_map (fun i => match get_obj i s with Some o => [o] | None => [] end)
             (loaded_ids base l)
    = map (node_object base) l).
  { induction l as [|p l IH]; simpl; intros Hl; [reflexivity|].
    assert (Hp : get_obj (base + 3 * fst p) s = Some (node_object base p)).
    { unfold get_obj. rewrite Hobj, find_app_none.
      - apply find_node_object; [exact Hnd|apply Hl; now left].
      - apply find_none_iff. intros o Ho. apply Hold in Ho.
        apply Nat.eqb_neq. lia. }
    rewrite Hp. simpl. f_equal. apply IH. intros x Hx. apply Hl. now right. }
  apply H, incl_refl.
Qed.

Lemma remove_imported base idx s old :
  NoDup (map fst idx) ->
  objects s = old ++ map (node_object base) idx ->
  selected s = loaded_ids base idx ->
  (forall o, In o old ->
     ob_id o < base /\ forall p, ob_parent o = Some p -> p < base) ->
  exists s',
    (sel <- gets selected_objects ;;
     for_each sel (fun obj => objects_remove (ob_id obj))) s = Ok tt s' /\
    objects s' = old /\ selected s' = [] /\
    meshes s' = meshes s /\ armatures s' = armatures s /\
    actions s' = actions s /\ stdout s' = stdout s /\
    calls s' = calls s /\ written s' = written s.
Proof.
  intros Hnd Hobj Hsel Hold.
  exists (remove_all (loaded_ids base idx) s).
  destruct (remove_all_frame (loaded_ids base idx) s)
    as (H1 & H2 & H3 & H4 & H5 & H6).
  split; [|split; [|split; [|repeat split; assumption]]].
  - unfold bind, gets.
    rewrite (imported_selected base idx s old Hnd Hobj Hsel)
      by (intros o Ho; now apply Hold).
    rewrite remove_loop, loaded_ids_objects; [reflexivity| |].
    + rewrite loaded_ids_objects. now apply loaded_ids_NoDup.
    + rewrite Hobj, map_app. apply incl_appr, incl_refl.
  - apply (remove_all_split _ s old (map (node_object base) idx) Hobj).
    + intros o Ho. destruct (Hold o Ho) as [Hid Hpar]. split.
      * intros H. apply loaded_ids_ge in H. lia.
      * intros p Hp H. apply loaded_ids_ge in H. specialize (Hpar p Hp). lia.
    + intros o Ho. rewrite <- loaded_ids_objects. now apply in_map.
  - rewrite <- Hsel. apply remove_all_selected_nil.
Qed.

(** ** One animation file *)

Lemma upd_obj_loaded tgt f base idx old x :
  find (fun o => ob_id o =? tgt) old = Some x ->
  upd_first (fun o => ob_id o =? tgt) f (old ++ map (node_object base) idx)
  = upd_first (fun o => ob_id o =? tgt) f old ++ map (node_object base) idx.
Proof. apply upd_first_app_some. Qed.

Lemma old_objects_below s old :
  map ob_id old = map ob_id (objects s) ->
  map ob_parent old = map ob_parent (objects s) ->
  forall o, In o old ->
    ob_id o < fresh s /\ forall p, ob_parent o = Some p -> p < fresh s.
Proof.
  intros Hi Hp o Ho. split.
  - assert (H : In (ob_id o) (map ob_id (objects s))).
    { rewrite <- Hi. now apply in_map. }
    apply in_map_iff in H. destruct H as (x & E & Hx).
    rewrite <- E. now apply fresh_object.
  - intros p E.
    assert (H : In (ob_parent o) (map ob_parent (objects s))).
    { rewrite <- Hp. now apply in_map. }
    apply in_map_iff in H. destruct H as (x & E' & Hx).
    apply (fresh_parent s x p Hx). congruence.
Qed.

Lemma upd_anim_ids tgt a l :
  map ob_id (upd_first (fun o => ob_id o =? tgt) (with_anim a) l) = map ob_id l.
Proof. now apply map_upd_first. Qed.

Lemma upd_anim_parents tgt a l :
  map ob_parent (upd_first (fun o => ob_id o =? tgt) (with_anim a) l)
  = map ob_parent l.
Proof. now apply map_upd_first. Qed.

(** What [extract_animation] does to the host, for a file that is there and
    a target that is in the scene, in each of its three branches: no
    armature in the file; an armature with an action; an armature
    without. *)
Lemma extract_animation_spec path name tgt s nodes t :
  fbx path = Some nodes ->
  get_obj tgt s = Some t ->
  let base := fresh s in
  let idx := indexed nodes in
  exists s',
    extract_animation fbx path name tgt s = Ok tt s' /\
    calls s' = calls s ++ [CallImportFbx path] /\
    written s' = written s /\
    meshes s' = meshes s ++ flat_map (node_meshes base) idx /\
    armatures s' = armatures s ++ flat_map (node_armatures base) idx /\
    match find (fun n => fn_type n ==s "ARMATURE") nodes with
    | None =>
        objects s' = objects s ++ map (node_object base) idx /\
        selected s' = loaded_ids base idx /\
        actions s' = actions s ++ flat_map (node_actions base) idx /\
        stdout s' = stdout s ++ ["Warning: No armature found in " +s path]
    | Some n =>
        selected s' = [] /\
        match fn_anim n with
        | Bound _ frames =>
            let copy := fresh (load_nodes nodes s) in
            objects s'
            = upd_first (fun o => ob_id o =? tgt)
                        (with_anim (Some (attached_anim t name copy)))
                        (objects s) /\
            actions s' = actions s ++ flat_map (node_actions base) idx
                         ++ [mkAction copy name frames 0] /\
            stdout s' = stdout s ++ ["Added animation: " +s name]
        | _ =>
            objects s' = objects s /\
            actions s' = actions s ++ flat_map (node_actions base) idx /\
            stdout s' = stdout s
        end
    end.
Proof.
  intros Hf Ht base idx.
  set (s0 := add_call (CallImportFbx path) s).
  set (s1 := load_nodes nodes s0).
  assert (Hbase : fresh s0 = base) by reflexivity.
  assert (Hstart : forall A (k : Py A),
            (import_scene_fbx fbx path ;; k) s = k s1).
  { intros A k. unfold import_scene_fbx. run. now rewrite Hf. }
  assert (Hsel1 : selected_objects s1 = map (node_object base) idx).
  { unfold s1. now rewrite selected_objects_loaded, Hbase. }
  assert (Htgt : tgt < base) by (eapply get_obj_fresh; exact Ht).
  unfold extract_animation. rewrite Hstart.
  unfold bind at 1. unfold gets at 1. rewrite Hsel1, find_type_loaded.
  destruct (find (fun n => fn_type n ==s "ARMATURE") nodes) as [n|] eqn:Hn.
  - destruct (first_of_type _ _ _ Hn) as (i & Hfi & Hin). fold idx in Hfi, Hin.
    rewrite Hfi. cbn [option_map].
    destruct (fn_anim n) as [| |nm frames] eqn:Ha.
    + unfold bind at 1.
      cbn [node_object ob_anim]. rewrite Ha. unfold ret at 1.
      destruct (remove_imported base idx s1 (objects s))
        as (s' & Hr & Ho & Hs & Hm & Har & Hac & Hso & Hc & Hw);
        [apply indexed_NoDup|reflexivity|reflexivity| |].
      { apply old_objects_below; reflexivity. }
      exists s'. rewrite Hr, Hc, Hw, Hm, Har, Hs, Ho, Hac, Hso.
      repeat split.
    + unfold bind at 1.
      cbn [node_object ob_anim]. rewrite Ha. unfold ret at 1.
      destruct (remove_imported base idx s1 (objects s))
        as (s' & Hr & Ho & Hs & Hm & Har & Hac & Hso & Hc & Hw);
        [apply indexed_NoDup|reflexivity|reflexivity| |].
      { apply old_objects_below; reflexivity. }
      exists s'. rewrite Hr, Hc, Hw, Hm, Har, Hs, Ho, Hac, Hso.
      repeat split.
    + unfold bind at 1.
      cbn [node_object ob_anim]. rewrite Ha.
      erewrite attach_action_spec.
      2:{ unfold s1, load_nodes. cbn [actions]. rewrite find_app_none.
          - rewrite Hbase. apply (find_node_action base idx i n nm frames);
              [apply indexed_NoDup|exact Hin|exact Ha].
          - apply find_none_iff. intros b Hb. apply fresh_action in Hb.
            apply Nat.eqb_neq. fold base. lia. }
      2:{ apply get_obj_load_old. exact Ht. }
      cbn [ac_frames].
      set (s2 := add_stdout _ _).
      destruct (remove_imported base idx s2
                  (upd_first (fun o => ob_id o =? tgt)
                     (with_anim (Some (attached_anim t name (fresh s1))))
                     (objects s)))
        as (s' & Hr & Ho & Hs & Hm & Har & Hac & Hso & Hc & Hw);
        [apply indexed_NoDup| |reflexivity| |].
      { unfold s2, s1, load_nodes, upd_obj.
        cbn [objects add_stdout set_objects set_actions].
        rewrite Hbase. eapply upd_obj_loaded. exact Ht. }
      { apply old_objects_below; [apply upd_anim_ids|apply upd_anim_parents]. }
      exists s'. rewrite Hr, Hc, Hw, Hm, Har, Hs, Ho, Hac, Hso.
      unfold s2, s1, load_nodes, upd_obj.
      cbn [objects add_stdout set_objects set_actions calls written meshes
           armatures actions stdout].
      rewrite Hbase, <- !app_assoc. repeat split.
  - pose proof (none_of_type _ _ Hn) as Hnone. fold idx in Hnone.
    rewrite Hnone. cbn [option_map].
    eexists. split; [reflexivity|].
    unfold print, modify, s1, load_nodes.
    cbn [objects add_stdout calls written meshes armatures actions stdout
         selected].
    rewrite Hbase. repeat split.
Qed.

(** ** One mesh of the optimize phase *)

Lemma with_polygons_same b : with_polygons (me_polygons b) b = b.
Proof. now destruct b. Qed.

Lemma with_modifiers_same o : with_modifiers (ob_modifiers o) o = o.
Proof. now destruct o. Qed.

Lemma add_calls_nil s : add_calls [] s = s.
Proof. destruct s. unfold add_calls. simpl. now rewrite app_nil_r. Qed.

Lemma upd_first_found {A} (p : A -> bool) f (l : list A) x :
  find p l = Some x -> p (f x) = true ->
  find p (upd_first p f l) = Some (f x).
Proof.
  induction l as [|y l IH]; simpl; [discriminate|].
  destruct (p y) eqn:E; simpl.
  - intros H Hp. inversion H; subst. now rewrite Hp.
  - rewrite E. exact IH.
Qed.

Lemma upd_first_over {A} (p : A -> bool) f c (l : list A) :
  p c = true ->
  upd_first p f (upd_first p (fun _ => c) l) = upd_first p (fun _ => f c) l.
Proof.
  intros Hc. induction l as [|y l IH]; simpl; [reflexivity|].
  destruct (p y) eqn:E; simpl.
  - now rewrite Hc.
  - now rewrite E, IH.
Qed.

Lemma find_modifier_mid name pre m rest :
  ~ In name (map md_name pre) -> md_name m = name ->
  find_modifier name (pre ++ m :: rest) = Some m.
Proof.
  intros Hpre Hm. unfold find_modifier. rewrite find_app_none.
  - simpl. rewrite Hm, String.eqb_refl. reflexivity.
  - apply find_none_iff. intros x Hx. apply String.eqb_neq. intros E.
    apply Hpre. rewrite <- E. now apply in_map.
Qed.

Lemma remove_named_mid name pre m rest :
  ~ In name (map md_name pre) -> md_name m = name ->
  remove_named name (pre ++ m :: rest) = pre ++ rest.
Proof.
  intros Hpre Hm. induction pre as [|x pre IH]; simpl.
  - now rewrite Hm, String.eqb_refl.
  - destruct (String.eqb_spec (md_name x) name) as [E|_].
    + exfalso. apply Hpre. left. exact E.
    + f_equal. apply IH. intros H. apply Hpre. now right.
Qed.

Lemma NoDup_mid_name pre (m : Modifier) rest :
  NoDup (map md_name (pre ++ m :: rest)) -> ~ In (md_name m) (map md_name pre).
Proof.
  rewrite map_app. simpl. intros H Hin.
  apply NoDup_remove_2 in H. apply H. apply in_or_app. now left.
Qed.

Lemma kept_names_no_decimate mods :
  decimate_free mods -> ~ In "Decimate" (map md_name (kept_modifiers mods)).
Proof.
  intros H Hin. apply in_map_iff in Hin. destruct Hin as (m & E & Hm).
  apply filter_In in Hm. destruct Hm as [Hm Ha]. exact (H m Hm Ha E).
Qed.

Lemma existsb_name_false name names :
  ~ In name names -> existsb (String.eqb name) names = false.
Proof.
  intros H. destruct (existsb (String.eqb name) names) eqn:E; [|reflexivity].
  apply existsb_exists in E. destruct E as (x & Hx & E).
  apply String.eqb_eq in E. subst. contradiction.
Qed.

Section OptimizeMesh.

(** The mesh object [o], known as [id], with its data block [b], known as
    [d], in a scene [s0] where it is the active object. *)
Variables (id d : nat) (o : Object) (b : MeshData) (s0 : Host).
Hypothesis Hactive : active s0 = Some id.
Hypothesis Hobj : get_obj id s0 = Some o.
Hypothesis Hdata : ob_data o = Some d.
Hypothesis Hmesh : find_mesh d s0 = Some b.

#[local] Set Default Proof Using "Hactive Hobj Hdata Hmesh".

Local Abbreviation work := (during id d o b s0).

Lemma during_id : ob_id o = id.
Proof. now apply get_obj_in in Hobj. Qed.

Lemma during_block_id : me_id b = d.
Proof.
  unfold find_mesh in Hmesh. apply find_some in Hmesh.
  now apply Nat.eqb_eq.
Qed.

Lemma during_start : work (ob_modifiers o) (me_polygons b) [] = s0.
Proof.
  unfold during. rewrite add_calls_nil, with_polygons_same, with_modifiers_same.
  unfold upd_obj, upd_mesh, set_objects, set_meshes.
  cbn [objects selected active meshes armatures actions stdout calls written].
  rewrite (upd_first_same _ _ _ Hobj), (upd_first_same _ _ _ Hmesh).
  now destruct s0.
Qed.

Lemma during_obj mods p cs :
  get_obj id (work mods p cs) = Some (with_modifiers mods o).
Proof.
  unfold during, get_obj, upd_obj. cbn [objects set_objects].
  apply (upd_first_found _ (fun _ => with_modifiers mods o) _ o).
  - exact Hobj.
  - cbn [with_modifiers ob_id]. rewrite during_id. apply Nat.eqb_refl.
Qed.

Lemma during_mesh mods p cs :
  find_mesh d (work mods p cs) = Some (with_polygons p b).
Proof.
  unfold during, find_mesh, upd_mesh. cbn [meshes upd_obj set_objects set_meshes].
  apply (upd_first_found _ (fun _ => with_polygons p b) _ b).
  - exact Hmesh.
  - cbn [with_polygons me_id]. rewrite during_block_id. apply Nat.eqb_refl.
Qed.

Lemma during_step f mods mods' p p' cs c :
  f (with_modifiers mods o) = with_modifiers mods' o ->
  upd_obj id f (upd_mesh d (with_polygons p') (add_call c (work mods p cs)))
  = work mods' p' (cs ++ [c]).
Proof.
  intros Hf.
  unfold during, upd_obj, upd_mesh, add_call, add_calls, set_objects, set_meshes.
  cbn [objects selected active meshes armatures actions stdout calls written].
  rewrite !upd_first_over, app_assoc, Hf; [reflexivity| |].
  - cbn [with_polygons me_id]. rewrite during_block_id. apply Nat.eqb_refl.
  - cbn [with_modifiers ob_id]. rewrite during_id. apply Nat.eqb_refl.
Qed.

Lemma during_restack f mods mods' p cs :
  f (with_modifiers mods o) = with_modifiers mods' o ->
  upd_obj id f (work mods p cs) = work mods' p cs.
Proof.
  intros Hf.
  unfold during, upd_obj, upd_mesh, add_call, add_calls, set_objects, set_meshes.
  cbn [objects selected active meshes armatures actions stdout calls written].
  rewrite upd_first_over, Hf; [reflexivity|].
  cbn [with_modifiers ob_id]. rewrite during_id. apply Nat.eqb_refl.
Qed.

Lemma during_call mods p cs c :
  add_call c (work mods p cs) = work mods p (cs ++ [c]).
Proof.
  unfold during, upd_obj, upd_mesh, add_call, add_calls, set_objects, set_meshes.
  cbn [objects selected active meshes armatures actions stdout calls written].
  now rewrite app_assoc.
Qed.

(** One call of [modifier_apply] in the loop. *)
Lemma modifier_apply_during name m mods p cs :
  find_modifier name mods = Some m ->
  modifier_apply apply_polygons name (work mods p cs)
  = Ok tt (work (remove_named name mods) (apply_polygons m p)
             (cs ++ [CallModifierApply id name])).
Proof.
  intros Hm. unfold modifier_apply. unfold bind at 1. unfold gets at 1.
  change (active (work mods p cs)) with (active s0). rewrite Hactive.
  unfold bind at 1. unfold modify at 1.
  set (s1 := add_call _ _).
  assert (Ho1 : get_obj id s1 = Some (with_modifiers mods o))
    by apply during_obj.
  assert (Hm1 : find_mesh d s1 = Some (with_polygons p b))
    by apply during_mesh.
  unfold bind at 1. rewrite (deref_ok _ _ _ Ho1).
  cbn [with_modifiers ob_modifiers ob_data]. rewrite Hm, Hdata, Hm1.
  cbn [with_polygons me_polygons].
  f_equal. now apply during_step.
Qed.

(** The loop over the modifiers, lines 139-141: started on the part [rest]
    of the stack, it applies the modifiers of [rest] that are not armature
    modifiers, in order, and keeps the others. *)
Lemma apply_loop rest : forall pre p cs,
  stack_ok (pre ++ rest) ->
  for_each rest (fun modifier =>
    when (negb (md_type modifier ==s "ARMATURE"))
         (modifier_apply apply_polygons (md_name modifier)))
    (work (pre ++ rest) p cs)
  = Ok tt (work (pre ++ kept_modifiers rest)
             (fold_left (fun p' m => apply_polygons m p')
                        (applied_modifiers rest) p)
             (cs ++ map (fun m => CallModifierApply id (md_name m))
                        (applied_modifiers rest))).
Proof.
  induction rest as [|m rest IH]; intros pre p cs Hnd.
  - cbn. now rewrite !app_nil_r.
  - cbn [for_each]. unfold bind at 1.
    unfold kept_modifiers, applied_modifiers, is_armature_modifier.
    cbn [filter].
    destruct (md_type m ==s "ARMATURE") eqn:E; cbn [negb when].
    + unfold ret at 1.
      replace (pre ++ m :: rest) with ((pre ++ [m]) ++ rest) in *
        by now rewrite <- app_assoc.
      rewrite (IH (pre ++ [m]) p cs Hnd).
      now rewrite <- app_assoc.
    + pose proof (NoDup_mid_name _ _ _ Hnd) as Hpre.
      rewrite (modifier_apply_during (md_name m) m);
        [|now apply find_modifier_mid].
      rewrite remove_named_mid by easy.
      assert (Hnd' : stack_ok (pre ++ rest)).
      { unfold stack_ok in *. rewrite map_app in *. simpl in Hnd.
        now apply NoDup_remove_1 in Hnd. }
      rewrite (IH pre _ _ Hnd').
      cbn [fold_left map]. now rewrite <- app_assoc.
Qed.

Lemma polygons_during mods p cs : polygons id (work mods p cs) = Ok p (work mods p cs).
Proof.
  unfold polygons, bind. rewrite (deref_ok _ _ _ (during_obj mods p cs)).
  cbn [with_modifiers ob_data]. rewrite Hdata, during_mesh. reflexivity.
Qed.

(** Lines 145-147 on a stack without a modifier named ["Decimate"]. *)
Lemma decimate_during mods p cs :
  ~ In "Decimate" (map md_name mods) ->
  (modifier_add "DECIMATE" ;;
   set_ratio id "Decimate" (1 # 2)%Q ;;
   modifier_apply apply_polygons "Decimate") (work mods p cs)
  = Ok tt (work mods (apply_polygons decimate_half p)
             (cs ++ [CallModifierAdd id "DECIMATE";
                     CallModifierApply id "Decimate"])).
Proof.
  intros Hfree.
  unfold bind at 1. unfold modifier_add. unfold bind at 1. unfold gets at 1.
  change (active (work mods p cs)) with (active s0). rewrite Hactive.
  unfold bind at 1. unfold modify at 1. rewrite during_call.
  unfold bind at 1. rewrite (deref_ok _ _ _ (during_obj _ _ _)).
  unfold modify at 1.
  rewrite (during_restack _ _
             (mods ++ [mkModifier "Decimate" "DECIMATE" 1%Q])).
  2:{ cbn [with_modifiers ob_modifiers]. unfold unique_name.
      change (default_name "DECIMATE") with "Decimate".
      now rewrite existsb_name_false. }
  unfold bind at 1. unfold set_ratio. unfold bind at 1.
  rewrite (deref_ok _ _ _ (during_obj _ _ _)).
  cbn [with_modifiers ob_modifiers].
  rewrite (find_modifier_mid "Decimate" mods _ []) by easy.
  cbn [md_type]. change ("DECIMATE" ==s "DECIMATE") with true. cbv iota.
  unfold modify at 1.
  rewrite (during_restack _ _ (mods ++ [decimate_half])).
  2:{ cbn [with_modifiers ob_modifiers]. rewrite upd_first_app_none.
      - reflexivity.
      - intros x Hx. apply String.eqb_neq. intros E. apply Hfree.
        rewrite <- E. now apply in_map. }
  rewrite (modifier_apply_during "Decimate" decimate_half)
    by now apply find_modifier_mid.
  rewrite remove_named_mid by easy.
  now rewrite app_nil_r, <- app_assoc.
Qed.

(** The body of the loop over the meshes, from line 138 on. *)
Lemma optimize_mesh_during :
  stack_ok (ob_modifiers o) -> decimate_free (ob_modifiers o) ->
  (o' <- deref id ;;
   for_each (ob_modifiers o') (fun modifier =>
     when (negb (md_type modifier ==s "ARMATURE"))
          (modifier_apply apply_polygons (md_name modifier))) ;;
   n <- polygons id ;;
   when (10000 <? n)%Z
        (modifier_add "DECIMATE" ;;
         set_ratio id "Decimate" (1 # 2)%Q ;;
         modifier_apply apply_polygons "Decimate") ;;
   select_set id false) s0
  = Ok tt (set_selected (filter (fun i => negb (i =? id)))
             (work (kept_modifiers (ob_modifiers o))
                   (optimized_polygons apply_polygons (ob_modifiers o)
                                       (me_polygons b))
                   (optimize_calls apply_polygons id (ob_modifiers o)
                                   (me_polygons b)))).
Proof.
  intros Hnd Hfree.
  unfold bind at 1. rewrite (deref_ok _ _ _ Hobj).
  unfold bind at 1.
  rewrite <- during_start at 1.
  rewrite (apply_loop (ob_modifiers o) [] _ _ Hnd).
  cbn [app].
  unfold bind at 1. rewrite polygons_during.
  unfold optimized_polygons, optimize_calls, decimated.
  fold (baked_polygons apply_polygons (ob_modifiers o) (me_polygons b)).
  destruct (10000 <? baked_polygons apply_polygons (ob_modifiers o)
                                    (me_polygons b))%Z; cbn [when].
  - unfold bind at 1.
    rewrite decimate_during by now apply kept_names_no_decimate.
    reflexivity.
  - unfold bind at 1, ret at 1. now rewrite app_nil_r.
Qed.

End OptimizeMesh.

(** [optimize_mesh] on a mesh object [o] with data block [b]. *)
Lemma optimize_mesh_spec id d o b s :
  get_obj id s = Some o -> ob_data o = Some d -> find_mesh d s = Some b ->
  stack_ok (ob_modifiers o) -> decimate_free (ob_modifiers o) ->
  optimize_mesh apply_polygons id s
  = Ok tt (set_selected (filter (fun i => negb (i =? id)))
             (during id d o b
                (set_selected
                   (fun l => if existsb (Nat.eqb id) l then l else l ++ [id])
                   (set_active (Some id) s))
                (kept_modifiers (ob_modifiers o))
                (optimized_polygons apply_polygons (ob_modifiers o)
                                    (me_polygons b))
                (optimize_calls apply_polygons id (ob_modifiers o)
                                (me_polygons b)))).
Proof.
  intros Ho Hd Hb Hnd Hfree. unfold optimize_mesh.
  unfold bind at 1. unfold modify at 1.
  unfold bind at 1. unfold select_set at 1. unfold modify at 1.
  now apply optimize_mesh_during.
Qed.

(** ** The optimize phase *)

Lemma find_upd_first_const {A} (p q : A -> bool) c (l : list A) x :
  find p l = Some x -> q x = false -> q c = false ->
  find q (upd_first p (fun _ => c) l) = find q l.
Proof.
  induction l as [|y l IH]; simpl; [discriminate|].
  destruct (p y) eqn:E; simpl.
  - intros H Hx Hc. inversion H; subst. now rewrite Hx, Hc.
  - intros H Hx Hc. destruct (q y); [reflexivity|now apply IH].
Qed.

Lemma flat_map_ext_in {A B} (f g : A -> list B) (l : list A) :
  (forall x, In x l -> f x = g x) -> flat_map f l = flat_map g l.
Proof.
  induction l as [|y l IH]; simpl; intros H; [reflexivity|].
  rewrite (H y (or_introl eq_refl)). f_equal. apply IH.
  intros x Hx. apply H. now right.
Qed.

Lemma map_upd_first_const {A B} (h : A -> B) (p : A -> bool) c (l : list A) x :
  find p l = Some x -> h c = h x ->
  map h (upd_first p (fun _ => c) l) = map h l.
Proof.
  induction l as [|y l IH]; simpl; [discriminate|].
  destruct (p y); simpl.
  - intros H Hc. inversion H; subst. now rewrite Hc.
  - intros H Hc. now rewrite IH.
Qed.

(** The fields of the scene [optimize_mesh] ends in. *)
Lemma optimized_fields id d o b s f g a mods p cs :
  let s' := set_selected f (during id d o b (set_selected g (set_active a s))
                              mods p cs) in
  objects s' = upd_first (fun x => ob_id x =? id)
                 (fun _ => with_modifiers mods o) (objects s) /\
  meshes s' = upd_first (fun x => me_id x =? d)
                (fun _ => with_polygons p b) (meshes s) /\
  calls s' = calls s ++ cs /\
  actions s' = actions s /\ armatures s' = armatures s /\
  stdout s' = stdout s /\ written s' = written s.
Proof. cbv zeta. repeat split. Qed.

(** What one [optimize_mesh] leaves of the scene. *)
Lemma optimize_mesh_frame id d o b s :
  get_obj id s = Some o -> ob_data o = Some d -> find_mesh d s = Some b ->
  stack_ok (ob_modifiers o) -> decimate_free (ob_modifiers o) ->
  exists s',
    optimize_mesh apply_polygons id s = Ok tt s' /\
    get_obj id s' = Some (optimized o) /\
    find_mesh d s'
    = Some (with_polygons
              (optimized_polygons apply_polygons (ob_modifiers o) (me_polygons b))
              b) /\
    (forall i, i <> id -> get_obj i s' = get_obj i s) /\
    (forall d', d' <> d -> find_mesh d' s' = find_mesh d' s) /\
    calls s' = calls s ++ optimize_calls apply_polygons id (ob_modifiers o)
                                         (me_polygons b) /\
    map (with_modifiers []) (objects s') = map (with_modifiers []) (objects s) /\
    map (with_polygons 0) (meshes s') = map (with_polygons 0) (meshes s) /\
    actions s' = actions s /\ armatures s' = armatures s /\
    stdout s' = stdout s /\ written s' = written s.
Proof.
  intros Ho Hd Hb Hnd Hfree.
  pose proof (get_obj_in _ _ _ Ho) as [_ Hid].
  assert (Hbid : me_id b = d).
  { unfold find_mesh in Hb. apply find_some in Hb. now apply Nat.eqb_eq. }
  pose proof (optimize_mesh_spec id d o b s Ho Hd Hb Hnd Hfree) as Hrun.
  unfold optimized.
  set (mods := kept_modifiers (ob_modifiers o)) in *.
  set (p := optimized_polygons apply_polygons (ob_modifiers o) (me_polygons b))
    in *.
  set (cs := optimize_calls apply_polygons id (ob_modifiers o) (me_polygons b))
    in *.
  clearbody mods p cs.
  eexists. split; [exact Hrun|]. clear Hrun.
  match goal with
  | |- context [set_selected ?f (during _ _ _ _ (set_selected ?g (set_active ?a _)) _ _ _)] =>
      destruct (optimized_fields id d o b s f g a mods p cs)
        as (Eo & Em & Ec & Eac & Ear & Eso & Ew)
  end.
  cbv zeta in Eo, Em, Ec, Eac, Ear, Eso, Ew.
  unfold get_obj, find_mesh. rewrite Eo, Em, Ec, Eac, Ear, Eso, Ew.
  split; [|split; [|split; [|split; [|split; [|split; [|split]]]]]].
  - apply (upd_first_found _ (fun _ => with_modifiers _ o) _ o Ho).
    cbn [ob_id with_modifiers]. rewrite Hid. apply Nat.eqb_refl.
  - apply (upd_first_found _ (fun _ => with_polygons _ b) _ b Hb).
    cbn [me_id with_polygons]. rewrite Hbid. apply Nat.eqb_refl.
  - intros i Hi. apply (find_upd_first_const _ _ _ _ o Ho).
    + apply Nat.eqb_neq. congruence.
    + cbn [ob_id with_modifiers]. apply Nat.eqb_neq. congruence.
  - intros d' Hd'. apply (find_upd_first_const _ _ _ _ b Hb).
    + apply Nat.eqb_neq. congruence.
    + cbn [me_id with_polygons]. apply Nat.eqb_neq. congruence.
  - reflexivity.
  - apply (map_upd_first_const _ _ _ _ o Ho). reflexivity.
  - apply (map_upd_first_const _ _ _ _ b Hb). reflexivity.
  - repeat split.
Qed.

Lemma mesh_polygons_eq s o d b :
  ob_data o = Some d -> find_mesh d s = Some b -> mesh_polygons s o = me_polygons b.
Proof. unfold mesh_polygons. now intros -> ->. Qed.

(** The loop over the meshes, lines 134-149, on a list of mesh objects that
    share neither identity nor data. *)
Lemma optimize_loop (l : list Object) : forall s,
  NoDup (map ob_id l) -> NoDup (map ob_data l) ->
  (forall o, In o l -> get_obj (ob_id o) s = Some o /\ mesh_ready s o) ->
  exists s',
    for_each l (fun mesh => optimize_mesh apply_polygons (ob_id mesh)) s
    = Ok tt s' /\
    (forall o, In o l ->
       get_obj (ob_id o) s' = Some (optimized o) /\
       forall d b, ob_data o = Some d -> find_mesh d s = Some b ->
         find_mesh d s'
         = Some (with_polygons
                   (optimized_polygons apply_polygons (ob_modifiers o)
                                       (me_polygons b)) b)) /\
    (forall i, ~ In i (map ob_id l) -> get_obj i s' = get_obj i s) /\
    (forall d, ~ In (Some d) (map ob_data l) -> find_mesh d s' = find_mesh d s) /\
    calls s' = calls s ++
      flat_map (fun o => optimize_calls apply_polygons (ob_id o)
                           (ob_modifiers o) (mesh_polygons s o)) l /\
    map (with_modifiers []) (objects s') = map (with_modifiers []) (objects s) /\
    map (with_polygons 0) (meshes s') = map (with_polygons 0) (meshes s) /\
    actions s' = actions s /\ armatures s' = armatures s /\
    stdout s' = stdout s /\ written s' = written s.
Proof.
  induction l as [|o l IH]; intros s Hids Hdata Hready.
  - exists s. split; [reflexivity|]. cbn [flat_map]. rewrite app_nil_r.
    repeat split; try reflexivity; contradiction.
  - cbn [map] in Hids, Hdata.
    inversion Hids as [|? ? Hid_notin Hids']; subst.
    inversion Hdata as [|? ? Hd_notin Hdata']; subst.
    destruct (Hready o (or_introl eq_refl))
      as (Ho & Hnd & Hfree & d & b & Hd & Hb).
    destruct (optimize_mesh_frame (ob_id o) d o b s Ho Hd Hb Hnd Hfree)
      as (s1 & Hrun & Ho1 & Hb1 & Hfo & Hfm & Hc1 & Hobj1 & Hme1 & Hac1 & Har1
          & Hso1 & Hw1).
    assert (Hready1 : forall x, In x l ->
              get_obj (ob_id x) s1 = Some x /\ mesh_ready s1 x).
    { intros x Hx.
      destruct (Hready x (or_intror Hx))
        as (Hgx & Hndx & Hfreex & dx & bx & Hdx & Hbx).
      assert (Hne : ob_id x <> ob_id o).
      { intros E. apply Hid_notin. rewrite <- E. now apply in_map. }
      assert (Hned : dx <> d).
      { intros E. apply Hd_notin. rewrite Hd, <- E, <- Hdx. now apply in_map. }
      split; [now rewrite Hfo|].
      split; [exact Hndx|split; [exact Hfreex|]].
      exists dx, bx. split; [exact Hdx|]. now rewrite Hfm. }
    destruct (IH s1 Hids' Hdata' Hready1)
      as (s' & Hrun' & Hopt & Hfo' & Hfm' & Hc' & Hobj' & Hme' & Hac' & Har'
          & Hso' & Hw').
    exists s'. split.
    { cbn [for_each]. unfold bind. now rewrite Hrun. }
    split; [|split; [|split; [|split]]].
    + intros x [->|Hx].
      * split.
        -- now rewrite Hfo'.
        -- intros d' b' Hd' Hb'. rewrite Hd in Hd'. inversion Hd'; subst d'.
           rewrite Hb in Hb'. inversion Hb'; subst b'.
           rewrite Hfm'; [exact Hb1|]. now rewrite <- Hd.
      * destruct (Hopt x Hx) as [Hgx Hmx]. split; [exact Hgx|].
        intros d' b' Hd' Hb'. apply Hmx; [exact Hd'|].
        rewrite Hfm; [exact Hb'|]. intros E. apply Hd_notin.
        rewrite Hd, <- E, <- Hd'. now apply in_map.
    + intros i Hi. cbn [map] in Hi. rewrite Hfo', Hfo; [reflexivity| |];
        intros H; apply Hi; [now left|now right].
    + intros d' Hd'. cbn [map] in Hd'. rewrite Hfm', Hfm; [reflexivity| |].
      * intros E. apply Hd'. left. now rewrite Hd, E.
      * intros H. apply Hd'. now right.
    + rewrite Hc', Hc1, <- app_assoc. cbn [flat_map]. f_equal.
      rewrite (mesh_polygons_eq s o d b Hd Hb). f_equal.
      apply flat_map_ext_in. intros x Hx.
      destruct (Hready x (or_intror Hx)) as (_ & _ & _ & dx & bx & Hdx & Hbx).
      unfold mesh_polygons. rewrite Hdx, Hfm; [reflexivity|].
      intros E. apply Hd_notin. rewrite Hd, <- E, <- Hdx. now apply in_map.
    + rewrite Hobj', Hme', Hac', Har', Hso', Hw'. repeat split; assumption.
Qed.

Lemma NoDup_map_eq {A B} (f : A -> B) (l : list A) x y :
  NoDup (map f l) -> In x l -> In y l -> f x = f y -> x = y.
Proof.
  induction l as [|a l IH]; simpl; intros Hnd Hx Hy E; [contradiction|].
  inversion Hnd as [|? ? Hnotin Hnd']; subst.
  destruct Hx as [->|Hx], Hy as [->|Hy]; trivial.
  - exfalso. apply Hnotin. rewrite E. now apply in_map.
  - exfalso. apply Hnotin. rewrite <- E. now apply in_map.
  - now apply IH.
Qed.

Lemma filter_keeps_distinct {K V} (key : V -> K) (keep : V -> bool) xs
  (Hxs : NoDup (map key xs)) :
  NoDup (map key (filter keep xs)).
Proof.
  induction xs as [|x xs IH]; cbn [filter map] in *; [constructor|].
  inversion Hxs as [|? ? Hfresh Hrest]; subst.
  destruct (keep x); cbn [map]; [|exact (IH Hrest)].
  constructor; [|exact (IH Hrest)].
  intros Hin. apply Hfresh. apply in_map_iff in Hin.
  destruct Hin as (y & E & Hy).
  apply filter_In in Hy. rewrite <- E. apply in_map. exact (proj1 Hy).
Qed.

Lemma get_obj_NoDup s o :
  NoDup (map ob_id (objects s)) -> In o (objects s) ->
  get_obj (ob_id o) s = Some o.
Proof.
  intros Hnd Ho. destruct (get_obj_present (ob_id o) s) as [x Hx].
  { now apply in_map. }
  rewrite Hx. f_equal. apply get_obj_in in Hx. destruct Hx as [Hx E].
  now apply (NoDup_map_eq ob_id (objects s)).
Qed.





(** ** The scene between two animation entries *)

Lemma mesh_ready_grow s s' o more :
  meshes s' = meshes s ++ more -> mesh_ready s o -> mesh_ready s' o.
Proof.
  intros Hm (Hnd & Hfree & d & b & Hd & Hb).
  split; [exact Hnd|split; [exact Hfree|]].
  exists d, b. split; [exact Hd|].
  unfold find_mesh in *. rewrite Hm. now apply find_app_some.
Qed.

Lemma child_ok_grow s s' o more :
  meshes s' = meshes s ++ more -> child_ok s o -> child_ok s' o.
Proof.
  intros Hm (Hr & Hd & Hu).
  split; [now apply (mesh_ready_grow s s' o more)|]. split; [exact Hd|].
  intros b Hb. apply Hu. destruct Hr as (_ & _ & d & b0 & Hd0 & Hb0).
  rewrite Hd in Hd0. inversion Hd0; subst d.
  unfold find_mesh in *. rewrite Hm in Hb.
  rewrite (find_app_some _ _ _ _ Hb0) in Hb. inversion Hb; subst b.
  exact Hb0.
Qed.

Lemma loaded_not_child tgt base p :
  tgt < base -> is_child_mesh tgt (node_object base p) = false.
Proof.
  intros Hlt. destruct p as [i n]. unfold is_child_mesh, node_object.
  cbn [ob_parent]. destruct (fn_parent n) as [j|]; [|reflexivity].
  cbn [option_map].
  destruct (Nat.eqb_spec (base + 3 * j) tgt); [lia|reflexivity].
Qed.

Lemma loaded_tracks base p ad :
  ob_anim (node_object base p) = Some ad -> ad_tracks ad = [].
Proof.
  destruct p as [i n]. unfold node_object. cbn [ob_anim].
  destruct (fn_anim n); intros H; inversion H; reflexivity.
Qed.

Lemma scene_ok_grow tgt s s' idx more :
  NoDup (map fst idx) -> tgt < fresh s ->
  objects s' = objects s ++ map (node_object (fresh s)) idx ->
  meshes s' = meshes s ++ more ->
  scene_ok tgt s -> scene_ok tgt s'.
Proof.
  intros Hidx Hlt Hobj Hm (Hnd & Hkids & Hmute).
  split; [|split].
  - rewrite Hobj, map_app, loaded_ids_objects.
    apply NoDup_app; [exact Hnd|now apply loaded_ids_NoDup|].
    intros i Hi Hi'. apply loaded_ids_ge in Hi'.
    apply in_map_iff in Hi. destruct Hi as (o & <- & Ho).
    apply fresh_object in Ho. lia.
  - intros o Ho Hk. rewrite Hobj in Ho. apply in_app_or in Ho.
    destruct Ho as [Ho|Ho].
    + now apply (child_ok_grow s s' o more), Hkids.
    + apply in_map_iff in Ho. destruct Ho as (p & <- & _).
      now rewrite loaded_not_child in Hk.
  - intros o ad t Ho Ha Ht. rewrite Hobj in Ho. apply in_app_or in Ho.
    destruct Ho as [Ho|Ho].
    + exact (Hmute o ad t Ho Ha Ht).
    + apply in_map_iff in Ho. destruct Ho as (p & <- & _).
      rewrite (loaded_tracks _ _ _ Ha) in Ht. contradiction.
Qed.

Lemma scene_ok_more tgt s s' more :
  objects s' = objects s -> meshes s' = meshes s ++ more ->
  scene_ok tgt s -> scene_ok tgt s'.
Proof.
  intros Hobj Hm (Hnd & Hkids & Hmute). unfold scene_ok. rewrite Hobj.
  split; [exact Hnd|split; [|exact Hmute]].
  intros o Ho Hk. now apply (child_ok_grow s s' o more), Hkids.
Qed.

Lemma in_upd_first {A} (p : A -> bool) f (l : list A) y :
  In y (upd_first p f l) -> In y l \/ exists x, find p l = Some x /\ y = f x.
Proof.
  induction l as [|a l IH]; simpl; [intros []|].
  destruct (p a); simpl.
  - intros [<-|H]; [right; now exists a|left; now right].
  - intros [<-|H]; [left; now left|].
    destruct (IH H) as [H'|H']; [left; now right|now right].
Qed.

Lemma attached_muted t name copy x :
  (forall ad y, ob_anim t = Some ad -> In y (ad_tracks ad) -> tr_mute y = true) ->
  In x (ad_tracks (attached_anim t name copy)) -> tr_mute x = true.
Proof.
  intros Hold Hx. unfold attached_anim in Hx. cbn [ad_tracks] in Hx.
  apply in_app_or in Hx. destruct Hx as [Hx|[<-|[]]]; [|reflexivity].
  unfold anim_or_empty in Hx. destruct (ob_anim t) as [ad|] eqn:Ha.
  - now apply (Hold ad).
  - contradiction.
Qed.

Lemma scene_ok_attach tgt s s' t name copy more :
  get_obj tgt s = Some t ->
  objects s' = upd_first (fun o => ob_id o =? tgt)
                 (with_anim (Some (attached_anim t name copy))) (objects s) ->
  meshes s' = meshes s ++ more ->
  scene_ok tgt s -> scene_ok tgt s'.
Proof.
  intros Ht Hobj Hm (Hnd & Hkids & Hmute).
  pose proof (get_obj_in _ _ _ Ht) as [Hin _].
  split; [|split].
  - now rewrite Hobj, upd_anim_ids.
  - intros o Ho Hk. rewrite Hobj in Ho. apply in_upd_first in Ho.
    destruct Ho as [Ho|(x & Hx & ->)].
    + now apply (child_ok_grow s s' o more), Hkids.
    + fold (get_obj tgt s) in Hx. rewrite Ht in Hx. inversion Hx; subst x.
      apply (child_ok_grow s s' t more Hm (Hkids t Hin Hk)).
  - intros o ad x Ho Ha Hx. rewrite Hobj in Ho. apply in_upd_first in Ho.
    destruct Ho as [Ho|(y & Hy & ->)].
    + exact (Hmute o ad x Ho Ha Hx).
    + fold (get_obj tgt s) in Hy. rewrite Ht in Hy. inversion Hy; subst y.
      cbn [with_anim ob_anim] in Ha. inversion Ha; subst ad.
      apply (attached_muted t name copy x); [|exact Hx].
      intros ad y. now apply Hmute.
Qed.

(** ** The loop over the animation entries *)

Lemma is_attached_track_incl acts acts' e t :
  incl acts acts' ->
  is_attached_track fbx script_dir acts e t ->
  is_attached_track fbx script_dir acts' e t.
Proof.
  intros Hi (copy & orig & name & frames & Hb & [users Ho] & Hc & Hne & E).
  exists copy, orig, name, frames.
  split; [exact Hb|]. split; [exists users; now apply Hi|].
  split; [now apply Hi|]. split; [exact Hne|exact E].
Qed.

Lemma anim_or_empty_attached t name copy :
  anim_or_empty (with_anim (Some (attached_anim t name copy)) t)
  = attached_anim t name copy.
Proof. reflexivity. Qed.

Local Abbreviation entry_lines' := (entry_lines fbx script_dir).
Local Abbreviation entry_calls' := (entry_calls fbx script_dir).
Local Abbreviation attached' := (attached fbx script_dir).
Local Abbreviation is_attached_track' := (is_attached_track fbx script_dir).
Local Abbreviation import_entry' := (import_entry fbx script_dir).

(** One entry of [ANIMATIONS], lines 201-206, whatever the disk holds for
    it: the entry never fails, it keeps the scene well formed, and the
    target changes by at most one track on top of its stack. *)
Lemma import_entry_spec tgt e s t :
  scene_ok tgt s -> get_obj tgt s = Some t ->
  exists s' t',
    import_entry' tgt e s = Ok tt s' /\
    scene_ok tgt s' /\
    get_obj tgt s' = Some t' /\
    stdout s' = stdout s ++ entry_lines' e /\
    calls s' = calls s ++ entry_calls' e /\
    written s' = written s /\
    with_anim None t' = with_anim None t /\
    ad_action (anim_or_empty t') = ad_action (anim_or_empty t) /\
    incl (actions s) (actions s') /\
    exists new,
      ad_tracks (anim_or_empty t') = ad_tracks (anim_or_empty t) ++ new /\
      Forall2 (is_attached_track' (actions s')) (attached' [e]) new.
Proof.
  intros Hok Ht. destruct e as [filename action_name].
  unfold import_entry, entry_lines, entry_calls, attached, attaches,
    bound_action, path_exists.
  cbn [fst snd filter].
  set (path := path_join script_dir (filename +s ".fbx")).
  destruct (fbx path) as [nodes|] eqn:Hf.
  - unfold bind at 1. unfold print at 1, modify at 1.
    set (sp := add_stdout ("Importing animation: " +s filename) s).
    destruct (extract_animation_spec path action_name tgt sp nodes t Hf Ht)
      as (s' & Hrun & Hc & Hw & Hm & Har & Hcase).
    change (fresh sp) with (fresh s) in *.
    pose proof (get_obj_fresh _ _ _ Ht) as Hlt.
    destruct (find (fun n => fn_type n ==s "ARMATURE") nodes) as [n|] eqn:Hn.
    + destruct Hcase as [Hsel Hcase].
      destruct (fn_anim n) as [| |nm frames] eqn:Ha.
      * destruct Hcase as (Hobj & Hac & Hso).
        exists s', t. rewrite Hrun, Hso, Hc, Hw.
        split; [reflexivity|]. split.
        { now apply (scene_ok_more tgt s s' _ Hobj Hm). }
        split; [unfold get_obj; now rewrite Hobj|].
        split; [reflexivity|]. split; [reflexivity|]. split; [reflexivity|].
        split; [reflexivity|]. split; [reflexivity|].
        split; [rewrite Hac; apply incl_appl, incl_refl|].
        exists []. rewrite app_nil_r. split; [reflexivity|constructor].
      * destruct Hcase as (Hobj & Hac & Hso).
        exists s', t. rewrite Hrun, Hso, Hc, Hw.
        split; [reflexivity|]. split.
        { now apply (scene_ok_more tgt s s' _ Hobj Hm). }
        split; [unfold get_obj; now rewrite Hobj|].
        split; [reflexivity|]. split; [reflexivity|]. split; [reflexivity|].
        split; [reflexivity|]. split; [reflexivity|].
        split; [rewrite Hac; apply incl_appl, incl_refl|].
        exists []. rewrite app_nil_r. split; [reflexivity|constructor].
      * cbv zeta in Hcase. destruct Hcase as (Hobj & Hac & Hso).
        set (copy := fresh (load_nodes nodes sp)) in *.
        exists s', (with_anim (Some (attached_anim t action_name copy)) t).
        rewrite Hrun, Hso, Hc, Hw.
        split; [reflexivity|]. split.
        { now apply (scene_ok_attach tgt s s' t action_name copy _ Ht Hobj Hm). }
        split.
        { unfold get_obj. rewrite Hobj.
          now apply (upd_first_found _ _ _ t Ht), Nat.eqb_eq,
            (get_obj_in _ _ _ Ht). }
        split; [unfold sp; cbn [stdout add_stdout]; now rewrite <- app_assoc|].
        split; [reflexivity|]. split; [reflexivity|].
        split; [reflexivity|]. split; [reflexivity|].
        split; [rewrite Hac; apply incl_appl, incl_refl|].
        exists [attached_track action_name copy].
        split; [reflexivity|]. constructor; [|constructor].
        destruct (first_of_type _ _ _ Hn) as (i & _ & Hin).
        pose proof (find_node_action (fresh s) (indexed nodes) i n nm frames
                      (indexed_NoDup nodes) Hin Ha) as Horig.
        apply find_some in Horig. destruct Horig as [Horig _].
        exists copy, (fresh s + 3 * i + 2), nm, frames.
        unfold bound_action. cbn [fst snd].
        fold path. rewrite Hf, Hn, Ha, Hac.
        split; [reflexivity|]. split.
        { exists 1. apply in_or_app. right. apply in_or_app. now left. }
        split.
        { apply in_or_app. right. apply in_or_app. right. now left. }
        split; [|reflexivity].
        assert (Hlt' : fresh s + 3 * i + 2 < copy).
        { apply (fresh_action (load_nodes nodes sp)
                   (mkAction (fresh s + 3 * i + 2) nm frames 1)).
          unfold load_nodes. cbn [actions]. apply in_or_app. now right. }
        lia.
    + destruct Hcase as (Hobj & Hsel & Hac & Hso).
      exists s', t. rewrite Hrun, Hso, Hc, Hw.
      split; [reflexivity|]. split.
      { now apply (scene_ok_grow tgt s s' (indexed nodes) _
                     (indexed_NoDup nodes) Hlt Hobj Hm). }
      split.
      { unfold get_obj. rewrite Hobj. now apply find_app_some. }
      split; [unfold sp; cbn [stdout add_stdout]; now rewrite <- app_assoc|].
      split; [reflexivity|]. split; [reflexivity|].
      split; [reflexivity|]. split; [reflexivity|].
      split; [rewrite Hac; apply incl_appl, incl_refl|].
      exists []. rewrite app_nil_r. split; [reflexivity|constructor].
  - exists (add_stdout ("Skipping (not found): " +s filename) s), t.
    split; [reflexivity|]. split; [exact Hok|]. split; [exact Ht|].
    cbn [stdout calls written actions add_stdout]. rewrite app_nil_r.
    repeat split; try reflexivity; try apply incl_refl.
    exists []. rewrite app_nil_r. split; [reflexivity|constructor].
Qed.

Lemma import_entries_spec tgt es : forall s t,
  scene_ok tgt s -> get_obj tgt s = Some t ->
  exists s' t',
    for_each es (import_entry' tgt) s = Ok tt s' /\
    scene_ok tgt s' /\
    get_obj tgt s' = Some t' /\
    stdout s' = stdout s ++ flat_map entry_lines' es /\
    calls s' = calls s ++ flat_map entry_calls' es /\
    written s' = written s /\
    with_anim None t' = with_anim None t /\
    ad_action (anim_or_empty t') = ad_action (anim_or_empty t) /\
    incl (actions s) (actions s') /\
    exists new,
      ad_tracks (anim_or_empty t') = ad_tracks (anim_or_empty t) ++ new /\
      Forall2 (is_attached_track' (actions s')) (attached' es) new.
Proof.
  induction es as [|e es IH]; intros s t Hok Ht.
  - exists s, t. cbn [flat_map]. rewrite !app_nil_r.
    split; [reflexivity|]. split; [exact Hok|]. split; [exact Ht|].
    repeat split; try reflexivity; try apply incl_refl.
    exists []. rewrite app_nil_r. split; [reflexivity|constructor].
  - destruct (import_entry_spec tgt e s t Hok Ht)
      as (s1 & t1 & Hrun1 & Hok1 & Ht1 & Hso1 & Hc1 & Hw1 & Hsame1 & Hact1
          & Hincl1 & new1 & Htr1 & Hnew1).
    destruct (IH s1 t1 Hok1 Ht1)
      as (s' & t' & Hrun & Hok' & Ht' & Hso & Hc & Hw & Hsame & Hact
          & Hincl & new & Htr & Hnew).
    exists s', t'. split.
    { cbn [for_each]. unfold bind. now rewrite Hrun1. }
    split; [exact Hok'|]. split; [exact Ht'|].
    cbn [flat_map].
    split; [now rewrite Hso, Hso1, <- app_assoc|].
    split; [now rewrite Hc, Hc1, <- app_assoc|].
    split; [congruence|]. split; [congruence|]. split; [congruence|].
    split; [eapply incl_tran; eassumption|].
    exists (new1 ++ new). split.
    + now rewrite Htr, Htr1, <- app_assoc.
    + unfold attached in *. cbn [filter] in *.
      destruct (attaches fbx script_dir e); cbn [app] in *.
      * inversion Hnew1 as [|? ? ? ? Hx Hrest]; subst.
        inversion Hrest; subst. cbn [app]. constructor; [|exact Hnew].
        now apply (is_attached_track_incl (actions s1)).
      * inversion Hnew1; subst. exact Hnew.
Qed.

(** ** The whole run *)

Lemma find_present {A} (q : A -> bool) (l : list A) x :
  In x l -> q x = true -> exists y, find q l = Some y.
Proof.
  intros Hx Hq. destruct (find q l) as [y|] eqn:F; [now exists y|].
  apply find_none with (x := x) in F; [congruence|exact Hx].
Qed.

Lemma all_muted_same l l' :
  map (with_modifiers []) l' = map (with_modifiers []) l ->
  all_muted l -> all_muted l'.
Proof.
  intros E Hm o ad t Ho Ha Ht.
  assert (Hin : In (with_modifiers [] o) (map (with_modifiers []) l)).
  { rewrite <- E. now apply in_map. }
  apply in_map_iff in Hin. destruct Hin as (x & Ex & Hx).
  apply (Hm x ad t Hx); [|exact Ht].
  rewrite <- Ha.
  change (ob_anim (with_modifiers [] x) = ob_anim (with_modifiers [] o)).
  now rewrite Ex.
Qed.

(** The scene right after the character has been imported into an empty
    scene and its armature renamed. *)
Lemma scene_ok_character s nodes i n :
  objects s = [] ->
  Forall node_ok nodes ->
  In (i, n) (indexed nodes) ->
  let tgt := fresh s + 3 * i in
  scene_ok tgt (upd_obj tgt (with_name "Swimmer") (load_nodes nodes s)).
Proof.
  intros Hempty Hnodes Hin tgt.
  set (base := fresh s) in *.
  assert (Hobjs : forall o,
            In o (objects (upd_obj tgt (with_name "Swimmer") (load_nodes nodes s))) ->
            exists p, In p (indexed nodes) /\
                      (o = node_object base p \/
                       o = with_name "Swimmer" (node_object base p))).
  { intros o Ho. unfold upd_obj, load_nodes in Ho.
    cbn [objects set_objects] in Ho. rewrite Hempty in Ho. cbn [app] in Ho.
    apply in_upd_first in Ho. destruct Ho as [Ho|(x & Hx & ->)].
    - apply in_map_iff in Ho. destruct Ho as (p & <- & Hp). exists p.
      split; [exact Hp|now left].
    - apply find_some in Hx. destruct Hx as [Hx _].
      apply in_map_iff in Hx. destruct Hx as (p & <- & Hp). exists p.
      split; [exact Hp|now right]. }
  split; [|split].
  - unfold upd_obj, load_nodes. cbn [objects set_objects].
    rewrite Hempty. cbn [app]. rewrite map_upd_first by reflexivity.
    rewrite loaded_ids_objects. apply loaded_ids_NoDup, indexed_NoDup.
  - intros o Ho Hk. destruct (Hobjs o Ho) as ([j m] & Hp & Hcase).
    assert (Hm : In m nodes).
    { rewrite <- (map_snd_indexed nodes). change m with (snd (j, m)).
      now apply in_map. }
    rewrite Forall_forall in Hnodes. destruct (Hnodes m Hm) as [Hst Hfree].
    assert (Htype : fn_type m = "MESH").
    { unfold is_child_mesh in Hk. apply andb_true_iff in Hk.
      destruct Hk as [_ Hk]. apply String.eqb_eq in Hk.
      destruct Hcase as [->| ->]; exact Hk. }
    assert (Hfind : find_mesh (base + 3 * j + 1)
                      (upd_obj tgt (with_name "Swimmer") (load_nodes nodes s))
                    = find (fun b => me_id b =? base + 3 * j + 1)
                           (flat_map (node_meshes base) (indexed nodes))).
    { unfold find_mesh, upd_obj, load_nodes. cbn [meshes set_objects].
      apply find_app_none, find_none_iff. intros b Hb.
      apply fresh_mesh in Hb. apply Nat.eqb_neq. fold base in Hb. lia. }
    assert (Hb : exists b, find_mesh (base + 3 * j + 1)
                   (upd_obj tgt (with_name "Swimmer") (load_nodes nodes s))
                 = Some b).
    { rewrite Hfind.
      apply (find_present _ _ (mkMesh (base + 3 * j + 1) (fn_polygons m) 0)).
      - apply in_flat_map. exists (j, m).
        split; [exact Hp|]. cbn [node_meshes]. rewrite Htype.
        cbn. now left.
      - cbn [me_id]. apply Nat.eqb_refl. }
    destruct Hb as [b Hb].
    assert (Hd : ob_data (node_object base (j, m)) = Some (base + 3 * j + 1)).
    { cbn [node_object ob_data]. now rewrite Htype. }
    assert (Hu : forall b', find_mesh (base + 3 * j + 1)
                   (upd_obj tgt (with_name "Swimmer") (load_nodes nodes s))
                 = Some b' -> me_other_users b' = 0).
    { intros b' Hb'. rewrite Hfind in Hb'. apply find_some in Hb'.
      destruct Hb' as [Hb' _]. apply in_flat_map in Hb'.
      destruct Hb' as ([k x] & _ & Hb'). cbn [node_meshes] in Hb'.
      destruct (fn_type x ==s "MESH"); [|contradiction].
      destruct Hb' as [<-|[]]. reflexivity. }
    destruct Hcase as [->| ->]; cbn [with_name ob_modifiers ob_data ob_id];
      (split; [split; [exact Hst|split; [exact Hfree|]]|split; [exact Hd|exact Hu]]);
      exists (base + 3 * j + 1), b; (split; [exact Hd|exact Hb]).
  - intros o ad t Ho Ha Ht. destruct (Hobjs o Ho) as (p & Hp & [->| ->]);
      cbn [with_name ob_anim] in Ha;
      rewrite (loaded_tracks _ _ _ Ha) in Ht; contradiction.
Qed.

Local Abbreviation output_path := (path_join script_dir OUTPUT_FILE).

(** ** What one animation file leaves behind *)








Lemma nla_tracks_new_without_data id s o :
  get_obj id s = Some o -> ob_anim o = None ->
  nla_tracks_new id s = Raise AttributeError s.
Proof.
  intros Hg Ha. unfold nla_tracks_new, bind.
  now rewrite (deref_ok _ _ _ Hg), Ha.
Qed.

(** C9. On a target that has no animation data yet, creating a track
    right away would fail on the attribute access; [extract_animation]
    creates the animation data first, so the first attachment goes
    through: the target ends with animation data that binds no action and
    whose track stack is the new track alone. *)
Theorem extract_animation_creates_animation_data
    path name tgt s nodes n nm frames t :
  fbx path = Some nodes ->
  find (fun m => fn_type m ==s "ARMATURE") nodes = Some n ->
  fn_anim n = Bound nm frames ->
  get_obj tgt s = Some t ->
  ob_anim t = None ->
  nla_tracks_new tgt s = Raise AttributeError s /\
  exists s',
    extract_animation fbx path name tgt s = Ok tt s' /\
    get_obj tgt s'
    = Some (with_anim
              (Some (mkAnimData None
                       [mkTrack name true
                          [mkStrip name 0%Z (fresh (load_nodes nodes s))]])) t).
Proof.
  intros Hf Hn Ha Ht Hnone.
  split; [now apply (nla_tracks_new_without_data tgt s t)|].
  destruct (extract_animation_spec path name tgt s nodes t Hf Ht)
    as (s' & Hrun & _ & _ & _ & _ & Hcase).
  rewrite Hn, Ha in Hcase. cbv zeta in Hcase.
  destruct Hcase as (_ & Hobj & _).
  exists s'. split; [exact Hrun|].
  unfold get_obj. rewrite Hobj.
  rewrite (upd_first_found _ _ _ t Ht).
  - unfold attached_anim, anim_or_empty. rewrite Hnone. reflexivity.
  - cbn [with_anim ob_id]. apply Nat.eqb_eq. now apply (get_obj_in _ _ _ Ht).
Qed.

(** C10. When the first armature of the file has no action bound (no
    animation data, or animation data without an action), the target is
    left as it was and so is every other object of the scene, which holds
    none of the objects of the file any more; the action collection has
    grown by the actions of the file only, so no duplicate has been made;
    and nothing has been printed. *)
Theorem extract_animation_without_action path name tgt s nodes n t :
  fbx path = Some nodes ->
  find (fun m => fn_type m ==s "ARMATURE") nodes = Some n ->
  fn_anim n = NoAnimData \/ fn_anim n = NoAction ->
  get_obj tgt s = Some t ->
  exists s',
    extract_animation fbx path name tgt s = Ok tt s' /\
    get_obj tgt s' = Some t /\
    objects s' = objects s /\
    (forall i, In i (loaded_ids (fresh s) (indexed nodes)) ->
       ~ In i (map ob_id (objects s'))) /\
    selected s' = [] /\
    actions s' = actions s ++ flat_map (node_actions (fresh s)) (indexed nodes) /\
    stdout s' = stdout s.
Proof.
  intros Hf Hn Ha Ht.
  destruct (extract_animation_spec path name tgt s nodes t Hf Ht)
    as (s' & Hrun & _ & _ & _ & _ & Hcase).
  rewrite Hn in Hcase. destruct Hcase as [Hsel Hcase].
  assert (H : objects s' = objects s /\
              actions s' = actions s
                           ++ flat_map (node_actions (fresh s)) (indexed nodes) /\
              stdout s' = stdout s).
  { destruct Ha as [Ha|Ha]; rewrite Ha in Hcase; exact Hcase. }
  destruct H as (Hobj & Hac & Hso).
  exists s'. split; [exact Hrun|].
  split; [unfold get_obj; now rewrite Hobj|].
  split; [exact Hobj|]. split; [|split; [exact Hsel|split; assumption]].
  intros i Hi Hin. rewrite Hobj in Hin. apply in_map_iff in Hin.
  destruct Hin as (o & <- & Ho). apply fresh_object in Ho.
  apply loaded_ids_ge in Hi. lia.
Qed.

(** ** Runs from scenes that look the same *)






Lemma respects_modify rel f :
  (forall s z, rel s z -> rel (f s) (f z)) -> respects rel (modify f).
Proof. intros H s z Hr. split; [reflexivity|now apply H]. Qed.

Lemma respects_gets {A} rel (f : Host -> A) :
  (forall s z, rel s z -> f s = f z) -> respects rel (gets f).
Proof. intros H s z Hr. split; [now apply H|exact Hr]. Qed.


(** Hosts that look the same, field by field. *)
Ltac same_fields :=
  let o1 := fresh "o" in let sl1 := fresh "sl" in let a1 := fresh "a" in
  let m1 := fresh "m" in let ar1 := fresh "ar" in let ac1 := fresh "ac" in
  let so1 := fresh "so" in let c1 := fresh "c" in let w1 := fresh "w" in
  let o2 := fresh "o" in let sl2 := fresh "sl" in let a2 := fresh "a" in
  let m2 := fresh "m" in let ar2 := fresh "ar" in let ac2 := fresh "ac" in
  let so2 := fresh "so" in let c2 := fresh "c" in let w2 := fresh "w" in
  let H := fresh "H" in
  unfold respects;
  intros [o1 sl1 a1 m1 ar1 ac1 so1 c1 w1] [o2 sl2 a2 m2 ar2 ac2 so2 c2 w2] H;
  unfold same_context, same_scene, scene_of in H; cbn in H;
  lazymatch type of H with
  | _ /\ _ => let H' := fresh "H" in destruct H as [H H']; cbn in H'
  | _ => idtac
  end;
  inversion H; subst; clear H.

Ltac case_split :=
  repeat match goal with
         | |- context [match ?x with _ => _ end] => destruct x eqn:?; cbn
         end.

Ltac same_prim :=
  same_fields;
  unfold same_context, same_scene, scene_of; cbn;
  case_split; cbn; auto.


Lemma strong_print line : respects same_context (print line).
Proof. same_prim. Qed.
































(** ** The blocks that survive the reset *)

Lemma filter_upd_first_const {A} (P q : A -> bool) c (l : list A) x :
  find q l = Some x -> P x = false -> P c = false ->
  filter P (upd_first q (fun _ => c) l) = filter P l.
Proof.
  induction l as [|y l IH]; simpl; [discriminate|].
  destruct (q y); simpl.
  - intros H Hx Hc. inversion H; subst. now rewrite Hx, Hc.
  - intros H Hx Hc. now rewrite IH.
Qed.

Lemma filter_none {A} (P : A -> bool) (l : list A) :
  (forall x, In x l -> P x = false) -> filter P l = [].
Proof.
  intros H. apply nil_of_no_member. intros x Hx. apply filter_In in Hx.
  destruct Hx as [Hx Hp]. rewrite (H x Hx) in Hp. discriminate.
Qed.

Lemma filter_idem {A} (P : A -> bool) (l : list A) :
  filter P (filter P l) = filter P l.
Proof.
  induction l as [|x l IH]; simpl; [reflexivity|].
  destruct (P x) eqn:E; simpl; [now rewrite E, IH|exact IH].
Qed.

Lemma loaded_meshes_unused base idx :
  filter (fun b => negb (me_other_users b =? 0))
         (flat_map (node_meshes base) idx) = [].
Proof.
  apply filter_none. intros b Hb. apply in_flat_map in Hb.
  destruct Hb as ([i n] & _ & Hb). cbn [node_meshes] in Hb.
  destruct (fn_type n ==s "MESH"); [|contradiction].
  now destruct Hb as [<-|[]].
Qed.

Lemma loaded_armatures_unused base idx :
  filter (fun b => negb (ar_other_users b =? 0))
         (flat_map (node_armatures base) idx) = [].
Proof.
  apply filter_none. intros b Hb. apply in_flat_map in Hb.
  destruct Hb as ([i n] & _ & Hb). cbn [node_armatures] in Hb.
  destruct (fn_type n ==s "ARMATURE"); [|contradiction].
  now destruct Hb as [<-|[]].
Qed.

(** The actions of an import keep the fake user the importer gave
    them. *)
Lemma loaded_actions_held base idx :
  held_actions (flat_map (node_actions base) idx)
  = flat_map (node_actions base) idx.
Proof.
  unfold held_actions. induction idx as [|[i n] idx IH]; cbn [flat_map];
    [reflexivity|].
  rewrite filter_app, IH. f_equal. cbn [node_actions].
  now destruct (fn_anim n).
Qed.

Lemma loaded_actions_count base nodes :
  List.length (flat_map (node_actions base) (indexed nodes))
  = bound_actions nodes.
Proof.
  unfold bound_actions.
  rewrite <- (map_snd_indexed nodes) at 2.
  induction (indexed nodes) as [|[i n] idx IH]; cbn [flat_map map filter];
    [reflexivity|].
  rewrite length_app, IH. cbn [snd node_actions]. unfold is_bound.
  now destruct (fn_anim n).
Qed.

Lemma grows_refl s : grows_by [] s s.
Proof. unfold grows_by. now rewrite app_nil_r. Qed.

Lemma grows_trans n1 n2 s s1 s2 :
  grows_by n1 s s1 -> grows_by n2 s1 s2 -> grows_by (n1 ++ n2) s s2.
Proof.
  intros (Hm1 & Har1 & Hac1) (Hm2 & Har2 & Hac2).
  split; [congruence|]. split; [congruence|].
  now rewrite Hac2, Hac1, <- app_assoc.
Qed.

(** Blocks without other users, added at the end of the mesh and armature
    collections, are not among those a user outside the scene keeps. *)
Lemma grows_more new s s' mo aro :
  meshes s' = meshes s ++ mo -> armatures s' = armatures s ++ aro ->
  actions s' = actions s ++ new ->
  filter (fun b => negb (me_other_users b =? 0)) mo = [] ->
  filter (fun b => negb (ar_other_users b =? 0)) aro = [] ->
  grows_by new s s'.
Proof.
  intros Hm Har Hac Em Ear. unfold grows_by, held_meshes, held_armatures.
  now rewrite Hm, Har, !filter_app, Em, Ear, !app_nil_r.
Qed.

Lemma grows_load nodes s :
  grows_by (flat_map (node_actions (fresh s)) (indexed nodes)) s
           (load_nodes nodes s).
Proof.
  apply (grows_more _ s (load_nodes nodes s)
           (flat_map (node_meshes (fresh s)) (indexed nodes))
           (flat_map (node_armatures (fresh s)) (indexed nodes))
           eq_refl eq_refl eq_refl).
  - apply loaded_meshes_unused.
  - apply loaded_armatures_unused.
Qed.

(** What the reset leaves of the three collections. *)
Lemma clear_scene_held s s' :
  clear_scene s = Ok tt s' ->
  meshes s' = held_meshes (meshes s) /\
  armatures s' = held_armatures (armatures s) /\
  actions s' = held_actions (actions s).
Proof.
  intros H. destruct (clear_scene_spec s)
    as (s1 & Hc & _ & _ & _ & _ & _ & Hm & Har & Hac).
  rewrite Hc in H. inversion H; subst s1. repeat split; assumption.
Qed.

(** The actions one animation file adds: those of the file, which keep
    their fake user, and the duplicate when the first armature of the file
    has an action bound. *)
Lemma extract_animation_grows path name tgt s nodes t s' :
  fbx path = Some nodes -> get_obj tgt s = Some t ->
  extract_animation fbx path name tgt s = Ok tt s' ->
  exists new,
    grows_by new s s' /\
    List.length (held_actions new) = bound_actions nodes /\
    List.length new
    = bound_actions nodes
      + match find (fun n => fn_type n ==s "ARMATURE") nodes with
        | Some n => if is_bound n then 1 else 0
        | None => 0
        end.
Proof.
  intros Hf Ht Hrun.
  destruct (extract_animation_spec path name tgt s nodes t Hf Ht)
    as (s1 & Hrun1 & _ & _ & Hm & Har & Hcase).
  rewrite Hrun1 in Hrun. inversion Hrun; subst s1.
  set (orig := flat_map (node_actions (fresh s)) (indexed nodes)) in *.
  assert (Hac : exists extra,
            actions s' = actions s ++ orig ++ extra /\
            held_actions extra = [] /\
            List.length extra
            = match find (fun n => fn_type n ==s "ARMATURE") nodes with
              | Some n => if is_bound n then 1 else 0
              | None => 0
              end).
  { destruct (find (fun n => fn_type n ==s "ARMATURE") nodes) as [n|].
    - destruct Hcase as [_ Hcase]. unfold is_bound.
      destruct (fn_anim n); cbv zeta in Hcase; destruct Hcase as (_ & Hac & _).
      + exists []. now rewrite app_nil_r.
      + exists []. now rewrite app_nil_r.
      + eexists. split; [exact Hac|]. split; reflexivity.
    - destruct Hcase as (_ & _ & Hac & _). exists []. now rewrite app_nil_r. }
  destruct Hac as (extra & Hac & Eheld & Elen).
  exists (orig ++ extra). split; [|split].
  - apply (grows_more _ s s' _ _ Hm Har Hac).
    + apply loaded_meshes_unused.
    + apply loaded_armatures_unused.
  - unfold held_actions in *. rewrite filter_app, Eheld, app_nil_r.
    fold (held_actions orig). unfold orig.
    now rewrite loaded_actions_held, loaded_actions_count.
  - rewrite length_app, Elen. unfold orig. now rewrite loaded_actions_count.
Qed.

Lemma import_entry_grows tgt e s t s' :
  get_obj tgt s = Some t -> import_entry' tgt e s = Ok tt s' ->
  exists new,
    grows_by new s s' /\
    List.length (held_actions new) = entry_imports fbx script_dir e /\
    List.length new
    = entry_imports fbx script_dir e + List.length (attached' [e]).
Proof.
  intros Ht. destruct e as [filename action_name].
  unfold import_entry, path_exists, entry_imports, attached, attaches,
    bound_action.
  cbn [fst filter].
  destruct (fbx (path_join script_dir (filename +s ".fbx"))) as [nodes|] eqn:Hf.
  - unfold bind at 1. unfold print at 1, modify at 1. intros Hrun.
    destruct (extract_animation_grows _ _ _ (add_stdout _ s) nodes t s' Hf Ht
                Hrun) as (new & Hg & Hheld & Hlen).
    exists new. split; [exact Hg|]. split; [exact Hheld|].
    rewrite Hlen. f_equal.
    destruct (find (fun n => fn_type n ==s "ARMATURE") nodes) as [n|];
      [|reflexivity].
    unfold is_bound. now destruct (fn_anim n).
  - intros H. inversion H. exists []. split; [|split; reflexivity].
    unfold grows_by. cbn [meshes armatures actions add_stdout].
    now rewrite app_nil_r.
Qed.

Lemma attached_cons e es :
  List.length (attached' (e :: es))
  = List.length (attached' [e]) + List.length (attached' es).
Proof.
  unfold attached. cbn [filter]. now destruct (attaches fbx script_dir e).
Qed.

Lemma import_entries_grows tgt es : forall s t s',
  scene_ok tgt s -> get_obj tgt s = Some t ->
  for_each es (import_entry' tgt) s = Ok tt s' ->
  exists new,
    grows_by new s s' /\
    List.length (held_actions new)
    = list_sum (map (entry_imports fbx script_dir) es) /\
    List.length new
    = list_sum (map (entry_imports fbx script_dir) es)
      + List.length (attached' es).
Proof.
  induction es as [|e es IH]; intros s t s' Hok Ht Hrun.
  - inversion Hrun. exists []. split; [apply grows_refl|]. split; reflexivity.
  - destruct (import_entry_spec tgt e s t Hok Ht)
      as (s1 & t1 & Hrun1 & Hok1 & Ht1 & _).
    cbn [for_each] in Hrun. unfold bind in Hrun. rewrite Hrun1 in Hrun.
    destruct (import_entry_grows tgt e s t s1 Ht Hrun1)
      as (n1 & Hg1 & Hh1 & Hl1).
    destruct (IH s1 t1 s' Hok1 Ht1 Hrun) as (n2 & Hg2 & Hh2 & Hl2).
    exists (n1 ++ n2). split; [now apply (grows_trans n1 n2 s s1 s')|].
    change (list_sum (map (entry_imports fbx script_dir) (e :: es)))
      with (entry_imports fbx script_dir e
            + list_sum (map (entry_imports fbx script_dir) es)).
    split.
    + unfold held_actions in *. rewrite filter_app, length_app.
      now rewrite Hh1, Hh2.
    + rewrite length_app, Hl1, Hl2, (attached_cons e es). lia.
Qed.

Lemma optimize_mesh_grows id d o b s s' :
  get_obj id s = Some o -> ob_data o = Some d -> find_mesh d s = Some b ->
  stack_ok (ob_modifiers o) -> decimate_free (ob_modifiers o) ->
  me_other_users b = 0 ->
  optimize_mesh apply_polygons id s = Ok tt s' ->
  grows_by [] s s'.
Proof.
  intros Ho Hd Hb Hnd Hfree Hu Hrun.
  rewrite (optimize_mesh_spec id d o b s Ho Hd Hb Hnd Hfree) in Hrun.
  injection Hrun as E.
  match type of E with
  | set_selected ?f (during _ _ _ _ (set_selected ?g (set_active ?a _))
                            ?mods ?p ?cs) = _ =>
      destruct (optimized_fields id d o b s f g a mods p cs)
        as (_ & Em & _ & Eac & Ear & _)
  end.
  cbv zeta in Em, Eac, Ear. rewrite E in Em, Eac, Ear.
  unfold grows_by, held_meshes. rewrite Em, Eac, Ear, app_nil_r.
  split; [|split; reflexivity].
  apply (filter_upd_first_const _ _ _ _ b Hb).
  - now rewrite Hu.
  - cbn [with_polygons me_other_users]. now rewrite Hu.
Qed.

Lemma optimize_loop_grows (l : list Object) : forall s s',
  NoDup (map ob_id l) -> NoDup (map ob_data l) ->
  (forall o, In o l -> get_obj (ob_id o) s = Some o /\ mesh_ready s o) ->
  (forall o d b, In o l -> ob_data o = Some d -> find_mesh d s = Some b ->
     me_other_users b = 0) ->
  for_each l (fun mesh => optimize_mesh apply_polygons (ob_id mesh)) s
  = Ok tt s' ->
  grows_by [] s s'.
Proof.
  induction l as [|o l IH]; intros s s' Hids Hdata Hready Hown Hrun.
  - inversion Hrun. apply grows_refl.
  - cbn [map] in Hids, Hdata.
    inversion Hids as [|? ? Hid_notin Hids']; subst.
    inversion Hdata as [|? ? Hd_notin Hdata']; subst.
    destruct (Hready o (or_introl eq_refl))
      as (Ho & Hnd & Hfree & d & b & Hd & Hb).
    destruct (optimize_mesh_frame (ob_id o) d o b s Ho Hd Hb Hnd Hfree)
      as (s1 & Hrun1 & _ & _ & Hfo & Hfm & _).
    cbn [for_each] in Hrun. unfold bind in Hrun. rewrite Hrun1 in Hrun.
    assert (Hned : forall x dx, In x l -> ob_data x = Some dx -> dx <> d).
    { intros x dx Hx Hdx E. apply Hd_notin. rewrite Hd, <- E, <- Hdx.
      now apply in_map. }
    apply (grows_trans [] [] s s1 s').
    + apply (optimize_mesh_grows (ob_id o) d o b s s1 Ho Hd Hb Hnd Hfree);
        [|exact Hrun1].
      apply (Hown o d b (or_introl eq_refl) Hd Hb).
    + apply (IH s1 s' Hids' Hdata'); [| |exact Hrun].
      * intros x Hx.
        destruct (Hready x (or_intror Hx))
          as (Hgx & Hndx & Hfreex & dx & bx & Hdx & Hbx).
        split.
        -- rewrite Hfo; [exact Hgx|]. intros E. apply Hid_notin. rewrite <- E.
           now apply in_map.
        -- split; [exact Hndx|split; [exact Hfreex|]].
           exists dx, bx. split; [exact Hdx|].
           rewrite Hfm; [exact Hbx|]. now apply (Hned x).
      * intros x dx bx Hx Hdx Hbx. apply (Hown x dx bx (or_intror Hx) Hdx).
        rewrite <- Hfm; [exact Hbx|]. now apply (Hned x).
Qed.

(** The run on a disk that holds a character file with an armature whose
    nodes have well-formed modifier stacks: the script runs to its end,
    whatever animation files the disk holds. *)
Lemma main_completes s nodes n :
  fbx character_path = Some nodes ->
  find (fun m => fn_type m ==s "ARMATURE") nodes = Some n ->
  Forall node_ok nodes ->
  exists s' swimmer,
    run_main s = Ok tt s' /\
    stdout s'
    = stdout s ++ ["Importing character: " +s character_path]
      ++ flat_map entry_lines' ANIMATIONS
      ++ ["Optimizing model..."; "Exporting to: " +s output_path;
          "Exported: " +s output_path; "Done!"] /\
    written s'
    = (output_path,
       mkAsset gltf_settings (objects s') (meshes s') (armatures s') (actions s'))
      :: filter (fun p => negb (fst p ==s output_path)) (written s) /\
    all_muted (objects s') /\
    In swimmer (objects s') /\
    ob_name swimmer = "Swimmer" /\ ob_type swimmer = "ARMATURE" /\
    Forall2 (is_attached_track' (actions s')) (attached' ANIMATIONS)
            (ad_tracks (anim_or_empty swimmer)) /\
    exists new,
      held_meshes (meshes s') = held_meshes (meshes s) /\
      held_armatures (armatures s') = held_armatures (armatures s) /\
      actions s' = held_actions (actions s) ++ new /\
      List.length (held_actions new) = run_imports fbx script_dir nodes /\
      List.length new
      = run_imports fbx script_dir nodes + List.length (attached' ANIMATIONS).
Proof.
  intros Hpres Harm Hnodes.
  destruct (clear_scene_spec s)
    as (s1 & Hc & Hobj1 & Hsel1 & Hout1 & Hcalls1 & Hwr1 & _).
  destruct (first_of_type _ _ _ Harm) as (i & Hfi & Hin).
  set (s1p := add_stdout ("Importing character: " +s character_path) s1).
  pose proof (import_fbx_spec character_path nodes s1p Hpres) as Hi.
  cbv zeta in Hi. rewrite Hfi in Hi. cbn [option_map fst] in Hi.
  set (s2 := load_nodes nodes (add_call (CallImportFbx character_path) s1p)) in *.
  set (tgt := fresh s1p + 3 * i) in *.
  set (t2 := node_object (fresh s1p) (i, n)).
  assert (Ht2 : get_obj tgt s2 = Some t2).
  { apply (get_obj_loaded nodes (add_call (CallImportFbx character_path) s1p)
             (i, n) Hin). }
  set (s3 := upd_obj tgt (with_name "Swimmer") s2).
  set (t3 := with_name "Swimmer" t2).
  assert (Ht3 : get_obj tgt s3 = Some t3).
  { now apply get_obj_upd_same. }
  assert (Hok3 : scene_ok tgt s3).
  { apply (scene_ok_character (add_call (CallImportFbx character_path) s1p)
             nodes i n); [exact Hobj1|exact Hnodes|exact Hin]. }
  destruct (import_entries_spec tgt ANIMATIONS s3 t3 Hok3 Ht3)
    as (s4 & t4 & Hrun4 & Hok4 & Ht4 & Hso4 & Hc4 & Hw4 & Hsame4 & Hact4
        & Hincl4 & new & Htr4 & Hnew4).
  set (s4p := add_stdout "Optimizing model..." s4).
  destruct Hok4 as (Hnd4 & Hkids4 & Hmute4).
  set (kids := filter (is_child_mesh tgt) (objects s4p)).
  assert (Hk_ids : NoDup (map ob_id kids)) by now apply filter_keeps_distinct.
  assert (Hk_data : NoDup (map ob_data kids)).
  { assert (E : map ob_data kids = map (fun o => Some (ob_id o + 1)) kids).
    { apply map_ext_in. intros o Ho. apply filter_In in Ho.
      destruct Ho as [Ho Hk]. now destruct (Hkids4 o Ho Hk) as (_ & Hd & _). }
    rewrite E. clear E.
    assert (Hk : NoDup (map ob_id kids)) by now apply filter_keeps_distinct.
    induction kids as [|k kids IH]; [constructor|].
    cbn [map] in *. inversion Hk as [|? ? Hnotin Hk']; subst.
    constructor; [|now apply IH].
    intros H. apply in_map_iff in H. destruct H as (x & E & Hx).
    apply Hnotin. inversion E as [E']. replace (ob_id k) with (ob_id x) by lia.
    now apply in_map. }
  assert (Hk_ready : forall o, In o kids ->
            get_obj (ob_id o) s4p = Some o /\ mesh_ready s4p o).
  { intros o Ho. apply filter_In in Ho. destruct Ho as [Ho Hk]. split.
    - now apply get_obj_NoDup.
    - now destruct (Hkids4 o Ho Hk) as (Hr & _). }
  assert (Hk_own : forall o d b, In o kids -> ob_data o = Some d ->
            find_mesh d s4p = Some b -> me_other_users b = 0).
  { intros o d b Ho Hd Hb. apply filter_In in Ho. destruct Ho as [Ho Hk].
    destruct (Hkids4 o Ho Hk) as (_ & Hd' & Hu). rewrite Hd' in Hd.
    inversion Hd; subst d. now apply Hu. }
  destruct (optimize_loop kids s4p Hk_ids Hk_data Hk_ready)
    as (s5 & Hrun5 & _ & Hfo5 & _ & _ & Hobj5 & _ & Hac5 & _ & Hso5 & Hw5).
  assert (Ht5 : get_obj tgt s5 = Some t4).
  { rewrite Hfo5; [exact Ht4|]. intros H. apply in_map_iff in H.
    destruct H as (k & E & Hk). apply filter_In in Hk. destruct Hk as [Hk Hc'].
    assert (k = t4).
    { apply (NoDup_map_eq ob_id (objects s4)); [exact Hnd4|exact Hk| |].
      - now apply (get_obj_in _ _ _ Ht4).
      - rewrite E. symmetry. now apply (get_obj_in _ _ _ Ht4). }
    subst k. unfold is_child_mesh in Hc'. apply andb_true_iff in Hc'.
    destruct Hc' as [_ Hc']. apply String.eqb_eq in Hc'.
    assert (Hty : ob_type t4 = ob_type t3).
    { change (ob_type (with_anim None t4) = ob_type (with_anim None t3)).
      now rewrite Hsame4. }
    rewrite Hty in Hc'. unfold t3, t2 in Hc'. cbn [with_name ob_type] in Hc'.
    rewrite node_object_type in Hc'. cbn [snd] in Hc'.
    apply find_some in Harm. destruct Harm as [_ Harm].
    apply String.eqb_eq in Harm. rewrite Harm in Hc'. discriminate. }
  set (s' := add_stdout "Done!"
               (add_stdout ("Exported: " +s output_path)
                  (set_written (fun w =>
                      (output_path,
                       mkAsset gltf_settings (objects s5) (meshes s5)
                               (armatures s5) (actions s5))
                      :: filter (fun p => negb (fst p ==s output_path)) w)
                     (add_call (CallExportGltf output_path)
                        (add_stdout ("Exporting to: " +s output_path) s5))))).
  exists s', t4.
  split.
  { unfold main. unfold bind at 1. rewrite Hc.
    unfold bind at 1. unfold path_exists. rewrite Hpres.
    cbn [negb when]. unfold ret at 1.
    unfold bind at 1. unfold print at 1, modify at 1.
    unfold bind at 1. fold s1p. rewrite Hi.
    unfold main_with. unfold bind at 1. unfold set_name.
    unfold bind at 1. rewrite (deref_ok _ _ _ Ht2). unfold modify at 1.
    fold s3. unfold bind at 1. rewrite Hrun4.
    unfold bind at 1. unfold print at 1, modify at 1. fold s4p.
    unfold bind at 1. unfold optimize_model.
    unfold bind at 1. unfold gets at 1. fold kids. rewrite Hrun5.
    unfold s', export_glb, export_scene_gltf, bind, print, modify.
    reflexivity. }
  split.
  { unfold s'. cbn [stdout add_stdout set_written add_call].
    rewrite Hso5. unfold s4p. cbn [stdout add_stdout]. rewrite Hso4.
    unfold s3, s2, s1p, upd_obj, load_nodes.
    cbn [stdout add_stdout set_objects add_call]. rewrite Hout1.
    rewrite <- !app_assoc. reflexivity. }
  split.
  { unfold s'. cbn [written objects meshes armatures actions add_stdout
                    set_written add_call].
    rewrite Hw5. unfold s4p. cbn [written add_stdout]. rewrite Hw4.
    unfold s3, s2, s1p, upd_obj, load_nodes.
    cbn [written add_stdout set_objects add_call]. now rewrite Hwr1. }
  split.
  { unfold s'. cbn [objects add_stdout set_written add_call].
    now apply (all_muted_same (objects s4p)). }
  split.
  { unfold s'. cbn [objects add_stdout set_written add_call].
    now apply (get_obj_in _ _ _ Ht5). }
  assert (Hname : ob_name t4 = ob_name t3).
  { change (ob_name (with_anim None t4) = ob_name (with_anim None t3)).
    now rewrite Hsame4. }
  assert (Hty : ob_type t4 = ob_type t3).
  { change (ob_type (with_anim None t4) = ob_type (with_anim None t3)).
    now rewrite Hsame4. }
  split; [now rewrite Hname|]. split.
  { rewrite Hty. unfold t3, t2. cbn [with_name ob_type].
    rewrite node_object_type. cbn [snd].
    apply find_some in Harm. destruct Harm as [_ Harm].
    now apply String.eqb_eq in Harm. }
  unfold s'. cbn [actions add_stdout set_written add_call].
  rewrite Hac5. unfold s4p. cbn [actions add_stdout].
  rewrite Htr4.
  assert (E : ad_tracks (anim_or_empty t3) = []).
  { unfold anim_or_empty, t3. cbn [with_name ob_anim].
    destruct (ob_anim t2) as [ad|] eqn:Ha; [|reflexivity].
    exact (loaded_tracks _ _ _ Ha). }
  split; [rewrite E; exact Hnew4|].
  destruct (clear_scene_held s s1 Hc) as (Hm1 & Har1 & Hac1).
  pose proof (grows_load nodes (add_call (CallImportFbx character_path) s1p))
    as Hg2.
  destruct (import_entries_grows tgt ANIMATIONS s3 t3 s4 Hok3 Ht3 Hrun4)
    as (new4 & Hg4 & Hh4 & Hl4).
  pose proof (optimize_loop_grows kids s4p s5 Hk_ids Hk_data Hk_ready Hk_own
                Hrun5) as Hg5.
  set (new2 := flat_map (node_actions
                           (fresh (add_call (CallImportFbx character_path) s1p)))
                        (indexed nodes)) in *.
  assert (Hg : grows_by ((new2 ++ new4) ++ []) s1 s5).
  { apply (grows_trans _ _ s1 s4p s5); [|exact Hg5].
    apply (grows_trans _ _ s1 s3 s4p); [exact Hg2|exact Hg4]. }
  rewrite app_nil_r in Hg. destruct Hg as (Hm & Har & Hac).
  exists (new2 ++ new4). unfold s'.
  cbn [meshes armatures actions add_stdout set_written add_call].
  split; [|split; [|split; [|split]]].
  - rewrite Hm, Hm1. unfold held_meshes. apply filter_idem.
  - rewrite Har, Har1. unfold held_armatures. apply filter_idem.
  - change (actions s4) with (actions s4p). now rewrite <- Hac5, Hac, Hac1.
  - unfold run_imports, held_actions in *. rewrite filter_app, length_app, Hh4.
    fold (held_actions new2). unfold new2.
    now rewrite loaded_actions_held, loaded_actions_count.
  - unfold run_imports. rewrite length_app, Hl4. unfold new2.
    rewrite loaded_actions_count. lia.
Qed.

(** ** The claims about a whole run *)

(** C2. On a disk with a usable character file, the run ends with an
    output file in which the armature named ["Swimmer"] carries one track
    per entry whose file is there and whose first armature has an action
    bound, in the order of the mapping, and no other track.  The track of
    an entry has the name of the entry, is muted, and holds one strip, at
    frame 0, whose action is a block distinct from the action that came
    bound in the file, with the frames of that action and the name of the
    entry.  Every track of every object of the output is muted. *)
Theorem attached_tracks_are_muted s nodes n :
  fbx character_path = Some nodes ->
  find (fun m => fn_type m ==s "ARMATURE") nodes = Some n ->
  Forall node_ok nodes ->
  exists s' asset swimmer,
    run_main s = Ok tt s' /\
    written s'
    = (output_path, asset)
      :: filter (fun p => negb (fst p ==s output_path)) (written s) /\
    In swimmer (as_objects asset) /\
    ob_name swimmer = "Swimmer" /\ ob_type swimmer = "ARMATURE" /\
    Forall2 (is_attached_track' (as_actions asset)) (attached' ANIMATIONS)
            (ad_tracks (anim_or_empty swimmer)) /\
    all_muted (as_objects asset).
Proof.
  intros Hpres Harm Hnodes.
  destruct (main_completes s nodes n Hpres Harm Hnodes)
    as (s' & swimmer & Hrun & _ & Hw & Hmute & Hin & Hname & Hty & Htracks
        & _).
  exists s', (mkAsset gltf_settings (objects s') (meshes s') (armatures s')
                      (actions s')), swimmer.
  cbn [as_objects as_actions]. repeat split; assumption.
Qed.

(** C4, as the code has it.  On a disk with a usable character file, take
    an entry whose file is there and whose first armature has no action
    bound.  The run completes with exit status 0; for that entry it prints
    the line that announces the import and nothing else, so no warning;
    and the entry is not among those that end in a track of the armature
    named ["Swimmer"]. *)
Theorem run_completes_without_action s nodes n e nodes' m :
  fbx character_path = Some nodes ->
  find (fun x => fn_type x ==s "ARMATURE") nodes = Some n ->
  Forall node_ok nodes ->
  In e ANIMATIONS ->
  fbx (path_join script_dir (fst e +s ".fbx")) = Some nodes' ->
  find (fun x => fn_type x ==s "ARMATURE") nodes' = Some m ->
  fn_anim m = NoAnimData \/ fn_anim m = NoAction ->
  exists s' swimmer,
    run_main s = Ok tt s' /\
    exit_status (run_main s) = Some 0%Z /\
    entry_lines' e = ["Importing animation: " +s fst e] /\
    stdout s'
    = stdout s ++ ["Importing character: " +s character_path]
      ++ flat_map entry_lines' ANIMATIONS
      ++ ["Optimizing model..."; "Exporting to: " +s output_path;
          "Exported: " +s output_path; "Done!"] /\
    ~ In e (attached' ANIMATIONS) /\
    In swimmer (objects s') /\ ob_name swimmer = "Swimmer" /\
    Forall2 (is_attached_track' (actions s')) (attached' ANIMATIONS)
            (ad_tracks (anim_or_empty swimmer)).
Proof.
  intros Hpres Harm Hnodes He Hf Hm Ha.
  destruct (main_completes s nodes n Hpres Harm Hnodes)
    as (s' & swimmer & Hrun & Hso & _ & _ & Hin & Hname & _ & Htracks & _).
  exists s', swimmer. rewrite Hrun.
  split; [reflexivity|]. split; [reflexivity|]. split.
  { destruct e as [filename action_name]. unfold entry_lines.
    cbn [fst] in Hf. rewrite Hf, Hm. now destruct Ha as [-> | ->]. }
  split; [exact Hso|]. split; [|repeat split; assumption].
  unfold attached. intros H. apply filter_In in H. destruct H as [_ H].
  unfold attaches, bound_action in H. rewrite Hf, Hm in H.
  now destruct Ha as [Ha|Ha]; rewrite Ha in H.
Qed.

(** C5. An entry of the mapping whose file is not on the disk costs one
    line on the output and nothing else: the body of the loop returns
    normally in any scene, so the loop goes on with the entries that
    follow; and on a disk with a usable character file the run completes
    with exit status 0, the lines of all the entries in its output. *)
Theorem missing_animation_is_skipped s nodes n e :
  fbx character_path = Some nodes ->
  find (fun x => fn_type x ==s "ARMATURE") nodes = Some n ->
  Forall node_ok nodes ->
  In e ANIMATIONS ->
  fbx (path_join script_dir (fst e +s ".fbx")) = None ->
  (forall armature rest s0,
     for_each (e :: rest) (import_entry' armature) s0
     = for_each rest (import_entry' armature)
         (add_stdout ("Skipping (not found): " +s fst e) s0)) /\
  entry_lines' e = ["Skipping (not found): " +s fst e] /\
  exists s',
    run_main s = Ok tt s' /\
    exit_status (run_main s) = Some 0%Z /\
    stdout s'
    = stdout s ++ ["Importing character: " +s character_path]
      ++ flat_map entry_lines' ANIMATIONS
      ++ ["Optimizing model..."; "Exporting to: " +s output_path;
          "Exported: " +s output_path; "Done!"].
Proof.
  intros Hpres Harm Hnodes He Hf.
  split; [|split].
  - intros armature rest s0. destruct e as [filename action_name].
    cbn [for_each fst] in *. unfold bind at 1, import_entry at 1, path_exists.
    now rewrite Hf.
  - destruct e as [filename action_name]. unfold entry_lines.
    cbn [fst] in Hf. now rewrite Hf.
  - destruct (main_completes s nodes n Hpres Harm Hnodes)
      as (s' & _ & Hrun & Hso & _).
    exists s'. rewrite Hrun. repeat split. exact Hso.
Qed.

(** C8. The mapping is the seven pairs of the table, in that order; a run
    on a disk with a usable character file goes through them in that
    order, each entry putting first the line that names its file stem; and
    the file it writes is [swimmer.glb] in the directory of the script. *)
Theorem animations_in_order s nodes n :
  fbx character_path = Some nodes ->
  find (fun x => fn_type x ==s "ARMATURE") nodes = Some n ->
  Forall node_ok nodes ->
  let table :=
    [ ("swim_freestyle", "Swimming"); ("swim_breaststroke", "Breaststroke");
      ("swim_backstroke", "Backstroke"); ("swim_butterfly", "Butterfly");
      ("swim_dive", "Diving"); ("swim_turn_flip", "FlipTurn");
      ("swim_turn_open", "OpenTurn") ] in
  ANIMATIONS = table /\ List.length ANIMATIONS = 7 /\
  (forall e, exists rest,
     entry_lines' e = ("Importing animation: " +s fst e) :: rest \/
     entry_lines' e = ["Skipping (not found): " +s fst e]) /\
  exists s',
    run_main s = Ok tt s' /\
    stdout s'
    = stdout s ++ ["Importing character: " +s character_path]
      ++ flat_map entry_lines' table
      ++ ["Optimizing model...";
          "Exporting to: " +s path_join script_dir "swimmer.glb";
          "Exported: " +s path_join script_dir "swimmer.glb"; "Done!"] /\
    map fst (written s')
    = path_join script_dir "swimmer.glb"
      :: map fst (filter (fun p => negb (fst p ==s path_join script_dir "swimmer.glb"))
                         (written s)).
Proof.
  intros Hpres Harm Hnodes table.
  split; [reflexivity|]. split; [reflexivity|]. split.
  - intros [filename action_name]. unfold entry_lines. cbn [fst].
    destruct (fbx (path_join script_dir (filename +s ".fbx"))).
    + eexists. left. reflexivity.
    + exists []. now right.
  - destruct (main_completes s nodes n Hpres Harm Hnodes)
      as (s' & _ & Hrun & Hso & Hw & _).
    exists s'. split; [exact Hrun|]. split; [exact Hso|].
    rewrite Hw. reflexivity.
Qed.

(** ** Two runs *)


Lemma exported_head path a w s :
  written s = (path, a) :: w -> exported path s = Some a.
Proof.
  intros H. unfold exported. rewrite H. cbn [find fst].
  now rewrite String.eqb_refl.
Qed.



(** ** The reset phase on its own *)

(** X1. When [clear_scene] returns, none of the three collections it
    goes through holds a block without a user, and it has removed no
    block that a user outside the scene keeps.  It prints nothing and
    writes no file, however it ends. *)
Theorem clear_scene_leaves_no_orphans s :
  match clear_scene s with
  | Ok _ s' =>
      (forall b, In b (meshes s') -> mesh_users s' b <> 0) /\
      (forall b, In b (armatures s') -> armature_users s' b <> 0) /\
      (forall b, In b (actions s') -> action_users s' b <> 0) /\
      (forall b, In b (meshes s) -> me_other_users b <> 0 ->
         In b (meshes s')) /\
      (forall b, In b (armatures s) -> ar_other_users b <> 0 ->
         In b (armatures s')) /\
      (forall b, In b (actions s) -> ac_other_users b <> 0 ->
         In b (actions s')) /\
      stdout s' = stdout s /\ written s' = written s
  | Raise _ s' => stdout s' = stdout s /\ written s' = written s
  end.
Proof.
  destruct (clear_scene_spec s)
    as (s' & Hrun & Ho & Hsel & Hso & _ & Hw & Hm & Har & Hac).
  rewrite Hrun.
  split; [|split; [|split; [|split; [|split; [|split; [|split]]]]]];
    try assumption.
  - intros b Hb. rewrite Hm in Hb. apply filter_In in Hb.
    destruct Hb as [_ Hb]. apply negb_true_iff, Nat.eqb_neq in Hb.
    unfold mesh_users, refs_data. rewrite Ho. exact Hb.
  - intros b Hb. rewrite Har in Hb. apply filter_In in Hb.
    destruct Hb as [_ Hb]. apply negb_true_iff, Nat.eqb_neq in Hb.
    unfold armature_users, refs_data. rewrite Ho. exact Hb.
  - intros b Hb. rewrite Hac in Hb. apply filter_In in Hb.
    destruct Hb as [_ Hb]. apply negb_true_iff, Nat.eqb_neq in Hb.
    unfold action_users, refs_action. rewrite Ho. exact Hb.
  - intros b Hb Hu. rewrite Hm. apply filter_In. split; [exact Hb|].
    now apply negb_true_iff, Nat.eqb_neq.
  - intros b Hb Hu. rewrite Har. apply filter_In. split; [exact Hb|].
    now apply negb_true_iff, Nat.eqb_neq.
  - intros b Hb Hu. rewrite Hac. apply filter_In. split; [exact Hb|].
    now apply negb_true_iff, Nat.eqb_neq.
Qed.

(** X2. A reset right after a reset changes nothing in the scene: the
    second [clear_scene] finds no object and no block without a user, and
    leaves the object collection, the selection and the three block
    collections as the first one left them. *)
Theorem clear_scene_twice s :
  exists s1 s2,
    clear_scene s = Ok tt s1 /\ clear_scene s1 = Ok tt s2 /\
    scene_of s2 = scene_of s1 /\
    stdout s2 = stdout s /\ written s2 = written s.
Proof.
  destruct (clear_scene_spec s)
    as (s1 & Hrun1 & Ho1 & Hsel1 & Hso1 & _ & Hw1 & Hm1 & Har1 & Hac1).
  destruct (clear_scene_spec s1)
    as (s2 & Hrun2 & Ho2 & Hsel2 & Hso2 & _ & Hw2 & Hm2 & Har2 & Hac2).
  exists s1, s2. split; [exact Hrun1|]. split; [exact Hrun2|].
  split; [|split; congruence].
  unfold scene_of. rewrite Ho2, Hsel2, Hm2, Har2, Hac2, Ho1, Hsel1.
  rewrite Hm1, Har1, Hac1, !filter_idem. reflexivity.
Qed.

(** ** Importing the character *)

Lemma loaded_types base nodes :
  map ob_type (map (node_object base) (indexed nodes)) = map fn_type nodes.
Proof.
  rewrite map_map. rewrite <- (map_snd_indexed nodes) at 2. rewrite map_map.
  apply map_ext. intros [i n]. reflexivity.
Qed.

Lemma nth_error_indexed {A} (l : list A) j :
  nth_error (indexed l) j = option_map (pair j) (nth_error l j).
Proof.
  unfold indexed.
  assert (H : forall k i,
            nth_error (combine (seq k (List.length l)) l) i
            = option_map (pair (k + i)) (nth_error l i)).
  { induction l as [|x l IH]; intros k i; cbn [List.length seq combine].
    - now destruct i.
    - destruct i as [|i]; cbn [nth_error option_map].
      + now rewrite Nat.add_0_r.
      + rewrite IH. now replace (S k + i) with (k + S i) by lia. }
  exact (H 0 j).
Qed.


(** The objects an import creates, one for every node of the file, in the
    order of the file: each has the type of its node and is new to the
    scene. *)
Lemma loaded_objects_new nodes s :
  Forall2 (fun n o => ob_type o = fn_type n /\ get_obj (ob_id o) s = None)
          nodes (map (node_object (fresh s)) (indexed nodes)).
Proof.
  rewrite <- (map_snd_indexed nodes) at 1.
  induction (indexed nodes) as [|[i n] idx IH]; cbn [map]; constructor.
  - split; [reflexivity|]. cbn [node_object ob_id snd].
    destruct (get_obj (fresh s + 3 * i) s) as [o|] eqn:Ho; [|reflexivity].
    apply get_obj_fresh in Ho. lia.
  - exact IH.
Qed.


(** ** A file without an armature *)

(** X4. [extract_animation] on a file that is there and holds no object of
    type ['ARMATURE'], whatever the target is, even one that is no longer
    in the scene: the function prints the warning and returns at once, so
    the objects the importer created for the nodes of the file stay in
    the scene, with those that were there, which are unchanged, and stay
    selected; no action is duplicated, the action collection growing by
    the actions of the file only. *)
Theorem extract_animation_without_armature path name tgt s nodes :
  fbx path = Some nodes ->
  find (fun n => fn_type n ==s "ARMATURE") nodes = None ->
  exists s' more,
    extract_animation fbx path name tgt s = Ok tt s' /\
    stdout s' = stdout s ++ ["Warning: No armature found in " +s path] /\
    Forall2 (fun n o => ob_type o = fn_type n /\ get_obj (ob_id o) s = None)
            nodes more /\
    Permutation (objects s') (objects s ++ more) /\
    Permutation (selected s') (map ob_id more) /\
    (forall i o, get_obj i s = Some o -> get_obj i s' = Some o) /\
    incl (actions s) (actions s') /\
    List.length (actions s') = List.length (actions s) + bound_actions nodes /\
    calls s' = calls s ++ [CallImportFbx path] /\
    written s' = written s.
Proof.
  intros Hf Hn.
  set (s0 := add_call (CallImportFbx path) s).
  set (s1 := load_nodes nodes s0).
  assert (Hrun : extract_animation fbx path name tgt s
                 = Ok tt (add_stdout ("Warning: No armature found in " +s path)
                            s1)).
  { unfold extract_animation, import_scene_fbx. run. rewrite Hf.
    fold s0 s1. unfold s1 at 1.
    rewrite selected_objects_loaded, find_type_loaded.
    now rewrite (none_of_type _ _ Hn). }
  exists (add_stdout ("Warning: No armature found in " +s path) s1),
         (map (node_object (fresh s)) (indexed nodes)).
  split; [exact Hrun|]. split; [reflexivity|].
  split; [apply loaded_objects_new|].
  split; [apply Permutation_refl|].
  split; [rewrite loaded_ids_objects; apply Permutation_refl|].
  split; [intros i o Ho; now apply (get_obj_load_old nodes s0)|].
  split; [apply incl_appl, incl_refl|].
  split; [|split; reflexivity].
  cbn [actions add_stdout s1 load_nodes].
  rewrite length_app. f_equal. apply loaded_actions_count.
Qed.

(** ** The files a run leaves alone *)

Lemma find_other_path (q path : string) (w : list (string * Asset)) :
  q <> path ->
  find (fun p => fst p ==s q) (filter (fun p => negb (fst p ==s path)) w)
  = find (fun p => fst p ==s q) w.
Proof.
  intros Hq. induction w as [|[f a] w IH]; cbn [filter find fst];
    [reflexivity|].
  destruct (String.eqb_spec f path) as [->|Hne]; cbn [negb find fst].
  - destruct (String.eqb_spec path q) as [E|_]; [congruence|exact IH].
  - destruct (f ==s q); [reflexivity|exact IH].
Qed.

(** ** A target that already carries tracks *)

(** X6. [extract_animation] on a target that has animation data already,
    for a file whose first armature has an action bound: the animation
    data is not created anew; the action bound to the target and the
    tracks it carries stay as they are, in their order, and the new
    track comes last, named after the entry, muted, with one strip, at
    frame 0.  The strip holds a block that was not in the action
    collection before and has the frames of the action of the file.
    Nothing else of the target changes. *)
Theorem extract_animation_stacks_track path name tgt s nodes n nm frames t ad :
  fbx path = Some nodes ->
  find (fun m => fn_type m ==s "ARMATURE") nodes = Some n ->
  fn_anim n = Bound nm frames ->
  get_obj tgt s = Some t ->
  ob_anim t = Some ad ->
  exists s' t' track strip,
    extract_animation fbx path name tgt s = Ok tt s' /\
    get_obj tgt s' = Some t' /\
    with_anim None t' = with_anim None t /\
    ob_anim t' = Some (mkAnimData (ad_action ad) (ad_tracks ad ++ [track])) /\
    tr_name track = name /\ tr_mute track = true /\
    tr_strips track = [strip] /\ st_start strip = 0%Z /\
    (exists b, In b (actions s') /\ ac_id b = st_action strip /\
               ac_frames b = frames) /\
    (forall a, In a (actions s) -> ac_id a <> st_action strip) /\
    stdout s' = stdout s ++ ["Added animation: " +s name].
Proof.
  intros Hf Hn Ha Ht Had.
  destruct (extract_animation_spec path name tgt s nodes t Hf Ht)
    as (s' & Hrun & _ & _ & _ & _ & Hcase).
  rewrite Hn, Ha in Hcase. cbv zeta in Hcase.
  destruct Hcase as (_ & Hobj & Hac & Hso).
  set (copy := fresh (load_nodes nodes s)) in *.
  exists s', (with_anim (Some (attached_anim t name copy)) t),
         (attached_track name copy), (mkStrip name 0%Z copy).
  split; [exact Hrun|]. split.
  { unfold get_obj. rewrite Hobj. apply (upd_first_found _ _ _ t Ht).
    cbn [with_anim ob_id]. apply Nat.eqb_eq. now apply (get_obj_in _ _ _ Ht). }
  split; [reflexivity|]. split.
  { unfold attached_anim, anim_or_empty. now rewrite Had. }
  repeat (split; [reflexivity|]).
  split; [|split; [|exact Hso]].
  - exists (mkAction copy name frames 0). split; [|split; reflexivity].
    rewrite Hac. apply in_or_app. right. apply in_or_app. right. now left.
  - intros a Hin. cbn [st_action].
    assert (Hlt : ac_id a < copy).
    { apply fresh_action. unfold load_nodes. cbn [actions].
      apply in_or_app. now left. }
    lia.
Qed.

(** ** A modifier that goes by the name of the decimate modifier *)



Section DecimateName.

Variables (id d : nat) (o : Object) (b : MeshData) (s0 : Host).
Hypothesis Hactive : active s0 = Some id.
Hypothesis Hobj : get_obj id s0 = Some o.
Hypothesis Hdata : ob_data o = Some d.
Hypothesis Hmesh : find_mesh d s0 = Some b.

#[local] Set Default Proof Using "Hactive Hobj Hdata Hmesh".

Local Abbreviation busy := (during id d o b s0).



End DecimateName.




(** ** What the phases before the export leave alone *)

Lemma quiet_ret {A} (a : A) : quiet (ret a).
Proof. intros s. split; [reflexivity|discriminate]. Qed.

Lemma quiet_raise {A} e : (forall c, e <> SystemExit c) -> quiet (@raise A e).
Proof.
  intros He s. split; [reflexivity|]. intros c s' H. inversion H.
  now apply (He c).
Qed.

Lemma quiet_bind {A B} (m : Py A) (k : A -> Py B) :
  quiet m -> (forall a, quiet (k a)) -> quiet (bind m k).
Proof.
  intros Hm Hk s. unfold bind. destruct (Hm s) as [Hw Hx].
  destruct (m s) as [a s1|e s1]; cbn [final] in Hw.
  - destruct (Hk a s1) as [Hw1 Hx1]. split; [congruence|exact Hx1].
  - split; [exact Hw|]. intros c s' H. inversion H; subst.
    now apply (Hx c s').
Qed.

Lemma quiet_for_each {A} (l : list A) (body : A -> Py unit) :
  (forall x, quiet (body x)) -> quiet (for_each l body).
Proof.
  intros Hb. induction l as [|x l IH]; cbn [for_each].
  - apply quiet_ret.
  - apply quiet_bind; [apply Hb|intros _; exact IH].
Qed.

Lemma quiet_when c (body : Py unit) : quiet body -> quiet (when c body).
Proof. intros H. destruct c; [exact H|apply quiet_ret]. Qed.

Lemma quiet_modify f :
  (forall s, written (f s) = written s) -> quiet (modify f).
Proof. intros H s. split; [apply H|discriminate]. Qed.

Lemma quiet_gets {A} (f : Host -> A) : quiet (gets f).
Proof. intros s. split; [reflexivity|discriminate]. Qed.

Ltac quiet_prim :=
  let s := fresh "s" in
  intros s; cbn; case_split;
  (split; [reflexivity|let H := fresh in intros ? ? H; discriminate H]).

Lemma quiet_print line : quiet (print line).
Proof. now apply quiet_modify. Qed.

Lemma quiet_deref id : quiet (deref id).
Proof. unfold deref. quiet_prim. Qed.

Lemma quiet_upd_obj id f : quiet (modify (upd_obj id f)).
Proof. now apply quiet_modify. Qed.

Lemma quiet_import_scene_fbx path : quiet (import_scene_fbx fbx path).
Proof.
  unfold import_scene_fbx. apply quiet_bind; [now apply quiet_modify|].
  intros _. destruct (fbx path).
  - now apply quiet_modify.
  - apply quiet_raise. discriminate.
Qed.

Lemma quiet_objects_remove id : quiet (objects_remove id).
Proof.
  unfold objects_remove. apply quiet_bind; [apply quiet_deref|].
  intros _. now apply quiet_modify.
Qed.

Lemma quiet_action_copy a : quiet (action_copy a).
Proof. unfold action_copy. quiet_prim. Qed.

Lemma quiet_animation_data_create id : quiet (animation_data_create id).
Proof.
  unfold animation_data_create. apply quiet_bind; [apply quiet_deref|].
  intros o. destruct (ob_anim o); [apply quiet_ret|apply quiet_upd_obj].
Qed.

Lemma quiet_nla_tracks_new id : quiet (nla_tracks_new id).
Proof.
  unfold nla_tracks_new. apply quiet_bind; [apply quiet_deref|].
  intros o. destruct (ob_anim o).
  - apply quiet_bind; [apply quiet_upd_obj|intros _; apply quiet_ret].
  - apply quiet_raise. discriminate.
Qed.

Lemma quiet_on_track id track f : quiet (on_track id track f).
Proof.
  unfold on_track. apply quiet_bind; [apply quiet_deref|].
  intros o. destruct (ob_anim o) as [ad|].
  - destruct (track <? List.length (ad_tracks ad)).
    + apply quiet_upd_obj.
    + apply quiet_raise. discriminate.
  - apply quiet_raise. discriminate.
Qed.

Lemma quiet_attach_action a name tgt : quiet (attach_action a name tgt).
Proof.
  unfold attach_action.
  apply quiet_bind; [apply quiet_action_copy|intros copy].
  apply quiet_bind; [now apply quiet_modify|intros _].
  apply quiet_bind; [apply quiet_deref|intros t].
  apply quiet_bind.
  { apply quiet_when, quiet_animation_data_create. }
  intros _. apply quiet_bind; [apply quiet_nla_tracks_new|intros track].
  apply quiet_bind; [apply quiet_on_track|intros _].
  apply quiet_bind; [apply quiet_on_track|intros _].
  apply quiet_bind; [apply quiet_on_track|intros _].
  apply quiet_print.
Qed.

Lemma quiet_extract_animation path name tgt :
  quiet (extract_animation fbx path name tgt).
Proof.
  unfold extract_animation.
  apply quiet_bind; [apply quiet_import_scene_fbx|intros _].
  apply quiet_bind; [apply quiet_gets|intros sel].
  destruct (find (is_type "ARMATURE") sel) as [arm|]; [|apply quiet_print].
  apply quiet_bind.
  { destruct (ob_anim arm) as [[[a|] tracks]|]; try apply quiet_ret.
    apply quiet_attach_action. }
  intros _. apply quiet_bind; [apply quiet_gets|intros sel'].
  apply quiet_for_each. intros obj. apply quiet_objects_remove.
Qed.

Lemma quiet_import_entry tgt e : quiet (import_entry fbx script_dir tgt e).
Proof.
  destruct e as [filename action_name]. unfold import_entry.
  destruct (path_exists fbx _); [|apply quiet_print].
  apply quiet_bind; [apply quiet_print|intros _].
  apply quiet_extract_animation.
Qed.

Lemma quiet_select_set id b : quiet (select_set id b).
Proof. now apply quiet_modify. Qed.

Lemma quiet_polygons id : quiet (polygons id).
Proof.
  unfold polygons. apply quiet_bind; [apply quiet_deref|intros o].
  destruct (ob_data o); [|apply quiet_raise; discriminate].
  quiet_prim.
Qed.

Lemma quiet_modifier_apply name : quiet (modifier_apply apply_polygons name).
Proof.
  unfold modifier_apply. apply quiet_bind; [apply quiet_gets|].
  intros [id|]; [|apply quiet_raise; discriminate].
  apply quiet_bind; [now apply quiet_modify|intros _].
  apply quiet_bind; [apply quiet_deref|intros o].
  destruct (find_modifier name (ob_modifiers o));
    [|apply quiet_raise; discriminate].
  destruct (ob_data o); [|apply quiet_raise; discriminate].
  quiet_prim.
Qed.

Lemma quiet_modifier_add type : quiet (modifier_add type).
Proof.
  unfold modifier_add. apply quiet_bind; [apply quiet_gets|].
  intros [id|]; [|apply quiet_raise; discriminate].
  apply quiet_bind; [now apply quiet_modify|intros _].
  apply quiet_bind; [apply quiet_deref|intros _].
  apply quiet_upd_obj.
Qed.

Lemma quiet_set_ratio id name q : quiet (set_ratio id name q).
Proof.
  unfold set_ratio. apply quiet_bind; [apply quiet_deref|intros o].
  destruct (find_modifier name (ob_modifiers o)) as [m|];
    [|apply quiet_raise; discriminate].
  destruct (md_type m ==s "DECIMATE");
    [apply quiet_upd_obj|apply quiet_raise; discriminate].
Qed.

Lemma quiet_optimize_mesh mesh : quiet (optimize_mesh apply_polygons mesh).
Proof.
  unfold optimize_mesh.
  apply quiet_bind; [now apply quiet_modify|intros _].
  apply quiet_bind; [apply quiet_select_set|intros _].
  apply quiet_bind; [apply quiet_deref|intros o].
  apply quiet_bind.
  { apply quiet_for_each. intros m. apply quiet_when, quiet_modifier_apply. }
  intros _. apply quiet_bind; [apply quiet_polygons|intros p].
  apply quiet_bind; [|intros _; apply quiet_select_set].
  apply quiet_when.
  apply quiet_bind; [apply quiet_modifier_add|intros _].
  apply quiet_bind; [apply quiet_set_ratio|intros _].
  apply quiet_modifier_apply.
Qed.

Lemma quiet_optimize_model tgt : quiet (optimize_model apply_polygons tgt).
Proof.
  unfold optimize_model. apply quiet_bind; [apply quiet_gets|intros objs].
  apply quiet_for_each. intros m. apply quiet_optimize_mesh.
Qed.

Lemma quiet_set_name id name : quiet (set_name id name).
Proof.
  unfold set_name. apply quiet_bind; [apply quiet_deref|intros _].
  apply quiet_upd_obj.
Qed.

Lemma exports_last_after {A B} path (m : Py A) (k : A -> Py B) :
  quiet m -> (forall a, exports_last path (k a)) ->
  exports_last path (bind m k).
Proof.
  intros Hm Hk s. unfold bind. destruct (Hm s) as [Hw Hx].
  destruct (m s) as [a s1|e s1]; cbn [final] in Hw.
  - specialize (Hk a s1). destruct (k a s1) as [b s2|e s2].
    + now rewrite <- Hw.
    + now rewrite <- Hw.
  - split; [exact Hw|]. intros c ->. now apply (Hx c s1).
Qed.

Lemma main_with_exports_last arm :
  exports_last output_path (main_with fbx apply_polygons script_dir arm).
Proof.
  unfold main_with.
  apply exports_last_after; [apply quiet_set_name|intros _].
  apply exports_last_after.
  { apply quiet_for_each. intros e. apply quiet_import_entry. }
  intros _. apply exports_last_after; [apply quiet_print|intros _].
  apply exports_last_after; [apply quiet_optimize_model|intros _].
  apply exports_last_after; [apply quiet_print|intros _].
  intros s. reflexivity.
Qed.

(** The run, up to the point where the armature of the character is at
    hand. *)
Lemma main_start s :
  exists s1,
    clear_scene s = Ok tt s1 /\ written s1 = written s /\
    run_main s
    = match fbx character_path with
      | None =>
          Raise (SystemExit 1%Z)
            (add_stdout
               "Please download a character from Mixamo as 'character.fbx'"
               (add_stdout ("Error: Character file not found: "
                            +s character_path) s1))
      | Some nodes =>
          let s2 := load_nodes nodes
                      (add_call (CallImportFbx character_path)
                         (add_stdout ("Importing character: "
                                      +s character_path) s1)) in
          match find (fun p => fn_type (snd p) ==s "ARMATURE")
                     (indexed nodes) with
          | None =>
              Raise (SystemExit 1%Z)
                (add_stdout "Error: No armature found in character file" s2)
          | Some p =>
              main_with fbx apply_polygons script_dir (fresh s1 + 3 * fst p) s2
          end
      end.
Proof.
  destruct (clear_scene_spec s) as (s1 & Hc & _ & _ & _ & _ & Hw & _).
  exists s1. split; [exact Hc|]. split; [exact Hw|].
  unfold main. unfold bind at 1. rewrite Hc.
  unfold bind at 1. unfold path_exists.
  destruct (fbx character_path) as [nodes|] eqn:Hf; [|reflexivity].
  cbn [negb when]. unfold ret at 1.
  unfold bind at 1. unfold print at 1, modify at 1. unfold bind at 1.
  rewrite (import_fbx_spec character_path nodes _ Hf).
  change (fresh (add_stdout ("Importing character: " +s character_path) s1))
    with (fresh s1).
  cbv zeta.
  destruct (find (fun p => fn_type (snd p) ==s "ARMATURE") (indexed nodes));
    reflexivity.
Qed.

(** X8. Whatever the disk and the session hold, a run writes nothing
    before its last step: when it stops early, on [sys.exit] or on an
    exception of the host, the files are those that were there before,
    an output file of an earlier run included; and when it runs to its
    end, it has replaced the file [swimmer.glb] of the script directory by
    an export of the scene it ends in, and touched no other file. *)
Theorem main_writes_at_the_end s :
  match run_main s with
  | Ok _ s' =>
      written s'
      = (output_path,
         mkAsset gltf_settings (objects s') (meshes s') (armatures s')
                 (actions s'))
        :: filter (fun p => negb (fst p ==s output_path)) (written s) /\
      forall q, q <> output_path -> exported q s' = exported q s
  | Raise _ s' => written s' = written s
  end.
Proof.
  destruct (main_start s) as (s1 & _ & Hw & Hrun). rewrite Hrun.
  destruct (fbx character_path) as [nodes|]; [|exact Hw].
  cbv zeta.
  destruct (find (fun p => fn_type (snd p) ==s "ARMATURE") (indexed nodes))
    as [p|]; [|exact Hw].
  match goal with
  | |- context [main_with _ _ _ ?a ?x] =>
      pose proof (main_with_exports_last a x) as Hlast;
      change (written x) with (written s1) in Hlast;
      destruct (main_with fbx apply_polygons script_dir a x) as [[] s'|e s']
  end.
  - rewrite Hw in Hlast. split; [exact Hlast|].
    intros q Hq. unfold exported. rewrite Hlast. cbn [find fst].
    destruct (String.eqb_spec output_path q) as [E|_]; [congruence|].
    now rewrite find_other_path.
  - rewrite <- Hw. exact (proj1 Hlast).
Qed.

(** X9. Whatever the disk and the session hold, the run calls
    [sys.exit(1)] exactly when [character.fbx] is not there or holds no
    object of type ['ARMATURE']; nothing after that point calls
    [sys.exit], so the only exit statuses the script itself produces are
    0, at the end of a complete run, and 1. *)
Theorem main_exit_status s :
  (exit_status (run_main s) = Some 1%Z <->
   fbx character_path = None \/
   exists nodes, fbx character_path = Some nodes /\
                 find (fun n => fn_type n ==s "ARMATURE") nodes = None) /\
  (forall c, exit_status (run_main s) = Some c -> c = 0%Z \/ c = 1%Z).
Proof.
  destruct (main_start s) as (s1 & _ & _ & Hrun). rewrite Hrun. clear Hrun.
  destruct (fbx character_path) as [nodes|].
  2:{ cbn [exit_status]. split.
      - split; [intros _; now left|reflexivity].
      - intros c E. inversion E. now right. }
  cbv zeta.
  pose proof (find_indexed (fun n => fn_type n ==s "ARMATURE") nodes) as Hfi.
  destruct (find (fun p => fn_type (snd p) ==s "ARMATURE") (indexed nodes))
    as [p|]; cbn [option_map] in Hfi.
  2:{ cbn [exit_status]. split.
      - split; [intros _; right; now exists nodes|reflexivity].
      - intros c E. inversion E. now right. }
  match goal with
  | |- context [main_with _ _ _ ?a ?x] =>
      pose proof (main_with_exports_last a x) as Hlast;
      destruct (main_with fbx apply_polygons script_dir a x) as [[] s'|e s']
  end.
  - cbn [exit_status]. split.
    + split; [discriminate|].
      intros [H|(nodes' & H & Hnone)]; [discriminate|].
      inversion H; subst nodes'. rewrite Hnone in Hfi. discriminate.
    + intros c E. inversion E. now left.
  - destruct Hlast as [_ Hne].
    assert (Hnone : exit_status (@Raise unit e s') = None).
    { destruct e; try reflexivity. now destruct (Hne code). }
    rewrite Hnone. split.
    + split; [discriminate|].
      intros [H|(nodes' & H & Hnone')]; [discriminate|].
      inversion H; subst nodes'. rewrite Hnone' in Hfi. discriminate.
    + discriminate.
Qed.

(** ** The objects of the output *)

Lemma keeps_types_ret {A} (a : A) : keeps_types (ret a).
Proof. intros s. reflexivity. Qed.

Lemma keeps_types_raise {A} e : keeps_types (@raise A e).
Proof. intros s. reflexivity. Qed.

Lemma keeps_types_bind {A B} (m : Py A) (k : A -> Py B) :
  keeps_types m -> (forall a, keeps_types (k a)) -> keeps_types (bind m k).
Proof.
  intros Hm Hk s. unfold bind. specialize (Hm s).
  destruct (m s) as [a s1|e s1]; cbn [final] in Hm; [|exact Hm].
  now rewrite (Hk a s1).
Qed.

Lemma keeps_types_for_each {A} (l : list A) (body : A -> Py unit) :
  (forall x, keeps_types (body x)) -> keeps_types (for_each l body).
Proof.
  intros Hb. induction l as [|x l IH]; cbn [for_each].
  - apply keeps_types_ret.
  - apply keeps_types_bind; [apply Hb|intros _; exact IH].
Qed.

Lemma keeps_types_when c (body : Py unit) :
  keeps_types body -> keeps_types (when c body).
Proof. intros H. destruct c; [exact H|apply keeps_types_ret]. Qed.

Lemma keeps_types_modify f :
  (forall s, map ob_type (objects (f s)) = map ob_type (objects s)) ->
  keeps_types (modify f).
Proof. intros H s. apply H. Qed.

Lemma keeps_types_gets {A} (f : Host -> A) : keeps_types (gets f).
Proof. intros s. reflexivity. Qed.

Lemma keeps_types_deref id : keeps_types (deref id).
Proof. intros s. unfold deref. now destruct (get_obj id s). Qed.

Lemma keeps_types_restack id (f : Object -> list Modifier) :
  keeps_types (modify (upd_obj id (fun o => with_modifiers (f o) o))).
Proof.
  apply keeps_types_modify. intros s. unfold upd_obj. cbn [objects set_objects].
  now apply map_upd_first.
Qed.

Lemma keeps_types_polygons id : keeps_types (polygons id).
Proof.
  unfold polygons. apply keeps_types_bind; [apply keeps_types_deref|].
  intros o. destruct (ob_data o) as [d|]; [|apply keeps_types_raise].
  intros s. now destruct (find_mesh d s).
Qed.

Lemma keeps_types_modifier_apply name :
  keeps_types (modifier_apply apply_polygons name).
Proof.
  unfold modifier_apply. apply keeps_types_bind; [apply keeps_types_gets|].
  intros [id|]; [|apply keeps_types_raise].
  apply keeps_types_bind; [now apply keeps_types_modify|intros _].
  apply keeps_types_bind; [apply keeps_types_deref|intros o].
  destruct (find_modifier name (ob_modifiers o)) as [m|];
    [|apply keeps_types_raise].
  destruct (ob_data o) as [d|]; [|apply keeps_types_raise].
  intros s. destruct (find_mesh d s) as [b|]; [|reflexivity].
  cbn [final]. unfold upd_obj, upd_mesh. cbn [objects set_objects set_meshes].
  now apply map_upd_first.
Qed.

Lemma keeps_types_modifier_add type : keeps_types (modifier_add type).
Proof.
  unfold modifier_add. apply keeps_types_bind; [apply keeps_types_gets|].
  intros [id|]; [|apply keeps_types_raise].
  apply keeps_types_bind; [now apply keeps_types_modify|intros _].
  apply keeps_types_bind; [apply keeps_types_deref|intros _].
  apply (keeps_types_restack id
           (fun o => ob_modifiers o ++
              [mkModifier (unique_name (default_name type)
                                       (map md_name (ob_modifiers o)))
                          type 1%Q])).
Qed.

Lemma keeps_types_set_ratio id name q : keeps_types (set_ratio id name q).
Proof.
  unfold set_ratio. apply keeps_types_bind; [apply keeps_types_deref|].
  intros o. destruct (find_modifier name (ob_modifiers o)) as [m|];
    [|apply keeps_types_raise].
  destruct (md_type m ==s "DECIMATE"); [|apply keeps_types_raise].
  apply (keeps_types_restack id
           (fun o' => upd_first (fun m' => md_name m' ==s name)
                        (fun m' => mkModifier (md_name m') (md_type m') q)
                        (ob_modifiers o'))).
Qed.

Lemma keeps_types_optimize_model tgt :
  keeps_types (optimize_model apply_polygons tgt).
Proof.
  unfold optimize_model. apply keeps_types_bind; [apply keeps_types_gets|].
  intros objs. apply keeps_types_for_each. intros mesh. unfold optimize_mesh.
  apply keeps_types_bind; [now apply keeps_types_modify|intros _].
  apply keeps_types_bind; [now apply keeps_types_modify|intros _].
  apply keeps_types_bind; [apply keeps_types_deref|intros o].
  apply keeps_types_bind.
  { apply keeps_types_for_each. intros m.
    apply keeps_types_when, keeps_types_modifier_apply. }
  intros _. apply keeps_types_bind; [apply keeps_types_polygons|intros p].
  apply keeps_types_bind; [|intros _; now apply keeps_types_modify].
  apply keeps_types_when.
  apply keeps_types_bind; [apply keeps_types_modifier_add|intros _].
  apply keeps_types_bind; [apply keeps_types_set_ratio|intros _].
  apply keeps_types_modifier_apply.
Qed.

Local Abbreviation leaked' := (leaked fbx script_dir).

(** One entry of [ANIMATIONS], for a target that is in the scene: the
    objects the entry leaves behind are those of a file without an
    armature. *)
Lemma import_entry_types tgt e s t :
  get_obj tgt s = Some t ->
  exists s' t',
    import_entry' tgt e s = Ok tt s' /\
    get_obj tgt s' = Some t' /\
    map ob_type (objects s')
    = map ob_type (objects s) ++ map fn_type (leaked' e).
Proof.
  intros Ht. destruct e as [filename action_name].
  unfold import_entry, leaked, path_exists. cbn [fst].
  set (path := path_join script_dir (filename +s ".fbx")).
  destruct (fbx path) as [nodes|] eqn:Hf.
  2:{ exists (add_stdout ("Skipping (not found): " +s filename) s), t.
      split; [reflexivity|]. split; [exact Ht|].
      cbn [objects add_stdout map]. now rewrite app_nil_r. }
  unfold bind at 1. unfold print at 1, modify at 1.
  set (sp := add_stdout ("Importing animation: " +s filename) s).
  destruct (extract_animation_spec path action_name tgt sp nodes t Hf Ht)
    as (s' & Hrun & _ & _ & _ & _ & Hcase).
  change (fresh sp) with (fresh s) in Hcase.
  change (objects sp) with (objects s) in Hcase.
  destruct (find (fun n => fn_type n ==s "ARMATURE") nodes) as [n|].
  - destruct Hcase as [_ Hcase].
    assert (H : exists t',
              get_obj tgt s' = Some t' /\
              map ob_type (objects s') = map ob_type (objects s)).
    { destruct (fn_anim n) as [| |nm frames].
      - destruct Hcase as (Hobj & _). exists t. unfold get_obj.
        rewrite Hobj. split; [exact Ht|reflexivity].
      - destruct Hcase as (Hobj & _). exists t. unfold get_obj.
        rewrite Hobj. split; [exact Ht|reflexivity].
      - cbv zeta in Hcase. destruct Hcase as (Hobj & _).
        eexists. unfold get_obj. rewrite Hobj. split.
        + apply (upd_first_found _ _ _ t Ht). cbn [with_anim ob_id].
          apply Nat.eqb_eq. now apply (get_obj_in _ _ _ Ht).
        + now apply map_upd_first. }
    destruct H as (t' & Ht' & Hl). exists s', t'.
    split; [exact Hrun|]. split; [exact Ht'|].
    cbn [map]. now rewrite app_nil_r.
  - destruct Hcase as (Hobj & _). exists s', t.
    split; [exact Hrun|]. split.
    + unfold get_obj. rewrite Hobj. now apply find_app_some.
    + rewrite Hobj, map_app. f_equal. apply loaded_types.
Qed.

Lemma import_entries_types tgt es : forall s t,
  get_obj tgt s = Some t ->
  exists s' t',
    for_each es (import_entry' tgt) s = Ok tt s' /\
    get_obj tgt s' = Some t' /\
    map ob_type (objects s')
    = map ob_type (objects s)
      ++ flat_map (fun e => map fn_type (leaked' e)) es.
Proof.
  induction es as [|e es IH]; intros s t Ht.
  - exists s, t. cbn [flat_map]. rewrite app_nil_r.
    split; [reflexivity|]. split; [exact Ht|reflexivity].
  - destruct (import_entry_types tgt e s t Ht) as (s1 & t1 & Hrun1 & Ht1 & Hl1).
    destruct (IH s1 t1 Ht1) as (s' & t' & Hrun & Ht' & Hl).
    exists s', t'. split.
    { cbn [for_each]. unfold bind. now rewrite Hrun1. }
    split; [exact Ht'|].
    cbn [flat_map]. now rewrite Hl, Hl1, <- app_assoc.
Qed.

(** The part of the run that starts with the armature at hand, when it
    runs to its end. *)
Lemma main_with_types tgt s t s' :
  get_obj tgt s = Some t ->
  main_with fbx apply_polygons script_dir tgt s = Ok tt s' ->
  map ob_type (objects s')
  = map ob_type (objects s)
    ++ flat_map (fun e => map fn_type (leaked' e)) ANIMATIONS.
Proof.
  intros Ht Hrun. unfold main_with in Hrun.
  unfold bind at 1 in Hrun. unfold set_name in Hrun.
  unfold bind at 1 in Hrun. rewrite (deref_ok _ _ _ Ht) in Hrun.
  unfold modify at 1 in Hrun.
  set (s3 := upd_obj tgt (with_name "Swimmer") s) in *.
  assert (Ht3 : get_obj tgt s3 = Some (with_name "Swimmer" t))
    by now apply get_obj_upd_same.
  destruct (import_entries_types tgt ANIMATIONS s3 _ Ht3)
    as (s4 & t4 & Hrun4 & _ & Hl4).
  unfold bind at 1 in Hrun. rewrite Hrun4 in Hrun.
  unfold bind at 1 in Hrun. unfold print at 1, modify at 1 in Hrun.
  set (s4p := add_stdout "Optimizing model..." s4) in *.
  unfold bind at 1 in Hrun.
  pose proof (keeps_types_optimize_model tgt s4p) as Hl5.
  destruct (optimize_model apply_polygons tgt s4p) as [[] s5|e s5];
    [|discriminate].
  cbn [final] in Hl5.
  unfold export_glb, export_scene_gltf, bind, print, modify in Hrun.
  inversion Hrun; subst s'. clear Hrun.
  cbn [objects add_stdout set_written add_call].
  rewrite Hl5. change (objects s4p) with (objects s4). rewrite Hl4.
  f_equal. unfold s3, upd_obj. cbn [objects set_objects].
  now apply map_upd_first.
Qed.

(** X10. When a run completes, the scene it exports holds the objects the
    reset left in the scene, one object for every node of the character
    file, of the type of the node, and one for every node of every
    animation file that is there and holds no armature; it holds no
    object of an animation file that holds one. *)
Theorem exported_objects s nodes s' :
  fbx character_path = Some nodes ->
  run_main s = Ok tt s' ->
  exists s0 asset,
    clear_scene s = Ok tt s0 /\
    exported output_path s' = Some asset /\
    Permutation
      (map ob_type (as_objects asset))
      (map ob_type (objects s0) ++ map fn_type nodes
       ++ flat_map (fun e => map fn_type (leaked' e)) ANIMATIONS).
Proof.
  intros Hpres Hrun.
  destruct (main_start s) as (s1 & Hc & _ & Hstart).
  rewrite Hpres in Hstart. cbv zeta in Hstart.
  destruct (find (fun p => fn_type (snd p) ==s "ARMATURE") (indexed nodes))
    as [[i n]|] eqn:Hfi.
  2:{ rewrite Hrun in Hstart. discriminate. }
  assert (Hin : In (i, n) (indexed nodes)) by now apply find_some in Hfi.
  cbn [fst] in Hstart. rewrite Hrun in Hstart. symmetry in Hstart.
  set (s2 := add_call (CallImportFbx character_path)
               (add_stdout ("Importing character: " +s character_path) s1))
    in *.
  pose proof (get_obj_loaded nodes s2 (i, n) Hin) as Ht.
  cbn [fst] in Ht. change (fresh s2) with (fresh s1) in Ht.
  pose proof (main_with_exports_last (fresh s1 + 3 * i) (load_nodes nodes s2))
    as Hw.
  rewrite Hstart in Hw.
  exists s1, (mkAsset gltf_settings (objects s') (meshes s') (armatures s')
                      (actions s')).
  split; [exact Hc|]. split; [exact (exported_head _ _ _ _ Hw)|].
  cbn [as_objects].
  rewrite (main_with_types _ _ _ _ Ht Hstart).
  unfold load_nodes. cbn [objects]. change (objects s2) with (objects s1).
  rewrite map_app, loaded_types, <- app_assoc. apply Permutation_refl.
Qed.

(** ** The blocks of the session in the output *)

(** X11. On a disk with a usable character file, the scene handed to the
    exporter still holds every mesh, armature and action block of the
    session that has a user outside the scene, as it was: the reset does
    not remove such a block, and nothing later in the run removes or
    changes it. *)
Theorem leftover_blocks_are_exported s nodes n :
  fbx character_path = Some nodes ->
  find (fun m => fn_type m ==s "ARMATURE") nodes = Some n ->
  Forall node_ok nodes ->
  exists s' asset,
    run_main s = Ok tt s' /\
    exported output_path s' = Some asset /\
    (forall b, In b (meshes s) -> me_other_users b <> 0 ->
       In b (as_meshes asset)) /\
    (forall b, In b (armatures s) -> ar_other_users b <> 0 ->
       In b (as_armatures asset)) /\
    (forall b, In b (actions s) -> ac_other_users b <> 0 ->
       In b (as_actions asset)).
Proof.
  intros Hpres Harm Hnodes.
  destruct (main_completes s nodes n Hpres Harm Hnodes)
    as (s' & _ & Hrun & _ & Hw & _ & _ & _ & _ & _ & new & Hm & Har & Hac & _).
  exists s', (mkAsset gltf_settings (objects s') (meshes s') (armatures s')
                      (actions s')).
  split; [exact Hrun|]. split; [exact (exported_head _ _ _ _ Hw)|].
  cbn [as_meshes as_armatures as_actions].
  split; [|split].
  - intros b Hb Hu.
    assert (H : In b (held_meshes (meshes s'))).
    { rewrite Hm. apply filter_In. split; [exact Hb|].
      now apply negb_true_iff, Nat.eqb_neq. }
    now apply filter_In in H.
  - intros b Hb Hu.
    assert (H : In b (held_armatures (armatures s'))).
    { rewrite Har. apply filter_In. split; [exact Hb|].
      now apply negb_true_iff, Nat.eqb_neq. }
    now apply filter_In in H.
  - intros b Hb Hu. rewrite Hac. apply in_or_app. left.
    apply filter_In. split; [exact Hb|].
    now apply negb_true_iff, Nat.eqb_neq.
Qed.

(** ** The meshes of the character in the output *)

Lemma in_upd_first_other {A} (p : A -> bool) f (l : list A) x :
  In x l -> p x = false -> In x (upd_first p f l).
Proof.
  induction l as [|y l IH]; cbn [upd_first]; intros Hx Hp; [contradiction|].
  destruct Hx as [->|Hx].
  - rewrite Hp. now left.
  - destruct (p y); right; [exact Hx|now apply IH].
Qed.

Lemma find_node_mesh base (l : list (nat * FbxNode)) j m :
  NoDup (map fst l) -> In (j, m) l -> fn_type m = "MESH" ->
  find (fun b => me_id b =? base + 3 * j + 1) (flat_map (node_meshes base) l)
  = Some (mkMesh (base + 3 * j + 1) (fn_polygons m) 0).
Proof.
  induction l as [|[k x] l IH]; cbn [map flat_map node_meshes fst];
    intros Hnd Hin Hty; [contradiction|].
  inversion Hnd as [|? ? Hk Hrest]; subst.
  destruct Hin as [E|Hin].
  - inversion E; subst k x. rewrite Hty. cbn [String.eqb Ascii.eqb Bool.eqb].
    cbn [app find me_id]. now rewrite Nat.eqb_refl.
  - assert (Hne : k <> j).
    { intros ->. apply Hk. change j with (fst (j, m)). now apply in_map. }
    destruct (fn_type x ==s "MESH"); cbn [app find me_id]; [|now apply IH].
    destruct (Nat.eqb_spec (base + 3 * k + 1) (base + 3 * j + 1)) as [E|_];
      [lia|now apply IH].
Qed.

(** The loop over the animation entries removes no object that was in the
    scene, changes none but the target and puts none before them; and it
    removes no mesh block. *)
Lemma import_entries_keep tgt es : forall s t,
  get_obj tgt s = Some t ->
  exists s' t',
    for_each es (import_entry' tgt) s = Ok tt s' /\
    get_obj tgt s' = Some t' /\
    (forall o, In o (objects s) -> ob_id o <> tgt -> In o (objects s')) /\
    (exists more, map ob_id (objects s') = map ob_id (objects s) ++ more) /\
    (forall d b, find_mesh d s = Some b -> find_mesh d s' = Some b).
Proof.
  induction es as [|e es IH]; intros s t Ht.
  - exists s, t. split; [reflexivity|]. split; [exact Ht|].
    split; [trivial|]. split; [|trivial].
    exists []. now rewrite app_nil_r.
  - assert (H1 : exists s1 t1,
              import_entry' tgt e s = Ok tt s1 /\
              get_obj tgt s1 = Some t1 /\
              (forall o, In o (objects s) -> ob_id o <> tgt ->
                 In o (objects s1)) /\
              (exists more,
                 map ob_id (objects s1) = map ob_id (objects s) ++ more) /\
              (forall d b, find_mesh d s = Some b -> find_mesh d s1 = Some b)).
    { destruct e as [filename action_name]. unfold import_entry, path_exists.
      set (path := path_join script_dir (filename +s ".fbx")).
      destruct (fbx path) as [nodes|] eqn:Hf.
      2:{ exists (add_stdout ("Skipping (not found): " +s filename) s), t.
          split; [reflexivity|]. split; [exact Ht|].
          split; [trivial|]. split; [|trivial].
          exists []. cbn [objects add_stdout]. now rewrite app_nil_r. }
      unfold bind at 1. unfold print at 1, modify at 1.
      set (sp := add_stdout ("Importing animation: " +s filename) s).
      destruct (extract_animation_spec path action_name tgt sp nodes t Hf Ht)
        as (s1 & Hrun & _ & _ & Hm & _ & Hcase).
      change (objects sp) with (objects s) in Hcase.
      change (meshes sp) with (meshes s) in Hm.
      assert (Hmesh : forall d b, find_mesh d s = Some b ->
                                  find_mesh d s1 = Some b).
      { intros d b Hb. unfold find_mesh in *. rewrite Hm.
        now apply find_app_some. }
      destruct (find (fun x => fn_type x ==s "ARMATURE") nodes) as [x|].
      - destruct Hcase as [_ Hcase].
        assert (H : objects s1 = objects s \/
                    exists a, objects s1
                              = upd_first (fun o => ob_id o =? tgt)
                                          (with_anim a) (objects s)).
        { destruct (fn_anim x) as [| |nm frames].
          - left. exact (proj1 Hcase).
          - left. exact (proj1 Hcase).
          - right. cbv zeta in Hcase. eexists. exact (proj1 Hcase). }
        destruct H as [Hobj|[a Hobj]].
        + exists s1, t. split; [exact Hrun|]. unfold get_obj. rewrite Hobj.
          split; [exact Ht|]. split; [trivial|]. split; [|exact Hmesh].
          exists []. now rewrite app_nil_r.
        + eexists s1, _. split; [exact Hrun|]. unfold get_obj. rewrite Hobj.
          split.
          { apply (upd_first_found _ _ _ t Ht). cbn [with_anim ob_id].
            apply Nat.eqb_eq. now apply (get_obj_in _ _ _ Ht). }
          split; [|split; [|exact Hmesh]].
          * intros o Ho Hne. apply in_upd_first_other; [exact Ho|].
            now apply Nat.eqb_neq.
          * exists []. rewrite app_nil_r. now apply map_upd_first.
      - destruct Hcase as (Hobj & _). exists s1, t.
        split; [exact Hrun|]. unfold get_obj. rewrite Hobj.
        split; [now apply find_app_some|].
        split; [|split; [|exact Hmesh]].
        + intros o Ho _. apply in_or_app. now left.
        + eexists. apply map_app. }
    destruct H1 as (s1 & t1 & Hrun1 & Ht1 & Ho1 & [more1 Hi1] & Hm1).
    destruct (IH s1 t1 Ht1) as (s' & t' & Hrun & Ht' & Ho & [more Hi] & Hm).
    exists s', t'. split.
    { cbn [for_each]. unfold bind. now rewrite Hrun1. }
    split; [exact Ht'|]. split; [|split].
    + intros o Hin Hne. apply Ho; [now apply Ho1|exact Hne].
    + exists (more1 ++ more). now rewrite Hi, Hi1, <- app_assoc.
    + intros d b Hb. now apply Hm, Hm1.
Qed.

(** The meshes below the target, in a scene as it is between two
    animation entries, are fit for the optimize phase. *)
Lemma scene_ok_kids tgt s :
  scene_ok tgt s ->
  let kids := filter (is_child_mesh tgt) (objects s) in
  NoDup (map ob_id kids) /\ NoDup (map ob_data kids) /\
  forall o, In o kids -> get_obj (ob_id o) s = Some o /\ mesh_ready s o.
Proof.
  intros (Hnd & Hkids & _) kids.
  assert (Hids : NoDup (map ob_id kids)) by now apply filter_keeps_distinct.
  split; [exact Hids|]. split.
  - assert (E : map ob_data kids = map (fun o => Some (ob_id o + 1)) kids).
    { apply map_ext_in. intros o Ho. apply filter_In in Ho.
      destruct Ho as [Ho Hk]. now destruct (Hkids o Ho Hk) as (_ & Hd & _). }
    rewrite E. clear E. clearbody kids.
    induction kids as [|k kids IH]; [constructor|].
    cbn [map] in *. inversion Hids as [|? ? Hnotin Hrest]; subst.
    constructor; [|now apply IH].
    intros H. apply in_map_iff in H. destruct H as (x & E & Hx).
    apply Hnotin. inversion E as [E']. replace (ob_id k) with (ob_id x) by lia.
    now apply in_map.
  - intros o Ho. apply filter_In in Ho. destruct Ho as [Ho Hk]. split.
    + now apply get_obj_NoDup.
    + now destruct (Hkids o Ho Hk) as (Hr & _).
Qed.

(** X12. When a run completes, every mesh of the character file that is
    parented to its first armature is in the output optimized, whatever
    the animation files hold: its stack holds the armature modifiers of
    the file and no other modifier, and the polygon count of its mesh is
    the count of the file once the other modifiers are baked in, decimated
    once at ratio 0.5 exactly when that count exceeds 10000. *)
Theorem exported_meshes_are_optimized s nodes i n s' :
  fbx character_path = Some nodes ->
  find (fun p => fn_type (snd p) ==s "ARMATURE") (indexed nodes)
  = Some (i, n) ->
  Forall node_ok nodes ->
  run_main s = Ok tt s' ->
  exists asset,
    exported output_path s' = Some asset /\
    forall j m,
      nth_error nodes j = Some m -> fn_type m = "MESH" ->
      fn_parent m = Some i ->
      exists o b,
        In o (as_objects asset) /\ In b (as_meshes asset) /\
        ob_type o = "MESH" /\ ob_data o = Some (me_id b) /\
        ob_modifiers o = kept_modifiers (fn_modifiers m) /\
        me_polygons b
        = (let p := baked_polygons apply_polygons (fn_modifiers m)
                                   (fn_polygons m) in
           if (10000 <? p)%Z then apply_polygons decimate_half p else p).
Proof.
  intros Hpres Hfi Hnodes Hdone.
  assert (Hin : In (i, n) (indexed nodes)) by now apply find_some in Hfi.
  assert (Hty : fn_type n = "ARMATURE").
  { apply find_some in Hfi. now apply String.eqb_eq. }
  destruct (main_start s) as (s1 & Hc & _ & Hstart).
  rewrite Hpres in Hstart. cbv zeta in Hstart. rewrite Hfi in Hstart.
  cbn [fst] in Hstart.
  destruct (clear_scene_spec s) as (s1' & Hc' & Hobj1 & _).
  rewrite Hc in Hc'. inversion Hc'; subst s1'. clear Hc'.
  set (s0 := add_call (CallImportFbx character_path)
               (add_stdout ("Importing character: " +s character_path) s1))
    in *.
  set (base := fresh s1) in *.
  set (tgt := base + 3 * i) in *.
  set (s2 := load_nodes nodes s0) in *.
  assert (Ht2 : get_obj tgt s2 = Some (node_object base (i, n))).
  { exact (get_obj_loaded nodes s0 (i, n) Hin). }
  set (s3 := upd_obj tgt (with_name "Swimmer") s2).
  assert (Ht3 : get_obj tgt s3
                = Some (with_name "Swimmer" (node_object base (i, n)))).
  { now apply get_obj_upd_same. }
  assert (Hok3 : scene_ok tgt s3).
  { exact (scene_ok_character s0 nodes i n Hobj1 Hnodes Hin). }
  destruct (import_entries_spec tgt ANIMATIONS s3 _ Hok3 Ht3)
    as (s4 & t4 & Hrun4 & Hok4 & _).
  destruct (import_entries_keep tgt ANIMATIONS s3 _ Ht3)
    as (s4' & t4' & Hrun4' & _ & Hkeep_o & _ & Hkeep_m).
  rewrite Hrun4 in Hrun4'. inversion Hrun4'; subst s4'. clear Hrun4'.
  set (s4p := add_stdout "Optimizing model..." s4).
  destruct (scene_ok_kids tgt s4 Hok4) as (Hk_ids & Hk_data & Hk_ready).
  destruct (optimize_loop (filter (is_child_mesh tgt) (objects s4p)) s4p
              Hk_ids Hk_data Hk_ready)
    as (s5 & Hrun5 & Hopt5 & _).
  set (z := add_stdout "Done!"
               (add_stdout ("Exported: " +s output_path)
                  (set_written (fun w =>
                      (output_path,
                       mkAsset gltf_settings (objects s5) (meshes s5)
                               (armatures s5) (actions s5))
                      :: filter (fun p => negb (fst p ==s output_path)) w)
                     (add_call (CallExportGltf output_path)
                        (add_stdout ("Exporting to: " +s output_path) s5))))).
  assert (Hrun : run_main s = Ok tt z).
  { rewrite Hstart. unfold main_with. unfold bind at 1. unfold set_name.
    unfold bind at 1. rewrite (deref_ok _ _ _ Ht2). unfold modify at 1.
    fold s3. unfold bind at 1. rewrite Hrun4.
    unfold bind at 1. unfold print at 1, modify at 1. fold s4p.
    unfold bind at 1. unfold optimize_model.
    unfold bind at 1. unfold gets at 1. rewrite Hrun5.
    unfold z, export_glb, export_scene_gltf, bind, print, modify.
    reflexivity. }
  rewrite Hdone in Hrun. inversion Hrun; subst s'. clear Hrun Hdone.
  exists (mkAsset gltf_settings (objects s5) (meshes s5) (armatures s5)
                  (actions s5)).
  split.
  { apply (exported_head _ _ (filter (fun p => negb (fst p ==s output_path))
                                     (written s5))). reflexivity. }
  cbn [as_objects as_meshes].
  intros j m Hnth Hmesh Hpar.
  assert (Hjx : nth_error (indexed nodes) j = Some (j, m)).
  { now rewrite nth_error_indexed, Hnth. }
  assert (Hj : In (j, m) (indexed nodes)) by now apply (nth_error_In _ j).
  set (o := node_object base (j, m)).
  set (d := base + 3 * j + 1).
  assert (Hne : j <> i).
  { intros ->. pose proof (indexed_NoDup nodes) as Hnd.
    assert (E : (i, m) = (i, n)).
    { apply (NoDup_map_eq fst (indexed nodes)); trivial. }
    inversion E; subst m. rewrite Hty in Hmesh. discriminate. }
  assert (Hid : ob_id o <> tgt).
  { unfold o, tgt. rewrite node_object_id. cbn [fst]. lia. }
  assert (Hkid : is_child_mesh tgt o = true).
  { unfold is_child_mesh, o. cbn [node_object ob_parent ob_type].
    rewrite Hpar, Hmesh. cbn [option_map]. fold tgt.
    now rewrite Nat.eqb_refl. }
  assert (Ho4 : In o (objects s4)).
  { apply Hkeep_o; [|exact Hid]. unfold s3, upd_obj. cbn [objects set_objects].
    apply in_upd_first_other; [|now apply Nat.eqb_neq].
    unfold s2, load_nodes. cbn [objects]. apply in_or_app. right.
    now apply in_map. }
  assert (Hd : ob_data o = Some d).
  { unfold o. cbn [node_object ob_data]. now rewrite Hmesh. }
  assert (Hb4 : find_mesh d s4p = Some (mkMesh d (fn_polygons m) 0)).
  { apply Hkeep_m. unfold find_mesh, s3, upd_obj, s2, load_nodes.
    cbn [meshes set_objects]. rewrite find_app_none.
    - now apply find_node_mesh; [apply indexed_NoDup| |].
    - apply find_none_iff. intros b Hb. apply fresh_mesh in Hb.
      apply Nat.eqb_neq. change (fresh s0) with base in Hb. unfold d. lia. }
  assert (Hk : In o (filter (is_child_mesh tgt) (objects s4p))).
  { apply filter_In. split; [exact Ho4|exact Hkid]. }
  destruct (Hopt5 o Hk) as [Hg5 Hm5].
  specialize (Hm5 d _ Hd Hb4).
  exists (optimized o),
         (with_polygons
            (optimized_polygons apply_polygons (ob_modifiers o) (fn_polygons m))
            (mkMesh d (fn_polygons m) 0)).
  split; [now apply (get_obj_in _ _ _ Hg5)|].
  split.
  { unfold find_mesh in Hm5. now apply find_some in Hm5. }
  repeat split; unfold o; cbn [optimized with_modifiers node_object ob_data
                                 ob_type]; try exact Hmesh.
  now rewrite Hmesh.
Qed.

End Run.

(** ** The claims on the sample disk *)

Lemma sample_stack_ok :
  stack_ok [mkModifier "Armature" "ARMATURE" 1%Q;
            mkModifier "Subdivision" "SUBSURF" 1%Q].
Proof.
  unfold stack_ok. cbn. constructor.
  - intros [H|[]]. discriminate.
  - constructor; [intros []|constructor].
Qed.

Lemma sample_decimate_free :
  decimate_free [mkModifier "Armature" "ARMATURE" 1%Q;
                 mkModifier "Subdivision" "SUBSURF" 1%Q].
Proof. intros m [<-|[<-|[]]]; cbn; discriminate. Qed.

Lemma sample_character_ok : Forall node_ok Sample.character.
Proof.
  constructor.
  - split; [constructor|intros m []].
  - constructor; [|constructor].
    split; [exact sample_stack_ok|exact sample_decimate_free].
Qed.



Lemma main_exits_without_character_witness :
  (Sample.no_disk (path_join Sample.dir "character.fbx") = None /\
   exit_status (main Sample.no_disk Sample.apply_polygons Sample.dir Sample.empty)
   = Some 1%Z) /\
  (Sample.cube_disk (path_join Sample.dir "character.fbx") = Some Sample.flip /\
   find (fun n => fn_type n ==s "ARMATURE") Sample.flip = None /\
   exit_status (main Sample.cube_disk Sample.apply_polygons Sample.dir Sample.empty)
   = Some 1%Z).
Proof.
  split.
  - split; [reflexivity|].
    apply (main_exits_without_character Sample.no_disk Sample.apply_polygons
             Sample.dir Sample.empty).
    left. reflexivity.
  - split; [reflexivity|]. split; [reflexivity|].
    apply (main_exits_without_character Sample.cube_disk Sample.apply_polygons
             Sample.dir Sample.empty).
    right. exists Sample.flip. split; reflexivity.
Defined.

Lemma attached_tracks_are_muted_witness :
  Sample.disk (path_join Sample.dir "character.fbx") = Some Sample.character /\
  find (fun m => fn_type m ==s "ARMATURE") Sample.character = Some Sample.armature /\
  Forall node_ok Sample.character /\
  exists s' asset,
    main Sample.disk Sample.apply_polygons Sample.dir Sample.empty = Ok tt s' /\
    exported (path_join Sample.dir OUTPUT_FILE) s' = Some asset /\
    all_muted (as_objects asset).
Proof.
  split; [reflexivity|]. split; [reflexivity|].
  split; [exact sample_character_ok|].
  destruct (attached_tracks_are_muted Sample.disk Sample.apply_polygons
              Sample.dir Sample.empty Sample.character Sample.armature
              eq_refl eq_refl sample_character_ok)
    as (s' & asset & swimmer & Hrun & Hw & _ & _ & _ & _ & Hm).
  exists s', asset. split; [exact Hrun|]. split; [|exact Hm].
  unfold exported. rewrite Hw. cbn [find fst].
  rewrite String.eqb_refl. reflexivity.
Defined.


Lemma run_completes_without_action_witness :
  Sample.disk (path_join Sample.dir "character.fbx") = Some Sample.character /\
  find (fun m => fn_type m ==s "ARMATURE") Sample.character = Some Sample.armature /\
  Forall node_ok Sample.character /\
  In ("swim_dive", "Diving") ANIMATIONS /\
  Sample.disk (path_join Sample.dir ("swim_dive" +s ".fbx")) = Some Sample.dive /\
  find (fun m => fn_type m ==s "ARMATURE") Sample.dive = Some Sample.still /\
  (fn_anim Sample.still = NoAnimData \/ fn_anim Sample.still = NoAction) /\
  exit_status (main Sample.disk Sample.apply_polygons Sample.dir Sample.empty)
  = Some 0%Z.
Proof.
  assert (Hin : In ("swim_dive", "Diving") ANIMATIONS).
  { do 4 right. left. reflexivity. }
  split; [reflexivity|]. split; [reflexivity|].
  split; [exact sample_character_ok|]. split; [exact Hin|].
  split; [reflexivity|]. split; [reflexivity|].
  split; [right; reflexivity|].
  destruct (run_completes_without_action Sample.disk Sample.apply_polygons
              Sample.dir Sample.empty Sample.character Sample.armature
              ("swim_dive", "Diving") Sample.dive Sample.still
              eq_refl eq_refl sample_character_ok Hin eq_refl eq_refl
              (or_intror eq_refl))
    as (s' & swimmer & _ & Hexit & _).
  exact Hexit.
Defined.

Lemma missing_animation_is_skipped_witness :
  Sample.disk (path_join Sample.dir "character.fbx") = Some Sample.character /\
  find (fun m => fn_type m ==s "ARMATURE") Sample.character = Some Sample.armature /\
  Forall node_ok Sample.character /\
  In ("swim_butterfly", "Butterfly") ANIMATIONS /\
  Sample.disk (path_join Sample.dir ("swim_butterfly" +s ".fbx")) = None /\
  exit_status (main Sample.disk Sample.apply_polygons Sample.dir Sample.empty)
  = Some 0%Z.
Proof.
  assert (Hin : In ("swim_butterfly", "Butterfly") ANIMATIONS).
  { do 3 right. left. reflexivity. }
  split; [reflexivity|]. split; [reflexivity|].
  split; [exact sample_character_ok|]. split; [exact Hin|].
  split; [reflexivity|].
  destruct (missing_animation_is_skipped Sample.disk Sample.apply_polygons
              Sample.dir Sample.empty Sample.character Sample.armature
              ("swim_butterfly", "Butterfly")
              eq_refl eq_refl sample_character_ok Hin eq_refl)
    as (_ & _ & s' & _ & Hexit & _).
  exact Hexit.
Defined.



Lemma animations_in_order_witness :
  Sample.disk (path_join Sample.dir "character.fbx") = Some Sample.character /\
  find (fun m => fn_type m ==s "ARMATURE") Sample.character = Some Sample.armature /\
  Forall node_ok Sample.character /\
  List.length ANIMATIONS = 7.
Proof.
  split; [reflexivity|]. split; [reflexivity|].
  split; [exact sample_character_ok|].
  exact (proj1 (proj2 (animations_in_order Sample.disk Sample.apply_polygons
                         Sample.dir Sample.empty Sample.character
                         Sample.armature eq_refl eq_refl sample_character_ok))).
Defined.

Lemma extract_animation_creates_animation_data_witness :
  Sample.disk "/models/swim_freestyle.fbx" = Some Sample.freestyle /\
  find (fun m => fn_type m ==s "ARMATURE") Sample.freestyle = Some Sample.swimming /\
  fn_anim Sample.swimming = Bound "mixamo.com" 30 /\
  get_obj 1 Sample.loaded = Some Sample.target /\
  ob_anim Sample.target = None /\
  nla_tracks_new 1 Sample.loaded = Raise AttributeError Sample.loaded.
Proof.
  split; [reflexivity|]. split; [reflexivity|]. split; [reflexivity|].
  split; [reflexivity|]. split; [reflexivity|].
  exact (proj1 (extract_animation_creates_animation_data Sample.disk
                  "/models/swim_freestyle.fbx" "Swimming" 1 Sample.loaded
                  Sample.freestyle Sample.swimming "mixamo.com" 30
                  Sample.target eq_refl eq_refl eq_refl eq_refl eq_refl)).
Defined.

Lemma extract_animation_without_action_witness :
  Sample.disk "/models/swim_dive.fbx" = Some Sample.dive /\
  find (fun m => fn_type m ==s "ARMATURE") Sample.dive = Some Sample.still /\
  (fn_anim Sample.still = NoAnimData \/ fn_anim Sample.still = NoAction) /\
  get_obj 1 Sample.loaded = Some Sample.target /\
  exists s',
    extract_animation Sample.disk "/models/swim_dive.fbx" "Diving" 1
      Sample.loaded = Ok tt s' /\
    objects s' = objects Sample.loaded.
Proof.
  split; [reflexivity|]. split; [reflexivity|].
  split; [right; reflexivity|]. split; [reflexivity|].
  destruct (extract_animation_without_action Sample.disk
              "/models/swim_dive.fbx" "Diving" 1 Sample.loaded
              Sample.dive Sample.still Sample.target
              eq_refl eq_refl (or_intror eq_refl) eq_refl)
    as (s' & Hrun & _ & Hobj & _).
  exists s'. split; [exact Hrun|exact Hobj].
Defined.

(** ** Where the code departs from the specification *)


(** C4 as the specification has it fails on the sample disk: for the file
    whose armature has no action, [extract_animation] prints nothing, and
    the lines of the whole run hold one warning, which is about another
    file, the one without an armature. *)
Lemma no_warning_without_action :
  (exit_status
     (extract_animation Sample.disk "/models/swim_dive.fbx" "Diving" 1
        Sample.loaded) = Some 0%Z /\
   stdout (final (extract_animation Sample.disk "/models/swim_dive.fbx"
                    "Diving" 1 Sample.loaded))
   = stdout Sample.loaded) /\
  stdout (final (main Sample.disk Sample.apply_polygons Sample.dir Sample.empty))
  = [ "Importing character: /models/character.fbx";
      "Importing animation: swim_freestyle";
      "Added animation: Swimming";
      "Skipping (not found): swim_breaststroke";
      "Skipping (not found): swim_backstroke";
      "Skipping (not found): swim_butterfly";
      "Importing animation: swim_dive";
      "Importing animation: swim_turn_flip";
      "Warning: No armature found in /models/swim_turn_flip.fbx";
      "Skipping (not found): swim_turn_open";
      "Optimizing model...";
      "Exporting to: /models/swimmer.glb";
      "Exported: /models/swimmer.glb";
      "Done!" ].
Proof. vm_compute. repeat split. Qed.



(** ** The further properties on the sample disk *)


Lemma extract_animation_without_armature_witness :
  Sample.disk "/models/swim_turn_flip.fbx" = Some Sample.flip /\
  find (fun n => fn_type n ==s "ARMATURE") Sample.flip = None /\
  exists s',
    extract_animation Sample.disk "/models/swim_turn_flip.fbx" "FlipTurn" 1
      Sample.loaded = Ok tt s' /\
    stdout s' = ["Warning: No armature found in /models/swim_turn_flip.fbx"] /\
    List.length (objects s') = 3 /\
    List.length (actions s') = 0.
Proof.
  split; [reflexivity|]. split; [reflexivity|].
  destruct (extract_animation_without_armature Sample.disk
              "/models/swim_turn_flip.fbx" "FlipTurn" 1 Sample.loaded
              Sample.flip eq_refl eq_refl)
    as (s' & more & Hrun & Hso & Hall & Hperm & _ & _ & _ & Hlen & _).
  exists s'. split; [exact Hrun|]. split; [rewrite Hso; reflexivity|].
  split; [|rewrite Hlen; reflexivity].
  rewrite (Permutation_length Hperm), length_app.
  rewrite <- (Forall2_length Hall). reflexivity.
Defined.

Lemma extract_animation_stacks_track_witness :
  Sample.disk "/models/swim_freestyle.fbx" = Some Sample.freestyle /\
  find (fun m => fn_type m ==s "ARMATURE") Sample.freestyle
  = Some Sample.swimming /\
  fn_anim Sample.swimming = Bound "mixamo.com" 30 /\
  get_obj 1 Sample.swum = Some Sample.swimmer /\
  ob_anim Sample.swimmer = Some Sample.swimmer_anim /\
  exists s' o ad,
    extract_animation Sample.disk "/models/swim_freestyle.fbx" "Freestyle" 1
      Sample.swum = Ok tt s' /\
    get_obj 1 s' = Some o /\ ob_anim o = Some ad /\
    map tr_name (ad_tracks ad) = ["Swimming"; "Freestyle"].
Proof.
  split; [reflexivity|]. split; [reflexivity|]. split; [reflexivity|].
  split; [reflexivity|]. split; [reflexivity|].
  destruct (extract_animation_stacks_track Sample.disk
              "/models/swim_freestyle.fbx" "Freestyle" 1 Sample.swum
              Sample.freestyle Sample.swimming "mixamo.com" 30 Sample.swimmer
              Sample.swimmer_anim eq_refl eq_refl eq_refl eq_refl eq_refl)
    as (s' & t' & track & strip & Hrun & Hget & _ & Had & Hname & _).
  eexists s', t', _. split; [exact Hrun|]. split; [exact Hget|].
  split; [exact Had|].
  cbn [ad_tracks]. rewrite map_app. cbn [map]. rewrite Hname. reflexivity.
Defined.






Lemma sample_run :
  main Sample.disk Sample.apply_polygons Sample.dir Sample.empty
  = Ok tt (final (main Sample.disk Sample.apply_polygons Sample.dir
                       Sample.empty)).
Proof. vm_compute. reflexivity. Qed.

Lemma exported_objects_witness :
  Sample.disk (path_join Sample.dir "character.fbx") = Some Sample.character /\
  exists s' asset,
    main Sample.disk Sample.apply_polygons Sample.dir Sample.empty = Ok tt s' /\
    exported (path_join Sample.dir OUTPUT_FILE) s' = Some asset /\
    Permutation (map ob_type (as_objects asset)) ["ARMATURE"; "MESH"; "MESH"].
Proof.
  split; [reflexivity|].
  destruct (exported_objects Sample.disk Sample.apply_polygons Sample.dir
              Sample.empty Sample.character _ eq_refl sample_run)
    as (s0 & asset & Hc & Hex & Hperm).
  eexists _, asset. split; [exact sample_run|]. split; [exact Hex|].
  vm_compute in Hc. inversion Hc; subst s0. exact Hperm.
Defined.

Lemma leftover_blocks_are_exported_witness :
  Sample.disk (path_join Sample.dir "character.fbx") = Some Sample.character /\
  find (fun m => fn_type m ==s "ARMATURE") Sample.character
  = Some Sample.armature /\
  Forall node_ok Sample.character /\
  exists s' asset,
    main Sample.disk Sample.apply_polygons Sample.dir Sample.leftover
    = Ok tt s' /\
    exported (path_join Sample.dir OUTPUT_FILE) s' = Some asset /\
    In (mkAction 1 "Idle" 12 1) (as_actions asset).
Proof.
  split; [reflexivity|]. split; [reflexivity|].
  split; [exact sample_character_ok|].
  destruct (leftover_blocks_are_exported Sample.disk Sample.apply_polygons
              Sample.dir Sample.leftover Sample.character Sample.armature
              eq_refl eq_refl sample_character_ok)
    as (s' & asset & Hrun & Hex & _ & _ & Hac).
  exists s', asset. split; [exact Hrun|]. split; [exact Hex|].
  apply Hac; [now left|discriminate].
Defined.

Lemma exported_meshes_are_optimized_witness :
  Sample.disk (path_join Sample.dir "character.fbx") = Some Sample.character /\
  find (fun p => fn_type (snd p) ==s "ARMATURE") (indexed Sample.character)
  = Some (0, Sample.armature) /\
  Forall node_ok Sample.character /\
  exists s' asset o b,
    main Sample.disk Sample.apply_polygons Sample.dir Sample.empty = Ok tt s' /\
    exported (path_join Sample.dir OUTPUT_FILE) s' = Some asset /\
    In o (as_objects asset) /\ In b (as_meshes asset) /\
    ob_type o = "MESH" /\ ob_data o = Some (me_id b) /\
    ob_modifiers o = [mkModifier "Armature" "ARMATURE" 1%Q] /\
    me_polygons b = 8000%Z.
Proof.
  split; [reflexivity|]. split; [reflexivity|].
  split; [exact sample_character_ok|].
  destruct (exported_meshes_are_optimized Sample.disk Sample.apply_polygons
              Sample.dir Sample.empty Sample.character 0 Sample.armature _
              eq_refl eq_refl sample_character_ok sample_run)
    as (asset & Hex & Hall).
  destruct (Hall 1 (mkNode "Body" "MESH" (Some 0) 4000%Z
                      [ mkModifier "Armature" "ARMATURE" 1%Q;
                        mkModifier "Subdivision" "SUBSURF" 1%Q ] NoAnimData)
              eq_refl eq_refl eq_refl)
    as (o & b & Ho & Hb & Hl & Hd & Hm & Hp).
  eexists _, asset, o, b. split; [exact sample_run|]. split; [exact Hex|].
  split; [exact Ho|]. split; [exact Hb|]. split; [exact Hl|].
  split; [exact Hd|]. split; [exact Hm|exact Hp].
Defined.
